(** * ACE-SQL: the rule-based query compiler of [app/services/query_generator.py]

    A shallow embedding of the [QueryGenerator] class: its lexical tables,
    the schema validator, the intent extractors, the SQL template and the
    explanation synthesizer, followed by the properties of the specification
    that were checked against them.

    Conventions of the embedding.
    - A Python [str] is a Rocq [string]; a character is a code point below
      256 (ASCII and Latin-1), on which [str.lower], [\s] and [\d] are
      written out below.
    - A [dict] literal is an association list in insertion order, which is the
      order in which Python iterates over it.
    - A value that may be Python's [None] has an option type; a function
      that can raise returns a [result].
    - The methods never assign an attribute of [self] after [__init__], so a
      method is first written as a function that reads [self] and returns
      a value, without its calls to [logger].  The section "The methods
      on a store" then runs the methods on the object and the log that
      the calls share, and the two are proved to agree. *)

From Stdlib Require Import String Ascii List Bool Arith NArith Lia.
From Stdlib Require Import ZArith.
Import ListNotations.
Open Scope string_scope.

(* ------------------------------------------------------------------ *)
(** ** Python strings *)

Module PyStr.

Definition code (c : ascii) : N := N_of_ascii c.

Definition between (lo hi : N) (c : ascii) : bool :=
  (N.leb lo (code c) && N.leb (code c) hi)%bool.

(** Upper-case letters among the first 256 code points: A-Z, and the
    Latin-1 capitals U+00C0..U+00DE without the multiplication sign. *)
Definition is_upper (c : ascii) : bool :=
  (between 65 90 c || (between 192 222 c && negb (N.eqb (code c) 215)))%bool.

Definition lower_char (c : ascii) : ascii :=
  if is_upper c then ascii_of_N (code c + 32) else c.

(** [s.lower()] *)
Fixpoint lower (s : string) : string :=
  match s with
  | EmptyString => EmptyString
  | String c s' => String (lower_char c) (lower s')
  end.

(** [c.isspace()], which is also the class [\s] of [re] on [str]. *)
Definition is_space (c : ascii) : bool :=
  (between 9 13 c || between 28 32 c || N.eqb (code c) 133
   || N.eqb (code c) 160)%bool.

(** The class [\d] of [re] on [str]. *)
Definition is_digit (c : ascii) : bool := between 48 57 c.

Definition newline : ascii := ascii_of_N 10.

(** [s.startswith(t)] *)
Fixpoint startswith (t s : string) : bool :=
  match t, s with
  | EmptyString, _ => true
  | String a t', String b s' => (Ascii.eqb a b && startswith t' s')%bool
  | String _ _, EmptyString => false
  end.

(** [t in s] *)
Fixpoint contains (t s : string) : bool :=
  if startswith t s then true
  else match s with
       | EmptyString => false
       | String _ s' => contains t s'
       end.

(** [sep.join(l)] *)
Fixpoint join (sep : string) (l : list string) : string :=
  match l with
  | [] => EmptyString
  | [x] => x
  | x :: l' => x ++ sep ++ join sep l'
  end.

(** [s.replace(old, new)]: every occurrence of [old], left to right and
    without overlap.  [skip] counts the characters of an occurrence that
    was just replaced and are still to be passed over. *)
Fixpoint replace_from (old new : string) (skip : nat) (s : string) : string :=
  match s with
  | EmptyString => EmptyString
  | String c s' =>
      match skip with
      | S n => replace_from old new n s'
      | O =>
          if startswith old s
          then new ++ replace_from old new (String.length old - 1) s'
          else String c (replace_from old new 0 s')
      end
  end.

(** With an empty [old], Python puts [new] before every character and at
    the end. *)
Fixpoint intersperse (new s : string) : string :=
  match s with
  | EmptyString => new
  | String c s' => new ++ String c (intersperse new s')
  end.

Definition replace (old new s : string) : string :=
  match old with
  | EmptyString => intersperse new s
  | String _ _ => replace_from old new 0 s
  end.

(** [s.split()]: the maximal runs of characters that are not white space.
    [cur] is the run being read, in reverse. *)
Definition rev_string (s : string) : string :=
  string_of_list_ascii (rev (list_ascii_of_string s)).

Definition flush (cur : string) (acc : list string) : list string :=
  match cur with
  | EmptyString => acc
  | String _ _ => rev_string cur :: acc
  end.

Fixpoint split_from (cur : string) (acc : list string) (s : string)
  : list string :=
  match s with
  | EmptyString => rev (flush cur acc)
  | String c s' =>
      if is_space c then split_from EmptyString (flush cur acc) s'
      else split_from (String c cur) acc s'
  end.

Definition split (s : string) : list string :=
  split_from EmptyString [] s.

(** [s.split('.')[-1]]: the text after the last dot, or all of [s]. *)
Fixpoint after_last (d : ascii) (cur : string) (s : string) : string :=
  match s with
  | EmptyString => rev_string cur
  | String c s' =>
      if Ascii.eqb c d then after_last d EmptyString s'
      else after_last d (String c cur) s'
  end.

Definition last_segment (d : ascii) (s : string) : string :=
  after_last d EmptyString s.

(** [s.strip()] *)
Fixpoint lstrip (s : string) : string :=
  match s with
  | EmptyString => EmptyString
  | String c s' => if is_space c then lstrip s' else s
  end.

Definition strip (s : string) : string :=
  rev_string (lstrip (rev_string (lstrip s))).

(** Truthiness of a [str]. *)
Definition truthy (s : string) : bool :=
  match s with
  | EmptyString => false
  | String _ _ => true
  end.

End PyStr.

(* ------------------------------------------------------------------ *)
(** ** The fragment of [re] that the program uses

    Patterns are syntax trees; matching is the backtracking search of
    Python's [re]: alternatives left to right, greedy quantifiers longest
    first, lazy ones shortest first, and [search] at the leftmost position
    that admits a match.  Quantifiers occur in the program only on a
    character class, and groups are never nested, so a group's number is
    the order in which it is closed. *)

Module Re.
Import PyStr.

Inductive cls : Type :=
| Space    (* \s *)
| Digit    (* \d *)
| Dot.     (* .  (without DOTALL) *)

Definition in_cls (k : cls) (c : ascii) : bool :=
  match k with
  | Space => is_space c
  | Digit => is_digit c
  | Dot => negb (Ascii.eqb c newline)
  end.

Inductive regex : Type :=
| Eps
| Chr (c : ascii)
| Any (k : cls)
| Cat (r1 r2 : regex)
| Alt (r1 r2 : regex)
| Grp (r : regex)          (* ( r )    *)
| Plus (k : cls)           (* k+       *)
| LazyStar (k : cls)       (* k*?      *)
| Opt (r : regex)          (* (?: r )? *)
| Ahead (r : regex)        (* (?= r )  *)
| Eos.                     (* $        *)

Fixpoint lit (s : string) : regex :=
  match s with
  | EmptyString => Eps
  | String c s' => Cat (Chr c) (lit s')
  end.

Definition seq (l : list regex) : regex := fold_right Cat Eps l.

Fixpoint rep (n : nat) (r : regex) : regex :=
  match n with
  | O => Eps
  | S n' => Cat r (rep n' r)
  end.

(** A literal character under the flag IGNORECASE ([ic]). *)
Definition chr_eq (ic : bool) (c c' : ascii) : bool :=
  if ic then Ascii.eqb (lower_char c) (lower_char c') else Ascii.eqb c c'.

(** [$] holds at the end of the text and before a final newline. *)
Definition at_end (s : string) : bool :=
  match s with
  | EmptyString => true
  | String c EmptyString => Ascii.eqb c newline
  | String _ (String _ _) => false
  end.

(** What was read between the text [s] and its suffix [s1]. *)
Definition consumed (s s1 : string) : string :=
  substring 0 (String.length s - String.length s1) s.

Definition outcome : Type := option (string * list string).
Definition cont : Type := string -> list string -> outcome.

Fixpoint plus_greedy (k : cls) (s : string) (kont : string -> outcome)
  : outcome :=
  match s with
  | EmptyString => None
  | String c s' =>
      if in_cls k c then
        match plus_greedy k s' kont with
        | Some x => Some x
        | None => kont s'
        end
      else None
  end.

Fixpoint star_lazy (k : cls) (s : string) (kont : string -> outcome)
  : outcome :=
  match kont s with
  | Some x => Some x
  | None =>
      match s with
      | EmptyString => None
      | String c s' => if in_cls k c then star_lazy k s' kont else None
      end
  end.

Fixpoint run (ic : bool) (r : regex) (s : string) (caps : list string)
  (kont : cont) {struct r} : outcome :=
  match r with
  | Eps => kont s caps
  | Chr c =>
      match s with
      | String c' s' => if chr_eq ic c c' then kont s' caps else None
      | EmptyString => None
      end
  | Any k =>
      match s with
      | String c' s' => if in_cls k c' then kont s' caps else None
      | EmptyString => None
      end
  | Cat r1 r2 => run ic r1 s caps (fun s1 caps1 => run ic r2 s1 caps1 kont)
  | Alt r1 r2 =>
      match run ic r1 s caps kont with
      | Some x => Some x
      | None => run ic r2 s caps kont
      end
  | Grp r1 =>
      run ic r1 s caps (fun s1 caps1 => kont s1 (caps1 ++ [consumed s s1])%list)
  | Plus k => plus_greedy k s (fun s1 => kont s1 caps)
  | LazyStar k => star_lazy k s (fun s1 => kont s1 caps)
  | Opt r1 =>
      match run ic r1 s caps kont with
      | Some x => Some x
      | None => kont s caps
      end
  | Ahead r1 =>
      match run ic r1 s caps (fun _ caps1 => Some (s, caps1)) with
      | Some (_, caps1) => kont s caps1
      | None => None
      end
  | Eos => if at_end s then kont s caps else None
  end.

(** A match object: where it starts, [group(0)] and [groups()]. *)
Record rmatch : Type := {
  m_start : nat;
  m_text : string;
  m_groups : list string
}.

(** [m.group(n)] for [n >= 1]. *)
Definition group (n : nat) (m : rmatch) : string :=
  nth (n - 1) (m_groups m) EmptyString.

Definition match_here (ic : bool) (r : regex) (pos : nat) (s : string)
  : option rmatch :=
  match run ic r s [] (fun s1 caps => Some (s1, caps)) with
  | Some (s1, caps) =>
      Some {| m_start := pos; m_text := consumed s s1; m_groups := caps |}
  | None => None
  end.

Fixpoint search_at (ic : bool) (r : regex) (pos : nat) (s : string)
  : option rmatch :=
  match match_here ic r pos s with
  | Some m => Some m
  | None =>
      match s with
      | EmptyString => None
      | String _ s' => search_at ic r (S pos) s'
      end
  end.

(** [re.search(r, s)] and [re.search(r, s, re.IGNORECASE)] *)
Definition search (ic : bool) (r : regex) (s : string) : option rmatch :=
  search_at ic r 0 s.

(** [re.finditer(r, s)]: the matches from left to right, without overlap.
    [skip] counts the characters of the last match still to be passed
    over.  (After an empty match the scan moves one character on; no
    pattern given to [finditer] in the program matches the empty text.) *)
Fixpoint finditer_at (ic : bool) (r : regex) (skip pos : nat) (s : string)
  : list rmatch :=
  match skip with
  | S n =>
      match s with
      | EmptyString => []
      | String _ s' => finditer_at ic r n (S pos) s'
      end
  | O =>
      match match_here ic r pos s with
      | Some m =>
          m :: match s with
               | EmptyString => []
               | String _ s' =>
                   finditer_at ic r (String.length (m_text m) - 1) (S pos) s'
               end
      | None =>
          match s with
          | EmptyString => []
          | String _ s' => finditer_at ic r 0 (S pos) s'
          end
      end
  end.

Definition finditer (ic : bool) (r : regex) (s : string) : list rmatch :=
  finditer_at ic r 0 0 s.

End Re.

(* ------------------------------------------------------------------ *)
(** ** Exceptions *)

Inductive exn : Type :=
| ValueError (msg : string)
| KeyError (key : string)
| NameError (name : string).

Inductive result (A : Type) : Type :=
| Ok (a : A)
| Raise (e : exn).

Arguments Ok {A} a.
Arguments Raise {A} e.

Definition bind {A B : Type} (m : result A) (f : A -> result B) : result B :=
  match m with
  | Ok a => f a
  | Raise e => Raise e
  end.

Notation "x <- m ;; k" := (bind m (fun x => k))
  (at level 61, m at next level, right associativity).

(** Reading a name that no enclosing scope binds. *)
Definition unbound_name (name : string) : result string :=
  Raise (NameError name).

(* ------------------------------------------------------------------ *)
(** ** Dictionaries in insertion order *)

Section Dict.
Context {V : Type}.

Definition dict : Type := list (string * V).

(** [d.get(k)] *)
Fixpoint get (k : string) (d : dict) : option V :=
  match d with
  | [] => None
  | (k', v) :: d' => if String.eqb k k' then Some v else get k d'
  end.

(** [d[k]] *)
Definition getitem (k : string) (d : dict) : result V :=
  match get k d with
  | Some v => Ok v
  | None => Raise (KeyError k)
  end.

(** [for k, v in d.items(): if k in text: return v]: the value of the
    first key, in the order of [d], that occurs in [text]. *)
Fixpoint first_in (text : string) (d : dict) : option V :=
  match d with
  | [] => None
  | (k, v) :: d' =>
      if PyStr.contains k text then Some v else first_in text d'
  end.

(** [for k, v in d.items(): if k in text: acc.append(v)] *)
Fixpoint all_in (text : string) (d : dict) : list V :=
  match d with
  | [] => []
  | (k, v) :: d' =>
      if PyStr.contains k text then v :: all_in text d' else all_in text d'
  end.

End Dict.

Arguments dict V : clear implicits.

(* ------------------------------------------------------------------ *)
(** ** The generator object *)

Record table : Type := {
  columns : list string;
  table_alias : string;
  tdescription : string
}.

Record metric_info : Type := {
  field : string;
  agg : string;
  description : string
}.

Record QueryGenerator : Type := {
  openai_api_key : option string;
  schema : dict table;
  metrics : dict metric_info;
  aggregations : dict string;
  time_patterns : dict string;
  comparisons : dict string;
  sort_patterns : dict string;
  field_mappings : dict string
}.

(** [QueryGenerator.__init__]; [key] is [os.getenv('OPENAI_API_KEY')].
    (The prompt text [schema_definition] serves only the request to the
    external service and is left out.) *)
Definition __init__ (key : option string) : QueryGenerator := {|
  openai_api_key := key;
  schema := [
    ("sales", {| columns := ["id"; "date"; "product_id"; "customer_id";
                             "quantity"; "total_amount"];
                 table_alias := "s";
                 tdescription := "sales transactions" |});
    ("products", {| columns := ["id"; "name"; "category"; "price"; "stock"];
                    table_alias := "p";
                    tdescription := "product information" |});
    ("customers", {| columns := ["id"; "name"; "email"; "region"];
                     table_alias := "c";
                     tdescription := "customer information" |})];
  metrics := [
    ("sales", {| field := "s.total_amount"; agg := "SUM";
                 description := "total sales amount" |});
    ("revenue", {| field := "s.total_amount"; agg := "SUM";
                   description := "total revenue" |});
    ("quantity", {| field := "s.quantity"; agg := "SUM";
                    description := "total units sold" |});
    ("average_sale", {| field := "s.total_amount"; agg := "AVG";
                        description := "average sale amount" |});
    ("customer_count", {| field := "c.id"; agg := "COUNT DISTINCT";
                          description := "number of unique customers" |});
    ("order_count", {| field := "s.id"; agg := "COUNT";
                       description := "number of orders" |})];
  aggregations := [
    ("total", "SUM"); ("average", "AVG"); ("count", "COUNT");
    ("minimum", "MIN"); ("maximum", "MAX"); ("sum", "SUM");
    ("avg", "AVG"); ("min", "MIN"); ("max", "MAX")];
  time_patterns := [
    ("today", "date(s.date) = date('now')");
    ("yesterday", "date(s.date) = date('now', '-1 day')");
    ("this week", "strftime('%Y-%W', s.date) = strftime('%Y-%W', 'now')");
    ("last week",
     "strftime('%Y-%W', s.date) = strftime('%Y-%W', 'now', '-7 days')");
    ("this month", "strftime('%Y-%m', s.date) = strftime('%Y-%m', 'now')");
    ("last month",
     "strftime('%Y-%m', s.date) = strftime('%Y-%m', 'now', '-1 month')");
    ("this year", "strftime('%Y', s.date) = strftime('%Y', 'now')");
    ("last year",
     "strftime('%Y', s.date) = strftime('%Y', 'now', '-1 year')")];
  comparisons := [
    ("greater than", ">"); ("more than", ">"); ("higher than", ">");
    ("less than", "<"); ("lower than", "<"); ("equal to", "=");
    ("equals", "="); ("not equal to", "!="); ("at least", ">=");
    ("greater than or equal to", ">="); ("at most", "<=");
    ("less than or equal to", "<=")];
  sort_patterns := [
    ("ascending", "ASC"); ("descending", "DESC"); ("increasing", "ASC");
    ("decreasing", "DESC"); ("highest", "DESC"); ("lowest", "ASC");
    ("most", "DESC"); ("least", "ASC")];
  field_mappings := [
    ("sales", "s.total_amount"); ("revenue", "s.total_amount");
    ("amount", "s.total_amount"); ("quantity", "s.quantity");
    ("units", "s.quantity"); ("price", "p.price"); ("stock", "p.stock");
    ("region", "c.region"); ("customer", "c.name"); ("product", "p.name");
    ("category", "p.category"); ("date", "s.date")]
|}.

(* ------------------------------------------------------------------ *)
(** ** Intent extraction *)

Import PyStr.

Record dimension : Type := {
  dim_field : string;
  dim_join : option string
}.

(** [_get_alternative_term] *)
Definition alternatives : dict string := [
  ("profit", "revenue"); ("tax", "total sales"); ("discount", "sales");
  ("returns", "sales"); ("shipping", "sales"); ("cost", "price");
  ("country", "region"); ("city", "region"); ("state", "region");
  ("age", "customer"); ("gender", "customer")].

Definition _get_alternative_term (self : QueryGenerator)
  (invalid_term : string) : string :=
  match get invalid_term alternatives with
  | Some a => a
  | None => "sales"
  end.

(** [_extract_metric] *)
Definition _extract_metric (self : QueryGenerator) (query : string)
  : result metric_info :=
  match first_in query (metrics self) with
  | Some metric_info => Ok metric_info
  | None => getitem "sales" (metrics self)
  end.

(** [_extract_dimension] *)
Definition dimension_keywords : dict (string * option string) := [
  ("region", ("c.region", Some "customers c"));
  ("product", ("p.name", Some "products p"));
  ("category", ("p.category", Some "products p"));
  ("customer", ("c.name", Some "customers c"));
  ("date", ("s.date", None))].

Definition _extract_dimension (self : QueryGenerator) (query : string)
  : list dimension :=
  map (fun ft => {| dim_field := fst ft; dim_join := snd ft |})
      (all_in query dimension_keywords).

(** [_extract_aggregation] *)
Definition _extract_aggregation (self : QueryGenerator) (query : string)
  : string :=
  let query_lower := lower query in
  match first_in query_lower (aggregations self) with
  | Some agg_func => agg_func
  | None => "SUM"
  end.

(** [between\s+(\d{4}-\d{2}-\d{2})\s+and\s+(\d{4}-\d{2}-\d{2})] *)
Definition iso_date : Re.regex :=
  Re.Grp (Re.seq [Re.rep 4 (Re.Any Re.Digit); Re.Chr "-";
                  Re.rep 2 (Re.Any Re.Digit); Re.Chr "-";
                  Re.rep 2 (Re.Any Re.Digit)]).

Definition date_range_pattern : Re.regex :=
  Re.seq [Re.lit "between"; Re.Plus Re.Space; iso_date; Re.Plus Re.Space;
          Re.lit "and"; Re.Plus Re.Space; iso_date].

(** [_extract_time_condition] *)
Definition _extract_time_condition (self : QueryGenerator) (query : string)
  : string :=
  let query_lower := lower query in
  let conditions := all_in query_lower (time_patterns self) in
  let conditions :=
    match Re.search false date_range_pattern query_lower with
    | Some date_range_match =>
        let start_date := Re.group 1 date_range_match in
        let end_date := Re.group 2 date_range_match in
        (conditions ++ [("s.date BETWEEN '" ++ start_date ++ "' AND '"
                         ++ end_date ++ "'")%string])%list
    | None => conditions
    end in
  match conditions with
  | [] => EmptyString
  | _ :: _ => join " AND " conditions
  end.

(** [f"{comp_key}\s+(\d+(?:\.\d+)?)"]; the keys of [comparisons] are made
    of letters and spaces, which stand for themselves in a pattern. *)
Definition comparison_pattern (comp_key : string) : Re.regex :=
  Re.seq [Re.lit comp_key; Re.Plus Re.Space;
          Re.Grp (Re.Cat (Re.Plus Re.Digit)
                         (Re.Opt (Re.Cat (Re.Chr ".") (Re.Plus Re.Digit))))].

(** The field that a comparison is about, from the words of the question. *)
Definition comparison_field (query_lower : string) : string :=
  if (contains "quantity" query_lower || contains "units" query_lower)%bool
  then "s.quantity"
  else if contains "price" query_lower then "p.price"
  else if contains "stock" query_lower then "p.stock"
  else "s.total_amount".

(** [_extract_comparison] *)
Definition _extract_comparison (self : QueryGenerator) (query : string)
  : list string :=
  let query_lower := lower query in
  flat_map
    (fun kv : string * string =>
       let (comp_key, comp_op) := kv in
       map (fun m =>
              let value := Re.group 1 m in
              let field := comparison_field query_lower in
              field ++ " " ++ comp_op ++ " " ++ value)
           (Re.finditer false (comparison_pattern comp_key) query_lower))
    (comparisons self).

Definition join_customers : string := "JOIN customers c ON s.customer_id = c.id".
Definition join_products : string := "JOIN products p ON s.product_id = p.id".

(** [not group_by] *)
Definition falsy (group_by : option string) : bool :=
  match group_by with
  | None => true
  | Some g => negb (truthy g)
  end.

(** [_extract_grouping] *)
Definition _extract_grouping (self : QueryGenerator) (query : string)
  : option string * string :=
  let query_lower := lower query in
  let has w := contains w query_lower in
  let '(group_by, joins) :=
    if (has "by region" || has "per region")%bool
    then (Some "c.region", [join_customers])
    else if (has "by product" || has "per product" || has "by item")%bool
    then (Some "p.name", [join_products])
    else if (has "by category" || has "per category")%bool
    then (Some "p.category", [join_products])
    else if (has "by customer" || has "per customer")%bool
    then (Some "c.name", [join_customers])
    else if (has "by date" || has "per date")%bool
    then (Some "date(s.date)", [])
    else if (has "by month" || has "per month")%bool
    then (Some "strftime('%Y-%m', s.date)", [])
    else if (has "by year" || has "per year")%bool
    then (Some "strftime('%Y', s.date)", [])
    else (None, []) in
  let '(group_by, joins) :=
    if falsy group_by then
      if has "region"
      then (Some "c.region", (joins ++ [join_customers])%list)
      else if (has "product" || has "item")%bool
      then (Some "p.name", (joins ++ [join_products])%list)
      else if has "category"
      then (Some "p.category", (joins ++ [join_products])%list)
      else if has "customer"
      then (Some "c.name", (joins ++ [join_customers])%list)
      else (group_by, joins)
    else (group_by, joins) in
  (group_by, join " " joins).

(** [_extract_sorting] *)
Definition _extract_sorting (self : QueryGenerator) (query : string)
  : string * string :=
  let query_lower := lower query in
  let direction :=
    match first_in query_lower (sort_patterns self) with
    | Some sort_dir => sort_dir
    | None => "DESC"
    end in
  let sort_field :=
    if (contains "quantity" query_lower || contains "units" query_lower)%bool
    then "quantity"
    else if (contains "average" query_lower || contains "avg" query_lower)%bool
    then "average"
    else "total" in
  (sort_field, direction).

(** The six patterns of [_extract_limit], in the order of the list. *)
Definition word_then_number (w : string) : Re.regex :=
  Re.seq [Re.lit w; Re.Plus Re.Space; Re.Grp (Re.Plus Re.Digit)].

Definition number_then_word (w : string) : Re.regex :=
  Re.seq [Re.Grp (Re.Plus Re.Digit); Re.Plus Re.Space; Re.lit w].

Definition limit_patterns : list Re.regex := [
  word_then_number "top";       (* top\s+(\d+)   *)
  word_then_number "first";     (* first\s+(\d+) *)
  number_then_word "best";      (* (\d+)\s+best  *)
  number_then_word "most";      (* (\d+)\s+most  *)
  word_then_number "limit";     (* limit\s+(\d+) *)
  word_then_number "show"].     (* show\s+(\d+)  *)

(** [for pattern in patterns: match = re.search(...); if match: return ...] *)
Fixpoint first_match (patterns : list Re.regex) (text : string)
  : option Re.rmatch :=
  match patterns with
  | [] => None
  | pattern :: rest =>
      match Re.search false pattern text with
      | Some m => Some m
      | None => first_match rest text
      end
  end.

(** [_extract_limit] *)
Definition _extract_limit (self : QueryGenerator) (query : string) : string :=
  let query_lower := lower query in
  match first_match limit_patterns query_lower with
  | Some m => "LIMIT " ++ Re.group 1 m
  | None =>
      if existsb (fun word => contains word query_lower)
                 ["top"; "best"; "highest"; "lowest"]
      then "LIMIT 5"
      else EmptyString
  end.

(* ------------------------------------------------------------------ *)
(** ** Validation *)

Record components : Type := {
  c_metric : metric_info;
  c_dimension : list dimension;
  c_time_period : string;
  c_filters : list string;
  c_grouping : option string * string;
  c_sorting : string * string;
  c_limit : string
}.

Definition unavailable_metrics : list (string * string) := [
  ("profit", "We don't have profit data, but you can query sales or revenue");
  ("tax", "Tax information is not available, but you can query total sales");
  ("discount",
   "Discount data is not available, but you can query sales amounts");
  ("returns", "Return data is not available, but you can query sales");
  ("shipping", "Shipping data is not available");
  ("cost", "Cost data is not available, but you can query sales price")].

Definition unavailable_dimensions : list (string * string) := [
  ("country", "Country data is not available, but you can query by region");
  ("city", "City data is not available, but you can query by region");
  ("state", "State data is not available, but you can query by region");
  ("age", "Customer age data is not available");
  ("gender", "Customer gender data is not available")].

(** One pass of [for term, suggestion in ...: if term in query_lower: ...]
    over the two lists [invalid_terms] and [suggestions]. *)
Definition scan_unavailable (query_lower : string)
  (terms : list (string * string)) (found : list string * list string)
  : list string * list string :=
  fold_left
    (fun (acc : list string * list string) (ts : string * string) =>
       let (invalid_terms, suggestions) := acc in
       let (term, suggestion) := ts in
       if contains term query_lower
       then ((invalid_terms ++ [term])%list, (suggestions ++ [suggestion])%list)
       else (invalid_terms, suggestions))
    terms found.

(** The loop over [zip(invalid_terms, suggestions)] that rewrites the
    question. *)
Definition rewrite_question (self : QueryGenerator) (query_lower : string)
  (invalid_terms suggestions : list string) : string :=
  fold_left
    (fun (alternative_query : string) (ts : string * string) =>
       replace (fst ts) (_get_alternative_term self (fst ts)) alternative_query)
    (combine invalid_terms suggestions) query_lower.

(** [_validate_query]; the third component is [None] for the empty dict. *)
Definition _validate_query (self : QueryGenerator) (query : string)
  : result (bool * string * option components) :=
  let query_lower := lower query in
  let found := scan_unavailable query_lower unavailable_metrics ([], []) in
  let (invalid_terms, suggestions) :=
    scan_unavailable query_lower unavailable_dimensions found in
  match invalid_terms with
  | _ :: _ =>
      let alternative_query :=
        rewrite_question self query_lower invalid_terms suggestions in
      Ok (false,
          "Cannot process query with " ++ join ", " invalid_terms ++ ". "
          ++ join " " suggestions ++ ". Try: '" ++ alternative_query ++ "'",
          None)
  | [] =>
      metric <- _extract_metric self query_lower ;;
      Ok (true, EmptyString,
          Some {| c_metric := metric;
                  c_dimension := _extract_dimension self query_lower;
                  c_time_period := _extract_time_condition self query_lower;
                  c_filters := _extract_comparison self query_lower;
                  c_grouping := _extract_grouping self query_lower;
                  c_sorting := _extract_sorting self query_lower;
                  c_limit := _extract_limit self query_lower |})
  end.

(* ------------------------------------------------------------------ *)
(** ** SQL assembly *)

Definition spaces (n : nat) : string :=
  string_of_list_ascii (repeat " "%char n).

Definition nl : string := String newline EmptyString.

(** The f-string of lines 517-526 followed by [' '.join(sql_query.split())]. *)
Definition sql_text (select_clause agg_column joins where_clause : string)
  (group_by : option string) (sort_direction limit : string) : string :=
  let line (s : string) := nl ++ spaces 12 ++ s in
  let sql_query :=
    line (select_clause ++ ",")
    ++ line (agg_column ++ " as total")
    ++ line "FROM sales s"
    ++ line joins
    ++ line where_clause
    ++ line (if falsy group_by then EmptyString
             else match group_by with
                  | Some g => "GROUP BY " ++ g
                  | None => EmptyString
                  end)
    ++ line ("ORDER BY total " ++ sort_direction)
    ++ line limit
    ++ nl ++ spaces 8 in
  join " " (split sql_query).

(** The WHERE clause of lines 506-511. *)
Definition where_conditions_of (time_condition : string)
  (comparisons : list string) : list string :=
  ((if truthy time_condition then [time_condition] else []) ++ comparisons)%list.

Definition where_clause_of (where_conditions : list string) : string :=
  match where_conditions with
  | [] => EmptyString
  | _ :: _ => "WHERE " ++ join " AND " where_conditions
  end.

(** [_generate_sql_rule_based].  On line 515 the function reads [metric],
    which is neither a parameter nor assigned anywhere in the function, and
    which the module binds nowhere (it binds [re], [Dict], [Any], [List],
    [Tuple], [logging], [datetime], [timedelta], [openai], [os],
    [load_dotenv], [logger] and [QueryGenerator]); it is no builtin either. *)
Definition _generate_sql_rule_based (self : QueryGenerator)
  (natural_language_query : string) : result string :=
  v <- _validate_query self natural_language_query ;;
  let '(is_valid, suggestion, components) := v in
  if negb is_valid then Raise (ValueError suggestion)
  else
    let agg_func := _extract_aggregation self natural_language_query in
    let '(group_by, joins) := _extract_grouping self natural_language_query in
    let time_condition := _extract_time_condition self natural_language_query in
    let comparisons := _extract_comparison self natural_language_query in
    let '(sort_field, sort_direction) :=
      _extract_sorting self natural_language_query in
    let limit := _extract_limit self natural_language_query in
    let where_conditions := where_conditions_of time_condition comparisons in
    let where_clause := where_clause_of where_conditions in
    let select_clause :=
      if falsy group_by then "SELECT 'Total' as period"
      else match group_by with
           | Some g => "SELECT " ++ g
           | None => "SELECT 'Total' as period"
           end in
    metric <- unbound_name "metric" ;;
    let agg_column := agg_func ++ "(" ++ metric ++ ")" in
    Ok (sql_text select_clause agg_column joins where_clause group_by
                 sort_direction limit).

(* ------------------------------------------------------------------ *)
(** ** Explanation *)

(** [SELECT\s+(.*?)\s+FROM] *)
Definition select_pattern : Re.regex :=
  Re.seq [Re.lit "SELECT"; Re.Plus Re.Space; Re.Grp (Re.LazyStar Re.Dot);
          Re.Plus Re.Space; Re.lit "FROM"].

(** [GROUP BY\s+(.*?)(?=ORDER BY|LIMIT|$)] *)
Definition group_pattern : Re.regex :=
  Re.seq [Re.lit "GROUP BY"; Re.Plus Re.Space; Re.Grp (Re.LazyStar Re.Dot);
          Re.Ahead (Re.Alt (Re.lit "ORDER BY") (Re.Alt (Re.lit "LIMIT") Re.Eos))].

(** [WHERE\s+(.*?)(?=GROUP BY|ORDER BY|LIMIT|$)] *)
Definition where_pattern : Re.regex :=
  Re.seq [Re.lit "WHERE"; Re.Plus Re.Space; Re.Grp (Re.LazyStar Re.Dot);
          Re.Ahead (Re.Alt (Re.lit "GROUP BY")
                      (Re.Alt (Re.lit "ORDER BY")
                         (Re.Alt (Re.lit "LIMIT") Re.Eos)))].

(** [LIMIT\s+(\d+)] *)
Definition limit_pattern : Re.regex :=
  Re.seq [Re.lit "LIMIT"; Re.Plus Re.Space; Re.Grp (Re.Plus Re.Digit)].

Definition select_part (sql_query : string) : list string :=
  match Re.search true select_pattern sql_query with
  | Some select_match =>
      let columns := strip (Re.group 1 select_match) in
      if contains "SUM" columns then ["This query calculates the total"]
      else if contains "AVG" columns then ["This query calculates the average"]
      else if contains "COUNT" columns then ["This query counts"]
      else if contains "MIN" columns then ["This query finds the minimum"]
      else if contains "MAX" columns then ["This query finds the maximum"]
      else []
  | None => []
  end.

Definition group_part (sql_query : string) : list string :=
  if contains "GROUP BY" sql_query then
    match Re.search true group_pattern sql_query with
    | Some group_match =>
        let group_field := strip (Re.group 1 group_match) in
        ["grouped by " ++ last_segment "." group_field]
    | None => []
    end
  else [].

Definition where_part (sql_query : string) : list string :=
  if contains "WHERE" sql_query then
    match Re.search true where_pattern sql_query with
    | Some where_match =>
        let conditions := strip (Re.group 1 where_match) in
        ["filtered by " ++ conditions]
    | None => []
    end
  else [].

Definition order_part (sql_query : string) : list string :=
  if contains "ORDER BY" sql_query then
    if contains "DESC" sql_query then ["sorted in descending order"]
    else ["sorted in ascending order"]
  else [].

Definition limit_part (sql_query : string) : list string :=
  if contains "LIMIT" sql_query then
    match Re.search true limit_pattern sql_query with
    | Some limit_match =>
        ["showing top " ++ Re.group 1 limit_match ++ " results"]
    | None => []
    end
  else [].

(** The list [explanation_parts] at line 583. *)
Definition explanation_parts (sql_query : string) : list string :=
  (select_part sql_query ++ group_part sql_query ++ where_part sql_query
   ++ order_part sql_query ++ limit_part sql_query)%list.

(** The body of the [try] of [explain_query]: no operation in it raises
    on a [str]. *)
Definition explain_body (sql_query : string) : result string :=
  Ok (join " " (explanation_parts sql_query) ++ ".").

(** [explain_query] *)
Definition explain_query (self : QueryGenerator) (sql_query : string)
  : string :=
  match explain_body sql_query with
  | Ok explanation => explanation
  | Raise _ => "This query retrieves data from the database."
  end.

(* ------------------------------------------------------------------ *)
(** ** Exceptions of the other paths *)

(** The exceptions met outside the rule-based generator.  [Foreign] is an
    exception of the class Exception raised by a library the program calls
    (the database layer, the text-generation client); only its [str()] is
    kept.  [Interrupt] is an exception outside the class Exception
    (KeyboardInterrupt, SystemExit, asyncio.CancelledError). *)
Inductive pyexn : Type :=
| Builtin (e : exn)
| TypeError (msg : string)
| Exception (msg : string)
| Foreign (text : string)
| Interrupt (text : string).

Inductive xresult (A : Type) : Type :=
| Done (a : A)
| Fail (e : pyexn).

Arguments Done {A} a.
Arguments Fail {A} e.

(** [str(e)] *)
Definition str_exn (e : pyexn) : string :=
  match e with
  | Builtin (ValueError msg) => msg
  | Builtin (KeyError key) => "'" ++ key ++ "'"
  | Builtin (NameError name) => "name '" ++ name ++ "' is not defined"
  | TypeError msg => msg
  | Exception msg => msg
  | Foreign text => text
  | Interrupt text => text
  end.

(** [isinstance(e, Exception)]: what a clause [except Exception] catches. *)
Definition is_exception (e : pyexn) : bool :=
  match e with
  | Interrupt _ => false
  | _ => true
  end.

(* ------------------------------------------------------------------ *)
(** ** The rest of [re]: word boundaries, stars, DOTALL

    The patterns of the path through the external service use [\b], the
    greedy and the lazy star and the flag DOTALL.  The matcher is the one
    of [Re], with the character before the position carried along for
    [\b]. *)

Module ReX.
Import PyStr.

(** The class [\w] of [re] on [str], on the code points below 256. *)
Definition is_word (c : ascii) : bool :=
  (between 48 57 c || between 65 90 c || N.eqb (code c) 95
   || between 97 122 c || N.eqb (code c) 170 || between 178 179 c
   || N.eqb (code c) 181 || between 185 186 c || between 188 190 c
   || between 192 214 c || between 216 246 c || between 248 255 c)%bool.

Inductive cls : Type :=
| Space    (* \s *)
| Dot.     (* .  *)

Definition in_cls (dotall : bool) (k : cls) (c : ascii) : bool :=
  match k with
  | Space => is_space c
  | Dot => (dotall || negb (Ascii.eqb c newline))%bool
  end.

Inductive regex : Type :=
| Eps
| Chr (c : ascii)
| Cat (r1 r2 : regex)
| Alt (r1 r2 : regex)
| Grp (r : regex)                   (* ( r )   *)
| Star (greedy : bool) (k : cls)    (* k*  and  k*?  *)
| Bound                             (* \b      *)
| Ahead (r : regex)                 (* (?= r ) *)
| Eos.                              (* $       *)

Fixpoint lit (s : string) : regex :=
  match s with
  | EmptyString => Eps
  | String c s' => Cat (Chr c) (lit s')
  end.

Definition seq (l : list regex) : regex := fold_right Cat Eps l.

(** [\b]: exactly one of the characters around the position is a word
    character; beyond either end of the text there is none. *)
Definition at_boundary (prev : option ascii) (s : string) : bool :=
  xorb (match prev with Some c => is_word c | None => false end)
       (match s with String c _ => is_word c | EmptyString => false end).

Definition cont : Type := option ascii -> string -> list string -> Re.outcome.

Fixpoint star_greedy (p : ascii -> bool) (prev : option ascii) (s : string)
  (kont : option ascii -> string -> Re.outcome) : Re.outcome :=
  match s with
  | EmptyString => kont prev s
  | String c s' =>
      if p c then
        match star_greedy p (Some c) s' kont with
        | Some x => Some x
        | None => kont prev s
        end
      else kont prev s
  end.

Fixpoint star_lazy (p : ascii -> bool) (prev : option ascii) (s : string)
  (kont : option ascii -> string -> Re.outcome) : Re.outcome :=
  match kont prev s with
  | Some x => Some x
  | None =>
      match s with
      | EmptyString => None
      | String c s' => if p c then star_lazy p (Some c) s' kont else None
      end
  end.

Fixpoint run (ic dotall : bool) (r : regex) (prev : option ascii)
  (s : string) (caps : list string) (kont : cont) {struct r} : Re.outcome :=
  match r with
  | Eps => kont prev s caps
  | Chr c =>
      match s with
      | String c' s' =>
          if Re.chr_eq ic c c' then kont (Some c') s' caps else None
      | EmptyString => None
      end
  | Cat r1 r2 =>
      run ic dotall r1 prev s caps
        (fun prev1 s1 caps1 => run ic dotall r2 prev1 s1 caps1 kont)
  | Alt r1 r2 =>
      match run ic dotall r1 prev s caps kont with
      | Some x => Some x
      | None => run ic dotall r2 prev s caps kont
      end
  | Grp r1 =>
      run ic dotall r1 prev s caps
        (fun prev1 s1 caps1 =>
           kont prev1 s1 (caps1 ++ [Re.consumed s s1])%list)
  | Star true k =>
      star_greedy (in_cls dotall k) prev s (fun prev1 s1 => kont prev1 s1 caps)
  | Star false k =>
      star_lazy (in_cls dotall k) prev s (fun prev1 s1 => kont prev1 s1 caps)
  | Bound => if at_boundary prev s then kont prev s caps else None
  | Ahead r1 =>
      match run ic dotall r1 prev s caps (fun _ _ caps1 => Some (s, caps1)) with
      | Some (_, caps1) => kont prev s caps1
      | None => None
      end
  | Eos => if Re.at_end s then kont prev s caps else None
  end.

Definition match_here (ic dotall : bool) (r : regex) (pos : nat)
  (prev : option ascii) (s : string) : option Re.rmatch :=
  match run ic dotall r prev s [] (fun _ s1 caps => Some (s1, caps)) with
  | Some (s1, caps) =>
      Some {| Re.m_start := pos; Re.m_text := Re.consumed s s1;
              Re.m_groups := caps |}
  | None => None
  end.

Fixpoint search_at (ic dotall : bool) (r : regex) (pos : nat)
  (prev : option ascii) (s : string) : option Re.rmatch :=
  match match_here ic dotall r pos prev s with
  | Some m => Some m
  | None =>
      match s with
      | EmptyString => None
      | String c s' => search_at ic dotall r (S pos) (Some c) s'
      end
  end.

(** [re.search(r, s, flags)] for the flags IGNORECASE and DOTALL. *)
Definition search (ic dotall : bool) (r : regex) (s : string)
  : option Re.rmatch :=
  search_at ic dotall r 0 None s.

End ReX.

(* ------------------------------------------------------------------ *)
(** ** The path through the external service

    The request to the service (model, messages, temperature, token limit)
    is not modelled: a call of [generate_sql_with_ai] is given what the
    awaited request came to, [completion]: the content of the first choice
    of the response ([None] when the response carries no content), or the
    exception raised on the way to it. *)

(** [\bFROM\b.*\bsales\b], [\bJOIN\b.*\b(products|customers)\b] and
    [\bWHERE\b|\bGROUP BY\b|\bORDER BY\b], with their messages. *)
Definition required_patterns : list (ReX.regex * string) := [
  (ReX.seq [ReX.Bound; ReX.lit "FROM"; ReX.Bound; ReX.Star true ReX.Dot;
            ReX.Bound; ReX.lit "sales"; ReX.Bound],
   "Query must use the sales table");
  (ReX.seq [ReX.Bound; ReX.lit "JOIN"; ReX.Bound; ReX.Star true ReX.Dot;
            ReX.Bound;
            ReX.Grp (ReX.Alt (ReX.lit "products") (ReX.lit "customers"));
            ReX.Bound],
   "Query must include proper table joins");
  (ReX.Alt (ReX.seq [ReX.Bound; ReX.lit "WHERE"; ReX.Bound])
     (ReX.Alt (ReX.seq [ReX.Bound; ReX.lit "GROUP BY"; ReX.Bound])
        (ReX.seq [ReX.Bound; ReX.lit "ORDER BY"; ReX.Bound])),
   "Query must include appropriate clauses")].

Fixpoint check_patterns (patterns : list (ReX.regex * string))
  (sql_query : string) : result unit :=
  match patterns with
  | [] => Ok tt
  | (pattern, error_message) :: rest =>
      match ReX.search true false pattern sql_query with
      | None => Raise (ValueError ("Invalid SQL generated: " ++ error_message))
      | Some _ => check_patterns rest sql_query
      end
  end.

(** [_validate_generated_sql] *)
Definition _validate_generated_sql (self : QueryGenerator)
  (sql_query : string) : result unit :=
  check_patterns required_patterns sql_query.

(** [SQL:\s*(.*?)(?=Explanation:|$)] *)
Definition sql_pattern : ReX.regex :=
  ReX.seq [ReX.lit "SQL:"; ReX.Star true ReX.Space;
           ReX.Grp (ReX.Star false ReX.Dot);
           ReX.Ahead (ReX.Alt (ReX.lit "Explanation:") ReX.Eos)].

(** [Explanation:\s*(.*?)$] *)
Definition explanation_pattern : ReX.regex :=
  ReX.seq [ReX.lit "Explanation:"; ReX.Star true ReX.Space;
           ReX.Grp (ReX.Star false ReX.Dot); ReX.Eos].

(** [m.group(1).strip() if m else ""] for a search with DOTALL. *)
Definition stripped_group (r : ReX.regex) (content : string) : string :=
  match ReX.search false true r content with
  | Some m => strip (Re.group 1 m)
  | None => EmptyString
  end.

(** The body of the [try] of [generate_sql_with_ai]. *)
Definition ai_body (self : QueryGenerator)
  (completion : xresult (option string)) : xresult (string * string) :=
  if falsy (openai_api_key self)
  then Fail (Builtin (ValueError
         "OpenAI API key not configured. Falling back to rule-based processing."))
  else
    match completion with
    | Fail e => Fail e
    | Done None => Fail (TypeError "expected string or bytes-like object")
    | Done (Some content) =>
        let sql_query := stripped_group sql_pattern content in
        let explanation := stripped_group explanation_pattern content in
        match _validate_generated_sql self sql_query with
        | Raise e => Fail (Builtin e)
        | Ok _ => Done (sql_query, explanation)
        end
    end.

(** [generate_sql_with_ai]: the pair [(sql_query, explanation)], or
    [(None, None)] when an Exception was raised; an exception outside
    that class passes through. *)
Definition generate_sql_with_ai (self : QueryGenerator)
  (completion : xresult (option string)) (natural_language_query : string)
  : xresult (option string * option string) :=
  match ai_body self completion with
  | Done (sql_query, explanation) => Done (Some sql_query, Some explanation)
  | Fail e => if is_exception e then Done (None, None) else Fail e
  end.

(** [generate_sql] *)
Definition generate_sql (self : QueryGenerator)
  (completion : xresult (option string)) (natural_language_query : string)
  : xresult string :=
  let body : xresult string :=
    match generate_sql_with_ai self completion natural_language_query with
    | Fail e => Fail e
    | Done (sql_query, explanation) =>
        match sql_query with
        | Some sql =>
            if truthy sql then Done sql
            else match _generate_sql_rule_based self natural_language_query with
                 | Ok sql => Done sql
                 | Raise e => Fail (Builtin e)
                 end
        | None =>
            match _generate_sql_rule_based self natural_language_query with
            | Ok sql => Done sql
            | Raise e => Fail (Builtin e)
            end
        end
    end in
  match body with
  | Done sql => Done sql
  | Fail e =>
      if is_exception e
      then Fail (Exception ("Error generating SQL query: " ++ str_exn e))
      else Fail e
  end.

(* ------------------------------------------------------------------ *)
(** ** Sample data and the seeding of the database
    ([app/models/sample_data.py], [app/init_db.py], [init_database.py])

    The three lists of [sample_data.py] are module-level lists of dicts.
    [init_db] overwrites the entry 'date' of every dict of [sample_sales],
    so that list is a store that a run reads and returns; the two other
    lists are only read.  The database layer ([app/models/database.py]) is
    not part of the sources: what [create_all] and [commit] raise, and
    what [datetime.strptime] makes of a text, are parameters of a run, and
    a run is observed through the calls it makes on the session and what
    it prints.  An object made from a dict [d] by keyword arguments is the
    table name with the items of [d] at the time of the call (the keys of the three lists are columns
    of their classes and no statement changes a key). *)

Module Seed.

Inductive pyval : Type :=
| VStr (s : string)
| VInt (n : Z)
| VFloat (literal : string)      (* the literal as written; never computed on *)
| VDate (year month day : Z).    (* a [datetime.date] *)

Definition type_name (v : pyval) : string :=
  match v with
  | VStr _ => "str"
  | VInt _ => "int"
  | VFloat _ => "float"
  | VDate _ _ _ => "datetime.date"
  end.

Definition sample_products : list (dict pyval) := [
  [("name", VStr "Laptop"); ("category", VStr "Electronics");
   ("price", VFloat "999.99"); ("stock", VInt 50)];
  [("name", VStr "Smartphone"); ("category", VStr "Electronics");
   ("price", VFloat "699.99"); ("stock", VInt 100)];
  [("name", VStr "Headphones"); ("category", VStr "Accessories");
   ("price", VFloat "99.99"); ("stock", VInt 200)];
  [("name", VStr "Tablet"); ("category", VStr "Electronics");
   ("price", VFloat "499.99"); ("stock", VInt 75)];
  [("name", VStr "Smartwatch"); ("category", VStr "Electronics");
   ("price", VFloat "299.99"); ("stock", VInt 150)]].

Definition sample_customers : list (dict pyval) := [
  [("name", VStr "John Doe"); ("email", VStr "john@example.com");
   ("region", VStr "North")];
  [("name", VStr "Jane Smith"); ("email", VStr "jane@example.com");
   ("region", VStr "South")];
  [("name", VStr "Bob Johnson"); ("email", VStr "bob@example.com");
   ("region", VStr "East")];
  [("name", VStr "Alice Brown"); ("email", VStr "alice@example.com");
   ("region", VStr "West")]].

(** [sample_sales] as the module defines it, before any run. *)
Definition sample_sales : list (dict pyval) := [
  [("date", VStr "2024-01-01"); ("product_id", VInt 1);
   ("customer_id", VInt 1); ("quantity", VInt 2);
   ("total_amount", VFloat "1999.98")];
  [("date", VStr "2024-01-02"); ("product_id", VInt 2);
   ("customer_id", VInt 2); ("quantity", VInt 1);
   ("total_amount", VFloat "699.99")];
  [("date", VStr "2024-01-03"); ("product_id", VInt 3);
   ("customer_id", VInt 3); ("quantity", VInt 3);
   ("total_amount", VFloat "299.97")];
  [("date", VStr "2024-01-04"); ("product_id", VInt 4);
   ("customer_id", VInt 4); ("quantity", VInt 1);
   ("total_amount", VFloat "499.99")];
  [("date", VStr "2024-01-05"); ("product_id", VInt 5);
   ("customer_id", VInt 1); ("quantity", VInt 2);
   ("total_amount", VFloat "599.98")]].

(** [d[k] = v] *)
Fixpoint setitem {V : Type} (k : string) (v : V) (d : dict V) : dict V :=
  match d with
  | [] => [(k, v)]
  | (k', v') :: d' =>
      if String.eqb k k' then (k, v) :: d' else (k', v') :: setitem k v d'
  end.

(** An object of a mapped class. *)
Record row : Type := {
  tablename : string;
  attrs : dict pyval
}.

Inductive event : Type :=
| Add (r : row)          (* db.add(r) *)
| Commit                 (* db.commit() returned *)
| Rollback               (* db.rollback() *)
| Close                  (* db.close() *)
| Print (s : string).

(** What the collaborators of one run do. *)
Record env : Type := {
  create_all : option pyexn;                    (* what create_all raises *)
  strptime : string -> xresult (Z * Z * Z);     (* strptime(s, '%Y-%m-%d').date() *)
  commit : list row -> option pyexn             (* what commit raises *)
}.

(** [datetime.strptime(v, '%Y-%m-%d').date()] on a value of any type. *)
Definition to_date (e : env) (v : pyval) : xresult pyval :=
  match v with
  | VStr s =>
      match strptime e s with
      | Done (y, m, d) => Done (VDate y m d)
      | Fail x => Fail x
      end
  | _ => Fail (TypeError ("strptime() argument 1 must be str, not "
                          ++ type_name v))
  end.

(** [for d in l: db.add(...)], the object being made from the items of [d] *)
Definition add_all (table : string) (l : list (dict pyval)) : list row :=
  map (fun d => {| tablename := table; attrs := d |}) l.

(** The loop over [sample_sales]: the store after the loop, the objects
    added, and the exception that stopped it. *)
Fixpoint add_sales (e : env) (sales : list (dict pyval))
  : list (dict pyval) * list row * option pyexn :=
  match sales with
  | [] => ([], [], None)
  | sale_data :: rest =>
      match get "date" sale_data with
      | None => (sales, [], Some (Builtin (KeyError "date")))
      | Some v =>
          match to_date e v with
          | Fail x => (sales, [], Some x)
          | Done date =>
              let sale_data := setitem "date" date sale_data in
              let sale := {| tablename := "sales"; attrs := sale_data |} in
              let '(rest, added, x) := add_sales e rest in
              (sale_data :: rest, sale :: added, x)
          end
      end
  end.

(** The outcome of a run: the store [sample_sales] after it, what was
    observed, and the exception that left [init_db]. *)
Record run : Type := {
  store : list (dict pyval);
  trace : list event;
  raised : option pyexn
}.

Definition say (progress : bool) (s : string) : list event :=
  if progress then [Print s] else [].

(** [init_db]; [progress] is true for [init_database.py], which prints the
    steps, and false for [app/init_db.py].  The clause [except Exception]
    prints and rolls back; an exception outside that class leaves
    [init_db] after the [finally] clause has closed the session. *)
Definition run_init_db (progress : bool) (e : env)
  (sales : list (dict pyval)) : run :=
  let start := say progress "Creating database tables..." in
  match create_all e with
  | Some x => {| store := sales; trace := start; raised := Some x |}
  | None =>
      let products := add_all "products" sample_products in
      let customers := add_all "customers" sample_customers in
      let '(sales, added, x) := add_sales e sales in
      let session := (products ++ customers ++ added)%list in
      let x := match x with
               | Some x => Some x
               | None => commit e session
               end in
      {| store := sales;
         trace :=
           (start
            ++ say progress "Adding sample products..." ++ map Add products
            ++ say progress "Adding sample customers..." ++ map Add customers
            ++ say progress "Adding sample sales..." ++ map Add added
            ++ match x with
               | None => [Commit; Print "Database initialized successfully!"]
               | Some x =>
                   if is_exception x
                   then [Print ("Error initializing database: " ++ str_exn x);
                         Rollback]
                   else []
               end
            ++ [Close])%list;
         raised := match x with
                   | None => None
                   | Some x => if is_exception x then None else Some x
                   end |}
  end.

End Seed.

(** [init_database.py]: with the four lines of progress *)
Module InitDatabase.
Definition init_db : Seed.env -> list (dict Seed.pyval) -> Seed.run :=
  Seed.run_init_db true.
End InitDatabase.

(** [app/init_db.py]: without them *)
Module AppInitDb.
Definition init_db : Seed.env -> list (dict Seed.pyval) -> Seed.run :=
  Seed.run_init_db false.
End AppInitDb.

(* ------------------------------------------------------------------ *)
(** ** The methods on a store

    [routers/queries.py] makes one [QueryGenerator] when it is loaded, and
    every request calls the methods of that object: what a call leaves
    behind is what the next call finds.  A method can reach the object
    behind [self] and the logger of the module.  Here a method takes the
    store (the attributes of the object, and the records handed to the
    logger so far) and returns it with its outcome, and the statements of
    [_validate_query], [_generate_sql_rule_based] and [explain_query] are
    followed one by one, each call of a method and of the logger being a
    step on the store.  An extractor contains no assignment to [self] and
    no call of the logger: its step reads the object as it is at the time
    of the call and computes the function written above. *)

Module Stateful.

Inductive level : Type := INFO | WARNING | ERROR.

Record store : Type := {
  object : QueryGenerator;            (* the attributes of [self] *)
  records : list (level * string)     (* the calls of the logger, oldest first *)
}.

Definition St (A : Type) : Type := store -> result A * store.

Definition ret {A : Type} (a : A) : St A := fun st => (Ok a, st).

Definition raise {A : Type} (e : exn) : St A := fun st => (Raise e, st).

(** An expression that may raise and touches nothing. *)
Definition lift {A : Type} (r : result A) : St A := fun st => (r, st).

Definition bind_st {A B : Type} (m : St A) (k : A -> St B) : St B :=
  fun st =>
    match m st with
    | (Ok a, st') => k a st'
    | (Raise e, st') => (Raise e, st')
    end.

Notation "x <~ m ;; k" := (bind_st m (fun x => k))
  (at level 61, m at next level, right associativity).

(** [self], as it is now *)
Definition this : St QueryGenerator := fun st => (Ok (object st), st).

(** [logger.info(msg)], [logger.warning(msg)], [logger.error(msg)] *)
Definition logger (l : level) (msg : string) : St unit :=
  fun st =>
    (Ok tt,
     {| object := object st; records := (records st ++ [(l, msg)])%list |}).

Definition _get_alternative_term (invalid_term : string) : St string :=
  self <~ this ;; ret (_get_alternative_term self invalid_term).

Definition _extract_metric (query : string) : St metric_info :=
  self <~ this ;; lift (_extract_metric self query).

Definition _extract_dimension (query : string) : St (list dimension) :=
  self <~ this ;; ret (_extract_dimension self query).

Definition _extract_aggregation (query : string) : St string :=
  self <~ this ;; ret (_extract_aggregation self query).

Definition _extract_time_condition (query : string) : St string :=
  self <~ this ;; ret (_extract_time_condition self query).

Definition _extract_comparison (query : string) : St (list string) :=
  self <~ this ;; ret (_extract_comparison self query).

Definition _extract_grouping (query : string) : St (option string * string) :=
  self <~ this ;; ret (_extract_grouping self query).

Definition _extract_sorting (query : string) : St (string * string) :=
  self <~ this ;; ret (_extract_sorting self query).

Definition _extract_limit (query : string) : St string :=
  self <~ this ;; ret (_extract_limit self query).

(** The loop over [zip(invalid_terms, suggestions)], a call of
    [_get_alternative_term] in every turn. *)
Fixpoint rewrite_question (alternative_query : string)
  (pairs : list (string * string)) : St string :=
  match pairs with
  | [] => ret alternative_query
  | (term, suggestion) :: pairs' =>
      alternative <~ _get_alternative_term term ;;
      rewrite_question (replace term alternative alternative_query) pairs'
  end.

(** [_validate_query]: the seven extractors are called in the order of
    the dict display. *)
Definition _validate_query (query : string)
  : St (bool * string * option components) :=
  let query_lower := lower query in
  let found := scan_unavailable query_lower unavailable_metrics ([], []) in
  let (invalid_terms, suggestions) :=
    scan_unavailable query_lower unavailable_dimensions found in
  match invalid_terms with
  | _ :: _ =>
      alternative_query <~
        rewrite_question query_lower (combine invalid_terms suggestions) ;;
      ret (false,
           "Cannot process query with " ++ join ", " invalid_terms ++ ". "
           ++ join " " suggestions ++ ". Try: '" ++ alternative_query ++ "'",
           None)
  | [] =>
      metric <~ _extract_metric query_lower ;;
      dimension <~ _extract_dimension query_lower ;;
      time_period <~ _extract_time_condition query_lower ;;
      filters <~ _extract_comparison query_lower ;;
      grouping <~ _extract_grouping query_lower ;;
      sorting <~ _extract_sorting query_lower ;;
      limit <~ _extract_limit query_lower ;;
      ret (true, EmptyString,
           Some {| c_metric := metric;
                   c_dimension := dimension;
                   c_time_period := time_period;
                   c_filters := filters;
                   c_grouping := grouping;
                   c_sorting := sorting;
                   c_limit := limit |})
  end.

(** [_generate_sql_rule_based] *)
Definition _generate_sql_rule_based (natural_language_query : string)
  : St string :=
  v <~ _validate_query natural_language_query ;;
  let '(is_valid, suggestion, components) := v in
  if negb is_valid then
    _ <~ logger WARNING ("Invalid query detected: " ++ suggestion) ;;
    raise (ValueError suggestion)
  else
    agg_func <~ _extract_aggregation natural_language_query ;;
    grouping <~ _extract_grouping natural_language_query ;;
    let '(group_by, joins) := grouping in
    time_condition <~ _extract_time_condition natural_language_query ;;
    comparisons <~ _extract_comparison natural_language_query ;;
    sorting <~ _extract_sorting natural_language_query ;;
    let '(sort_field, sort_direction) := sorting in
    limit <~ _extract_limit natural_language_query ;;
    let where_conditions := where_conditions_of time_condition comparisons in
    let where_clause := where_clause_of where_conditions in
    let select_clause :=
      if falsy group_by then "SELECT 'Total' as period"
      else match group_by with
           | Some g => "SELECT " ++ g
           | None => "SELECT 'Total' as period"
           end in
    metric <~ lift (unbound_name "metric") ;;
    let agg_column := agg_func ++ "(" ++ metric ++ ")" in
    let sql_query :=
      sql_text select_clause agg_column joins where_clause group_by
               sort_direction limit in
    _ <~ logger INFO ("Rule-based generated SQL: " ++ sql_query) ;;
    ret sql_query.

(** [explain_query] *)
Definition explain_query (sql_query : string) : St string :=
  _ <~ logger INFO ("Generating explanation for SQL query: " ++ sql_query) ;;
  match explain_body sql_query with
  | Ok explanation =>
      _ <~ logger INFO ("Generated explanation: " ++ explanation) ;;
      ret explanation
  | Raise e =>
      _ <~ logger ERROR ("Error generating query explanation: "
                         ++ str_exn (Builtin e)) ;;
      ret "This query retrieves data from the database."
  end.

(** The rule-based pipeline for a question: the SQL text of
    [_generate_sql_rule_based], and then the explanation of that text. *)
Definition pipeline (question : string) : St (string * string) :=
  sql_query <~ _generate_sql_rule_based question ;;
  explanation <~ explain_query sql_query ;;
  ret (sql_query, explanation).

End Stateful.

(* ------------------------------------------------------------------ *)
(** ** What a pattern says *)

Fixpoint all_chars (p : ascii -> bool) (s : string) : bool :=
  match s with
  | EmptyString => true
  | String c s' => (p c && all_chars p s')%bool
  end.

(** [matches ic r a rest g]: the pattern [r] can read the text [a] when
    [rest] follows it, closing the groups [g]. *)
Inductive matches (ic : bool) : Re.regex -> string -> string -> list string
                               -> Prop :=
| M_Eps rest : matches ic Re.Eps EmptyString rest []
| M_Chr c c' rest :
    Re.chr_eq ic c c' = true ->
    matches ic (Re.Chr c) (String c' EmptyString) rest []
| M_Any k c rest :
    Re.in_cls k c = true ->
    matches ic (Re.Any k) (String c EmptyString) rest []
| M_Cat r1 r2 a b rest g1 g2 :
    matches ic r1 a (b ++ rest) g1 ->
    matches ic r2 b rest g2 ->
    matches ic (Re.Cat r1 r2) (a ++ b) rest (g1 ++ g2)%list
| M_Alt_l r1 r2 a rest g :
    matches ic r1 a rest g -> matches ic (Re.Alt r1 r2) a rest g
| M_Alt_r r1 r2 a rest g :
    matches ic r2 a rest g -> matches ic (Re.Alt r1 r2) a rest g
| M_Grp r a rest g :
    matches ic r a rest g -> matches ic (Re.Grp r) a rest (g ++ [a])%list
| M_Plus k a rest :
    a <> EmptyString -> all_chars (Re.in_cls k) a = true ->
    matches ic (Re.Plus k) a rest []
| M_LazyStar k a rest :
    all_chars (Re.in_cls k) a = true ->
    matches ic (Re.LazyStar k) a rest []
| M_Opt_some r a rest g :
    matches ic r a rest g -> matches ic (Re.Opt r) a rest g
| M_Opt_none r rest : matches ic (Re.Opt r) EmptyString rest []
| M_Ahead r b rest g :
    matches ic r b rest g ->
    matches ic (Re.Ahead r) EmptyString (b ++ rest) g
| M_Eos rest :
    Re.at_end rest = true -> matches ic Re.Eos EmptyString rest [].

(** A number, and a run of white space, as the patterns read them. *)
Definition is_number (n : string) : Prop :=
  n <> EmptyString /\ all_chars is_digit n = true.

Definition is_blank (ws : string) : Prop :=
  ws <> EmptyString /\ all_chars is_space ws = true.

(** A date written YYYY-MM-DD. *)
Definition is_iso_date (d : string) : bool :=
  match list_ascii_of_string d with
  | [y1; y2; y3; y4; h1; m1; m2; h2; d1; d2] =>
      (forallb is_digit [y1; y2; y3; y4; m1; m2; d1; d2]
       && Ascii.eqb h1 "-" && Ascii.eqb h2 "-")%bool
  | _ => false
  end.

(** What a pattern of [ReX] can read, whatever stands around it:
    [xmatches ic dotall r a g] when [r] can read the text [a], closing the
    groups [g].  ([\b], [$] and a look-ahead read nothing.) *)
Inductive xmatches (ic dotall : bool) : ReX.regex -> string -> list string
                                       -> Prop :=
| X_Eps : xmatches ic dotall ReX.Eps EmptyString []
| X_Chr c c' :
    Re.chr_eq ic c c' = true ->
    xmatches ic dotall (ReX.Chr c) (String c' EmptyString) []
| X_Cat r1 r2 a b g1 g2 :
    xmatches ic dotall r1 a g1 ->
    xmatches ic dotall r2 b g2 ->
    xmatches ic dotall (ReX.Cat r1 r2) (a ++ b) (g1 ++ g2)%list
| X_Alt_l r1 r2 a g :
    xmatches ic dotall r1 a g -> xmatches ic dotall (ReX.Alt r1 r2) a g
| X_Alt_r r1 r2 a g :
    xmatches ic dotall r2 a g -> xmatches ic dotall (ReX.Alt r1 r2) a g
| X_Grp r a g :
    xmatches ic dotall r a g ->
    xmatches ic dotall (ReX.Grp r) a (g ++ [a])%list
| X_Star greedy k a :
    all_chars (ReX.in_cls dotall k) a = true ->
    xmatches ic dotall (ReX.Star greedy k) a []
| X_Bound : xmatches ic dotall ReX.Bound EmptyString []
| X_Ahead r b g :
    xmatches ic dotall r b g ->
    xmatches ic dotall (ReX.Ahead r) EmptyString g
| X_Eos : xmatches ic dotall ReX.Eos EmptyString [].

(** A text without white space at either end. *)
Definition tidy (s : string) : Prop :=
  (forall c b, s = String c b -> is_space c = false)
  /\ (forall a c, s = a ++ String c EmptyString -> is_space c = false).

(** The answer that the prompt of [generate_sql_with_ai] asks for. *)
Definition formatted_response (sql explanation : string) : string :=
  "SQL: " ++ sql ++ nl ++ "Explanation: " ++ explanation.

(* ------------------------------------------------------------------ *)
(** ** Notions used in the statements *)

(** No key of the entry occurs in the text. *)
Definition absent {V : Type} (text : string) (kv : string * V) : Prop :=
  contains (fst kv) text = false.

(** The priority order of the direction keywords as the specification
    lists it, and the direction it would give. *)
Definition spec_sort_order : dict string := [
  ("ascending", "ASC"); ("descending", "DESC"); ("highest", "DESC");
  ("lowest", "ASC"); ("most", "DESC"); ("least", "ASC");
  ("increasing", "ASC"); ("decreasing", "DESC")].

Definition spec_sort_direction (q : string) : string :=
  match first_in (lower q) spec_sort_order with
  | Some d => d
  | None => "DESC"
  end.

(** The pattern does not match anywhere in the text. *)
Definition silent (text : string) (p : Re.regex) : Prop :=
  Re.search false p text = None.

(** The terms that [_validate_query] rejects, with their hints, in the
    order of the two scans. *)
Definition unavailable_terms : list (string * string) :=
  (unavailable_metrics ++ unavailable_dimensions)%list.

Definition matched_terms (query_lower : string) : list (string * string) :=
  filter (fun ts => contains (fst ts) query_lower) unavailable_terms.

Definition generic_sentence : string :=
  "This query retrieves data from the database.".

(** How a part of an explanation can start. *)
Definition part_starts : list string :=
  ["This query c"; "This query f"; "grouped"; "filtered"; "sorted"; "showing"].

Definition starts_as_part (x : string) : bool :=
  existsb (fun p => startswith p x) part_starts.

Definition headed (parts : list string) : Prop :=
  match parts with
  | [] => True
  | x :: _ => starts_as_part x = true
  end.

(** A numeric literal as the comparison patterns read it: digits, and
    possibly a dot and more digits. *)
Definition is_decimal (v : string) : Prop :=
  is_number v \/ exists i f, is_number i /\ is_number f /\ v = i ++ "." ++ f.

(** The dict holds a date object under 'date'. *)
Definition dated (d : dict Seed.pyval) : Prop :=
  exists y m dd, get "date" d = Some (Seed.VDate y m dd).

(** The objects given to [db.add] in a run, in the order of the calls. *)
Definition added_objects (trace : list Seed.event) : list Seed.row :=
  flat_map (fun ev => match ev with Seed.Add r => [r] | _ => [] end) trace.

(** A limit phrase: a word with a number behind it ("top 5"), or a number
    with a word behind it ("5 best"). *)
Inductive limit_form : Type :=
| WordNumber (w : string)
| NumberWord (w : string).

(** The text does not go on with a digit. *)
Definition no_digit_ahead (s : string) : Prop :=
  match s with
  | EmptyString => True
  | String c _ => is_digit c = false
  end.

(** The text [s] begins with a phrase of the form whose number is [n]: the
    word, white space and all the digits that stand there; or digits,
    white space and the word. *)
Definition begins_with (f : limit_form) (s n : string) : Prop :=
  match f with
  | WordNumber w =>
      exists ws rest,
        s = w ++ ws ++ n ++ rest
        /\ is_blank ws /\ is_number n /\ no_digit_ahead rest
  | NumberWord w =>
      exists ws rest,
        s = n ++ ws ++ w ++ rest /\ is_number n /\ is_blank ws
  end.

(** The text [s] begins with the word "between", a date, the word "and"
    and a date, with white space between them. *)
Definition begins_with_range (s : string) (dates : string * string) : Prop :=
  exists ws1 ws2 ws3 rest,
    s = "between" ++ ws1 ++ fst dates ++ ws2 ++ "and" ++ ws3 ++ snd dates
        ++ rest
    /\ is_blank ws1 /\ is_blank ws2 /\ is_blank ws3
    /\ is_iso_date (fst dates) = true /\ is_iso_date (snd dates) = true.

(** A phrase begins at some place of the text; [first_place]: the phrase
    at the first such place reads [a]. *)
Definition somewhere {A : Type} (begins : string -> A -> Prop)
  (text : string) : Prop :=
  exists pre s a, text = pre ++ s /\ begins s a.

Definition first_place {A : Type} (begins : string -> A -> Prop)
  (text : string) (a : A) : Prop :=
  exists pre s,
    text = pre ++ s /\ begins s a
    /\ forall pre' s' a',
        text = pre' ++ s' -> begins s' a' ->
        String.length pre <= String.length pre'.

(** The text is empty or goes on with a character outside the class. *)
Definition stops (k : Re.cls) (s : string) : Prop :=
  match s with
  | EmptyString => True
  | String c _ => Re.in_cls k c = false
  end.

(** A word that a run of white space can stand before. *)
Definition word (w : string) : Prop :=
  match w with
  | EmptyString => False
  | String c _ => is_space c = false
  end.

(** The pattern of [_extract_limit] that reads a limit phrase. *)
Definition pattern_of (f : limit_form) : Re.regex :=
  match f with
  | WordNumber w => word_then_number w
  | NumberWord w => number_then_word w
  end.

Definition dates_of (m : Re.rmatch) : string * string :=
  (Re.group 1 m, Re.group 2 m).

(** A form whose word can stand behind white space. *)
Definition form_ok (f : limit_form) : Prop :=
  match f with
  | WordNumber _ => True
  | NumberWord w => word w
  end.

(** The step [m] computes [f] of the object it finds, leaves the object as
    it is, and at most hands new records to the logger. *)
Definition computes {A : Type} (m : Stateful.St A)
  (f : QueryGenerator -> result A) : Prop :=
  forall st, exists new,
    m st = (f (Stateful.object st),
            {| Stateful.object := Stateful.object st;
               Stateful.records := (Stateful.records st ++ new)%list |}).

(** Two runs of [m] in a row, the second on the store that the first
    leaves: both give the same outcome and neither changes the object;
    and a run on any store with the same object (whatever was logged
    before) gives that outcome too. *)
Definition repeatable {A : Type} (m : Stateful.St A) : Prop :=
  forall st,
    let (first, st1) := m st in
    let (second, st2) := m st1 in
    second = first
    /\ Stateful.object st1 = Stateful.object st
    /\ Stateful.object st2 = Stateful.object st
    /\ forall st', Stateful.object st' = Stateful.object st ->
                   fst (m st') = first.

(** An instance of the parameters of a run, for examples: nothing raises,
    and a text of the form YYYY-MM-DD is read digit by digit. *)
Module SeedExample.

Definition digit (c : ascii) : Z := Z.of_N (N_of_ascii c) - 48.

Definition number (s : string) : Z :=
  fold_left (fun n c => 10 * n + digit c)%Z (list_ascii_of_string s) 0%Z.

Definition read_date (s : string) : xresult (Z * Z * Z) :=
  if is_iso_date s
  then Done (number (substring 0 4 s), number (substring 5 2 s),
             number (substring 8 2 s))
  else Fail (Builtin (ValueError "time data does not match format"))%string.

Definition quiet : Seed.env := {|
  Seed.create_all := None;
  Seed.strptime := read_date;
  Seed.commit := fun _ => None
|}.

End SeedExample.

(* ================================================================== *)
(** * Properties *)

(* ------------------------------------------------------------------ *)
(** ** Substrings *)

Section Substrings.

Lemma append_assoc (a b c : string) : (a ++ b) ++ c = a ++ (b ++ c).
Proof. induction a as [|x a IH]; simpl; [reflexivity | now rewrite IH]. Qed.

Lemma append_empty_r (a : string) : a ++ EmptyString = a.
Proof. induction a as [|x a IH]; simpl; [reflexivity | now rewrite IH]. Qed.

Lemma startswith_app (t b : string) : startswith t (t ++ b) = true.
Proof.
  induction t as [|x t IH]; simpl; [reflexivity|].
  now rewrite Ascii.eqb_refl, IH.
Qed.

Lemma startswith_inv (t s : string) :
  startswith t s = true -> exists b, s = t ++ b.
Proof.
  revert s; induction t as [|x t IH]; intros s H.
  - now exists s.
  - destruct s as [|y s]; simpl in H; [discriminate|].
    apply andb_true_iff in H as [Hxy Ht].
    apply Ascii.eqb_eq in Hxy; subst y.
    destruct (IH _ Ht) as [b ->]. now exists b.
Qed.

Lemma contains_unfold (t s : string) :
  contains t s =
  if startswith t s then true
  else match s with
       | EmptyString => false
       | String _ s' => contains t s'
       end.
Proof. destruct s; reflexivity. Qed.

Lemma contains_intro (t a b : string) : contains t (a ++ t ++ b) = true.
Proof.
  induction a as [|x a IH].
  - rewrite contains_unfold. simpl append. now rewrite startswith_app.
  - rewrite contains_unfold. simpl append.
    destruct (startswith t (String x (a ++ t ++ b))); [reflexivity | exact IH].
Qed.

Lemma contains_inv (t s : string) :
  contains t s = true -> exists a b, s = a ++ t ++ b.
Proof.
  induction s as [|x s IH]; rewrite contains_unfold; intros H.
  - destruct (startswith t EmptyString) eqn:E; [|discriminate].
    destruct (startswith_inv _ _ E) as [b Hb]. now exists EmptyString, b.
  - destruct (startswith t (String x s)) eqn:E.
    + destruct (startswith_inv _ _ E) as [b Hb]. now exists EmptyString, b.
    + destruct (IH H) as (a & b & ->). now exists (String x a), b.
Qed.

Lemma contains_app_l (t a b : string) :
  contains t a = true -> contains t (a ++ b) = true.
Proof.
  intros H. destruct (contains_inv _ _ H) as (x & y & ->).
  rewrite !append_assoc. apply contains_intro.
Qed.

Lemma contains_app_r (t a b : string) :
  contains t b = true -> contains t (a ++ b) = true.
Proof.
  intros H. destruct (contains_inv _ _ H) as (x & y & ->).
  rewrite <- append_assoc. apply contains_intro.
Qed.

Lemma lower_app (a b : string) : lower (a ++ b) = lower a ++ lower b.
Proof. induction a as [|x a IH]; simpl; [reflexivity | now rewrite IH]. Qed.

(** A term in lower case that occurs in a question occurs in the
    lower-cased question. *)
Lemma contains_lower (t q : string) :
  lower t = t -> contains t q = true -> contains t (lower q) = true.
Proof.
  intros Ht H. destruct (contains_inv _ _ H) as (a & b & ->).
  rewrite !lower_app, Ht. apply contains_intro.
Qed.

Lemma lower_char_idem (c : ascii) : lower_char (lower_char c) = lower_char c.
Proof.
  destruct c as [[] [] [] [] [] [] [] []]; vm_compute; reflexivity.
Qed.

Lemma lower_idem (s : string) : lower (lower s) = lower s.
Proof.
  induction s as [|c s IH]; simpl; [reflexivity|].
  now rewrite lower_char_idem, IH.
Qed.

(** Lower-casing neither makes nor removes an underscore. *)
Lemma underscore_lower_char (c : ascii) :
  Ascii.eqb "_" (lower_char c) = Ascii.eqb "_" c.
Proof.
  destruct c as [[] [] [] [] [] [] [] []]; vm_compute; reflexivity.
Qed.

Lemma underscore_lower (s : string) :
  contains "_" (lower s) = contains "_" s.
Proof.
  induction s as [|c s IH]; [reflexivity|].
  simpl lower. rewrite (contains_unfold "_" (String c s)).
  rewrite (contains_unfold "_" (String (lower_char c) (lower s))).
  cbn [startswith]. now rewrite underscore_lower_char, IH.
Qed.

(** A text that holds [t] holds every character of [t]. *)
Lemma contains_char (c : ascii) (t1 t2 s : string) :
  contains (t1 ++ String c t2) s = true ->
  contains (String c EmptyString) s = true.
Proof.
  intros H. destruct (contains_inv _ _ H) as (a & b & ->).
  replace (a ++ (t1 ++ String c t2) ++ b)
    with ((a ++ t1) ++ String c EmptyString ++ (t2 ++ b)).
  - apply contains_intro.
  - rewrite !append_assoc. reflexivity.
Qed.

Lemma join_cons (sep x : string) (l : list string) :
  l <> [] -> join sep (x :: l) = x ++ sep ++ join sep l.
Proof. destruct l; [congruence | reflexivity]. Qed.

Lemma append_nonempty (a b : string) :
  a ++ b = EmptyString -> a = EmptyString.
Proof. destruct a; [reflexivity | discriminate]. Qed.

Lemma join_empty (sep : string) (l : list string) :
  Forall (fun x => x <> EmptyString) l ->
  join sep l = EmptyString -> l = [].
Proof.
  intros Hl H. destruct l as [|x l]; [reflexivity|].
  inversion Hl as [|? ? Hx _]; subst. exfalso; apply Hx.
  destruct l; simpl in H; [exact H | now apply append_nonempty in H].
Qed.

End Substrings.

(* ------------------------------------------------------------------ *)
(** ** The matcher reads what the pattern says *)

Section Matcher.

Lemma length_append (a b : string) :
  String.length (a ++ b) = String.length a + String.length b.
Proof. induction a as [|x a IH]; simpl; [reflexivity | now rewrite IH]. Qed.

Lemma substring_prefix (a b : string) :
  substring 0 (String.length a) (a ++ b) = a.
Proof.
  induction a as [|x a IH]; simpl.
  - now destruct b.
  - now rewrite IH.
Qed.

Lemma consumed_app (a s1 : string) : Re.consumed (a ++ s1) s1 = a.
Proof.
  unfold Re.consumed. rewrite length_append.
  replace (String.length a + String.length s1 - String.length s1)
    with (String.length a) by lia.
  apply substring_prefix.
Qed.

Lemma plus_greedy_inv (k : Re.cls) (s : string)
  (kont : string -> Re.outcome) (x : string * list string) :
  Re.plus_greedy k s kont = Some x ->
  exists a s1,
    s = a ++ s1 /\ a <> EmptyString /\ all_chars (Re.in_cls k) a = true
    /\ kont s1 = Some x.
Proof.
  induction s as [|c s IH]; simpl; [discriminate|].
  destruct (Re.in_cls k c) eqn:Ec; [|discriminate].
  destruct (Re.plus_greedy k s kont) as [y|] eqn:E.
  - intros [= ->]. destruct (IH eq_refl) as (a & s1 & -> & _ & Ha & Hk).
    exists (String c a), s1. repeat split; [discriminate | | exact Hk].
    simpl. now rewrite Ec, Ha.
  - intros Hk. exists (String c EmptyString), s.
    repeat split; [discriminate | | exact Hk].
    simpl. now rewrite Ec.
Qed.

Lemma star_lazy_inv (k : Re.cls) (s : string)
  (kont : string -> Re.outcome) (x : string * list string) :
  Re.star_lazy k s kont = Some x ->
  exists a s1,
    s = a ++ s1 /\ all_chars (Re.in_cls k) a = true /\ kont s1 = Some x.
Proof.
  induction s as [|c s IH]; simpl.
  - destruct (kont EmptyString) as [y|] eqn:E; [|discriminate].
    intros [= ->]. now exists EmptyString, EmptyString.
  - destruct (kont (String c s)) as [y|] eqn:E.
    + intros [= ->]. now exists EmptyString, (String c s).
    + destruct (Re.in_cls k c) eqn:Ec; [|discriminate].
      intros H. destruct (IH H) as (a & s1 & -> & Ha & Hk).
      exists (String c a), s1. repeat split; [|exact Hk].
      simpl. now rewrite Ec, Ha.
Qed.

(** Soundness of the backtracking matcher. *)
Lemma run_sound (ic : bool) (r : Re.regex) :
  forall (s : string) (caps : list string) (kont : Re.cont)
         (x : string * list string),
    Re.run ic r s caps kont = Some x ->
    exists a s1 g,
      s = a ++ s1 /\ matches ic r a s1 g
      /\ kont s1 (caps ++ g)%list = Some x.
Proof.
  induction r as [ | c | k | r1 IH1 r2 IH2 | r1 IH1 r2 IH2 | r1 IH1 | k | k
                 | r1 IH1 | r1 IH1 | ]; intros s caps kont x H; simpl in H.
  - exists EmptyString, s, []. rewrite app_nil_r.
    repeat split; [constructor | exact H].
  - destruct s as [|c' s]; [discriminate|].
    destruct (Re.chr_eq ic c c') eqn:E; [|discriminate].
    exists (String c' EmptyString), s, []. rewrite app_nil_r.
    repeat split; [now constructor | exact H].
  - destruct s as [|c' s]; [discriminate|].
    destruct (Re.in_cls k c') eqn:E; [|discriminate].
    exists (String c' EmptyString), s, []. rewrite app_nil_r.
    repeat split; [now constructor | exact H].
  - apply IH1 in H as (a & s1 & g1 & -> & Ha & H).
    apply IH2 in H as (b & s2 & g2 & -> & Hb & H).
    exists (a ++ b), s2, (g1 ++ g2)%list.
    rewrite append_assoc, app_assoc.
    repeat split; [now constructor | exact H].
  - destruct (Re.run ic r1 s caps kont) as [y|] eqn:E.
    + injection H as ->. apply IH1 in E as (a & s1 & g & -> & Ha & Hk).
      exists a, s1, g. repeat split; [now apply M_Alt_l | exact Hk].
    + apply IH2 in H as (a & s1 & g & -> & Ha & Hk).
      exists a, s1, g. repeat split; [now apply M_Alt_r | exact Hk].
  - apply IH1 in H as (a & s1 & g & -> & Ha & H).
    rewrite consumed_app, <- app_assoc in H.
    exists a, s1, (g ++ [a])%list. repeat split; [now constructor | exact H].
  - apply plus_greedy_inv in H as (a & s1 & -> & Hne & Ha & H).
    exists a, s1, []. rewrite app_nil_r.
    repeat split; [now constructor | exact H].
  - apply star_lazy_inv in H as (a & s1 & -> & Ha & H).
    exists a, s1, []. rewrite app_nil_r.
    repeat split; [now constructor | exact H].
  - destruct (Re.run ic r1 s caps kont) as [y|] eqn:E.
    + injection H as ->. apply IH1 in E as (a & s1 & g & -> & Ha & Hk).
      exists a, s1, g. repeat split; [now apply M_Opt_some | exact Hk].
    + exists EmptyString, s, []. rewrite app_nil_r.
      repeat split; [apply M_Opt_none | exact H].
  - destruct (Re.run ic r1 s caps (fun _ caps1 => Some (s, caps1)))
      as [[s' caps1]|] eqn:E; [|discriminate].
    apply IH1 in E as (b & s2 & g & -> & Hb & [= _ <-]).
    exists EmptyString, (b ++ s2), g.
    repeat split; [now constructor | exact H].
  - destruct (Re.at_end s) eqn:E; [|discriminate].
    exists EmptyString, s, []. rewrite app_nil_r.
    repeat split; [now constructor | exact H].
Qed.

Lemma match_here_sound (ic : bool) (r : Re.regex) (pos : nat) (s : string)
  (m : Re.rmatch) :
  Re.match_here ic r pos s = Some m ->
  exists rest,
    s = Re.m_text m ++ rest /\ matches ic r (Re.m_text m) rest (Re.m_groups m)
    /\ Re.m_start m = pos.
Proof.
  unfold Re.match_here.
  destruct (Re.run ic r s [] (fun s1 caps => Some (s1, caps)))
    as [[s1 caps]|] eqn:E; [|discriminate].
  intros [= <-]. apply run_sound in E as (a & s2 & g & -> & Ha & [= <- <-]).
  cbn [Re.m_text Re.m_groups Re.m_start]. rewrite consumed_app.
  now exists s2.
Qed.

(** [re.search] returns a match of the pattern inside the text. *)
Lemma search_sound (ic : bool) (r : Re.regex) (s : string) (m : Re.rmatch) :
  Re.search ic r s = Some m ->
  exists pre rest,
    s = pre ++ Re.m_text m ++ rest
    /\ matches ic r (Re.m_text m) rest (Re.m_groups m)
    /\ Re.m_start m = String.length pre.
Proof.
  unfold Re.search.
  change 0 with (String.length EmptyString) at 1.
  assert (G : forall pre0 s0,
             Re.search_at ic r (String.length pre0) s0 = Some m ->
             exists pre rest,
               s0 = pre ++ Re.m_text m ++ rest
               /\ matches ic r (Re.m_text m) rest (Re.m_groups m)
               /\ Re.m_start m = String.length (pre0 ++ pre)).
  { intros pre0 s0. revert pre0.
    induction s0 as [|c s0 IH]; intros pre0; simpl.
    - destruct (Re.match_here ic r (String.length pre0) EmptyString)
        as [m'|] eqn:E; [|discriminate].
      intros [= ->]. apply match_here_sound in E as (rest & H1 & H2 & H3).
      exists EmptyString, rest. rewrite append_empty_r. now repeat split.
    - destruct (Re.match_here ic r (String.length pre0) (String c s0))
        as [m'|] eqn:E.
      + intros [= ->]. apply match_here_sound in E as (rest & H1 & H2 & H3).
        exists EmptyString, rest. rewrite append_empty_r. now repeat split.
      + intros H.
        replace (S (String.length pre0))
          with (String.length (pre0 ++ String c EmptyString)) in H
          by (rewrite length_append; simpl; lia).
        apply IH in H as (pre & rest & -> & H2 & H3).
        exists (String c pre), rest. repeat split; [exact H2|].
        rewrite H3, append_assoc. reflexivity. }
  intros H. apply G in H as (pre & rest & H1 & H2 & H3).
  now exists pre, rest.
Qed.

End Matcher.

(* ------------------------------------------------------------------ *)
(** ** The shape of what the program's patterns read *)

Section Shapes.

Lemma matches_lit (w a rest : string) (g : list string) :
  matches false (Re.lit w) a rest g -> a = w /\ g = [].
Proof.
  revert a rest g. induction w as [|c w IH]; intros a rest g H; simpl in H.
  - inversion H; subst. now split.
  - inversion H as [ | | | r1 r2 a1 b1 rest1 g1 g2 H1 H2 | | | | | | | | | ];
      subst.
    inversion H1 as [ | c0 c' rest0 Hc | | | | | | | | | | | ]; subst.
    apply IH in H2 as [-> ->].
    unfold Re.chr_eq in Hc. apply Ascii.eqb_eq in Hc. subst c'.
    now split.
Qed.

Ltac invert_matches :=
  repeat match goal with
         | H : matches false (Re.lit _) _ _ _ |- _ =>
             apply matches_lit in H; destruct H; subst
         | H : matches _ (Re.Cat _ _) _ _ _ |- _ => inversion H; subst; clear H
         | H : matches _ (Re.Grp _) _ _ _ |- _ => inversion H; subst; clear H
         | H : matches _ (Re.Plus _) _ _ _ |- _ => inversion H; subst; clear H
         | H : matches _ (Re.Any _) _ _ _ |- _ => inversion H; subst; clear H
         | H : matches _ (Re.Chr _) _ _ _ |- _ => inversion H; subst; clear H
         | H : matches _ Re.Eps _ _ _ |- _ => inversion H; subst; clear H
         | H : Re.chr_eq false _ _ = true |- _ =>
             unfold Re.chr_eq in H; apply Ascii.eqb_eq in H; subst
         end.

(** [w\s+(\d+)]: the word, white space, and the number that is group 1. *)
Lemma word_then_number_shape (w text : string) (m : Re.rmatch) :
  Re.search false (word_then_number w) text = Some m ->
  is_number (Re.group 1 m)
  /\ exists pre ws rest,
      is_blank ws /\ text = pre ++ w ++ ws ++ Re.group 1 m ++ rest.
Proof.
  intros H. apply search_sound in H as (pre & rest & Ht & Hm & _).
  unfold Re.group. destruct m as [st tx gs]. cbn [Re.m_text Re.m_groups] in *.
  unfold word_then_number, Re.seq in Hm. cbn [fold_right] in Hm.
  invert_matches. cbn [app nth Nat.sub].
  split; [now split|].
  match goal with
  | Hs : all_chars (Re.in_cls Re.Space) ?ws = true |- _ =>
      exists pre, ws, rest
  end.
  split; [now split|].
  rewrite ?append_empty_r, !append_assoc. reflexivity.
Qed.

(** [(\d+)\s+w]: the number that is group 1, white space, and the word. *)
Lemma number_then_word_shape (w text : string) (m : Re.rmatch) :
  Re.search false (number_then_word w) text = Some m ->
  is_number (Re.group 1 m)
  /\ exists pre ws rest,
      is_blank ws /\ text = pre ++ Re.group 1 m ++ ws ++ w ++ rest.
Proof.
  intros H. apply search_sound in H as (pre & rest & Ht & Hm & _).
  unfold Re.group. destruct m as [st tx gs]. cbn [Re.m_text Re.m_groups] in *.
  unfold number_then_word, Re.seq in Hm. cbn [fold_right] in Hm.
  invert_matches. cbn [app nth Nat.sub].
  split; [now split|].
  match goal with
  | Hs : all_chars (Re.in_cls Re.Space) ?ws = true |- _ =>
      exists pre, ws, rest
  end.
  split; [now split|].
  rewrite ?append_empty_r, !append_assoc. reflexivity.
Qed.

(** [between\s+(date)\s+and\s+(date)]: two dates of the form
    YYYY-MM-DD around the word "and". *)
Lemma date_range_shape (text : string) (m : Re.rmatch) :
  Re.search false date_range_pattern text = Some m ->
  is_iso_date (Re.group 1 m) = true
  /\ is_iso_date (Re.group 2 m) = true
  /\ exists pre ws1 ws2 ws3 rest,
      text = pre ++ "between" ++ ws1 ++ Re.group 1 m ++ ws2 ++ "and" ++ ws3
             ++ Re.group 2 m ++ rest
      /\ is_blank ws1 /\ is_blank ws2 /\ is_blank ws3.
Proof.
  intros H. apply search_sound in H as (pre & rest & Ht & Hm & _).
  unfold Re.group. destruct m as [st tx gs]. cbn [Re.m_text Re.m_groups] in *.
  unfold date_range_pattern, iso_date, Re.seq in Hm.
  cbn [fold_right Re.rep] in Hm.
  invert_matches. cbn [app nth Nat.sub]. cbn [Re.in_cls] in *.
  split; [|split].
  - unfold is_iso_date. cbn [append list_ascii_of_string forallb].
    repeat match goal with
           | Hd : is_digit _ = true |- _ => rewrite Hd; clear Hd
           end.
    reflexivity.
  - unfold is_iso_date. cbn [append list_ascii_of_string forallb].
    repeat match goal with
           | Hd : is_digit _ = true |- _ => rewrite Hd; clear Hd
           end.
    reflexivity.
  - rewrite ?append_empty_r, !append_assoc.
    eexists pre, _, _, _, rest.
    split; [reflexivity|].
    repeat split; assumption.
Qed.

End Shapes.

(* ------------------------------------------------------------------ *)
(** ** Scans of a dictionary *)

Section Scans.
Context {V : Type}.

Lemma first_in_some (text : string) (d : dict V) (v : V) :
  first_in text d = Some v ->
  exists pre k post,
    d = (pre ++ (k, v) :: post)%list /\ contains k text = true
    /\ Forall (absent text) pre.
Proof.
  induction d as [|[k' v'] d IH]; simpl; [discriminate|].
  destruct (contains k' text) eqn:E.
  - intros [= ->]. exists [], k', d. repeat split; [exact E | constructor].
  - intros H. destruct (IH H) as (pre & k & post & -> & Hk & Hpre).
    exists ((k', v') :: pre), k, post. repeat split; [exact Hk|].
    constructor; [exact E | exact Hpre].
Qed.

Lemma first_in_none (text : string) (d : dict V) :
  first_in text d = None -> Forall (absent text) d.
Proof.
  induction d as [|[k' v'] d IH]; simpl; [constructor|].
  destruct (contains k' text) eqn:E; [discriminate|].
  intros H. constructor; [exact E | exact (IH H)].
Qed.

Lemma all_in_filter (text : string) (d : dict V) :
  all_in text d = map snd (filter (fun kv => contains (fst kv) text) d).
Proof.
  induction d as [|[k v] d IH]; simpl; [reflexivity|].
  destruct (contains k text); simpl; now rewrite IH.
Qed.

End Scans.

(* ------------------------------------------------------------------ *)
(** ** Sorting *)

(** C3, as stated, fails: in "highest increasing" both keywords occur and
    the stated order gives DESC (for "highest"), but [_extract_sorting]
    returns ASC, because [sort_patterns] lists "increasing" before
    "highest". *)
Lemma C3_counterexample :
  contains "highest" (lower "highest increasing") = true
  /\ contains "increasing" (lower "highest increasing") = true
  /\ spec_sort_direction "highest increasing" = "DESC"
  /\ snd (_extract_sorting (__init__ None) "highest increasing") = "ASC"
  /\ ~ (forall q,
          snd (_extract_sorting (__init__ None) q) = spec_sort_direction q).
Proof.
  repeat split; try (vm_compute; reflexivity).
  intros H. specialize (H "highest increasing").
  vm_compute in H. discriminate H.
Qed.

(** C3 (amended): the sort direction is that of the first keyword, in the
    order ascending, descending, increasing, decreasing, highest, lowest,
    most, least, that occurs in the lower-cased question, and DESC when
    none occurs.  In particular a question with both "highest" and
    "increasing" and without "descending" is sorted ASC. *)
Theorem C3_sort_direction_first_keyword (key : option string) (q : string) :
  let direction := snd (_extract_sorting (__init__ key) q) in
  let order : dict string :=
    [("ascending", "ASC"); ("descending", "DESC"); ("increasing", "ASC");
     ("decreasing", "DESC"); ("highest", "DESC"); ("lowest", "ASC");
     ("most", "DESC"); ("least", "ASC")] in
  ((exists pre k post,
       order = (pre ++ (k, direction) :: post)%list
       /\ contains k (lower q) = true
       /\ Forall (absent (lower q)) pre)
   \/ (Forall (absent (lower q)) order /\ direction = "DESC"))
  /\ (contains "highest" (lower q) = true ->
      contains "increasing" (lower q) = true ->
      contains "descending" (lower q) = false ->
      direction = "ASC").
Proof.
  intros direction order.
  assert (Hd : direction =
               match first_in (lower q) order with
               | Some d => d
               | None => "DESC"
               end) by reflexivity.
  split.
  - destruct (first_in (lower q) order) as [d|] eqn:E.
    + left. rewrite Hd. now apply first_in_some.
    + right. split; [now apply first_in_none | exact Hd].
  - intros _ Hinc Hdesc. rewrite Hd. unfold order. cbn [first_in].
    rewrite Hdesc, Hinc. now destruct (contains "ascending" (lower q)).
Qed.

Lemma C3_sort_direction_witness :
  contains "highest" (lower "highest increasing") = true
  /\ contains "increasing" (lower "highest increasing") = true
  /\ contains "descending" (lower "highest increasing") = false
  /\ snd (_extract_sorting (__init__ None) "highest increasing") = "ASC".
Proof.
  split; [vm_compute; reflexivity|].
  split; [vm_compute; reflexivity|].
  split; [vm_compute; reflexivity|].
  apply (proj2 (C3_sort_direction_first_keyword None "highest increasing"));
    vm_compute; reflexivity.
Defined.

(* ------------------------------------------------------------------ *)
(** ** Comparison filters *)

(** C9: comparison phrases overlap as substrings, so one phrase can give
    several filters: "greater than or equal to 5" holds "equal to 5", and
    [_extract_comparison] returns both an [= 5] and a [>= 5] condition on
    the inferred field (and no [> 5] condition, since no number follows
    "greater than"). *)
Theorem C9_overlapping_comparisons :
  exists q : string,
    contains "greater than or equal to 5" (lower q) = true
    /\ (forall key,
          _extract_comparison (__init__ key) q
          = ["s.total_amount = 5"; "s.total_amount >= 5"])
    /\ (forall key,
          List.length (_extract_comparison (__init__ key) q) > 1).
Proof.
  exists "sales greater than or equal to 5".
  repeat split; intros; vm_compute; auto.
Qed.

(* ------------------------------------------------------------------ *)
(** ** Metric *)

(** C10: metric names are looked up as substrings, so a question without
    an underscore never selects average_sale, customer_count or
    order_count: the metric is that of sales, revenue or quantity (each a
    SUM), and the sales metric when none of the three names occurs.  The
    question "average sale amount" gets the sales metric, a SUM. *)
Theorem C10_metric_without_underscore (key : option string) (q : string) :
  contains "_" q = false ->
  let self := __init__ key in
  let sales := {| field := "s.total_amount"; agg := "SUM";
                  description := "total sales amount" |} in
  let revenue := {| field := "s.total_amount"; agg := "SUM";
                    description := "total revenue" |} in
  let quantity := {| field := "s.quantity"; agg := "SUM";
                     description := "total units sold" |} in
  (exists m,
      _extract_metric self (lower q) = Ok m
      /\ (m = sales \/ m = revenue \/ m = quantity)
      /\ agg m = "SUM"
      /\ (contains "sales" (lower q) = false ->
          contains "revenue" (lower q) = false ->
          contains "quantity" (lower q) = false ->
          m = sales))
  /\ _extract_metric self (lower "average sale amount") = Ok sales.
Proof.
  intros H self sales revenue quantity.
  split; [|vm_compute; reflexivity].
  assert (Hl : contains "_" (lower q) = false)
    by (rewrite underscore_lower; exact H).
  assert (Ha : contains "average_sale" (lower q) = false).
  { destruct (contains "average_sale" (lower q)) eqn:E; [|reflexivity].
    apply (contains_char "_" "average" "sale") in E. congruence. }
  assert (Hc : contains "customer_count" (lower q) = false).
  { destruct (contains "customer_count" (lower q)) eqn:E; [|reflexivity].
    apply (contains_char "_" "customer" "count") in E. congruence. }
  assert (Ho : contains "order_count" (lower q) = false).
  { destruct (contains "order_count" (lower q)) eqn:E; [|reflexivity].
    apply (contains_char "_" "order" "count") in E. congruence. }
  unfold _extract_metric, self. cbn [metrics __init__ first_in].
  rewrite Ha, Hc, Ho.
  destruct (contains "sales" (lower q)) eqn:E1.
  { exists sales. repeat split; auto; discriminate. }
  destruct (contains "revenue" (lower q)) eqn:E2.
  { exists revenue. repeat split; auto; discriminate. }
  destruct (contains "quantity" (lower q)) eqn:E3.
  { exists quantity. repeat split; auto; discriminate. }
  exists sales. repeat split; auto.
Qed.

Lemma C10_metric_witness :
  contains "_" "Average Sale amount" = false
  /\ exists m,
      _extract_metric (__init__ None) (lower "Average Sale amount") = Ok m
      /\ agg m = "SUM".
Proof.
  split; [vm_compute; reflexivity|].
  destruct (C10_metric_without_underscore None "Average Sale amount")
    as [(m & Hm & _ & Hagg & _) _].
  - vm_compute. reflexivity.
  - exists m. split; [exact Hm | exact Hagg].
Defined.

(* ------------------------------------------------------------------ *)
(** ** The first place where a pattern matches *)

Section Search.

Lemma match_here_pos (ic : bool) (r : Re.regex) (pos pos' : nat) (s : string) :
  Re.match_here ic r pos s = None -> Re.match_here ic r pos' s = None.
Proof.
  unfold Re.match_here.
  now destruct (Re.run ic r s [] (fun s1 caps => Some (s1, caps)))
    as [[s1 caps]|].
Qed.

(** [re.search] fails when the pattern matches at no place of the text. *)
Lemma search_at_none_iff (ic : bool) (r : Re.regex) (t : string) :
  forall pos,
    Re.search_at ic r pos t = None
    <-> forall pre s, t = pre ++ s -> Re.match_here ic r pos s = None.
Proof.
  induction t as [|c t IH]; intros pos; simpl.
  - destruct (Re.match_here ic r pos EmptyString) as [m|] eqn:E.
    + split; [discriminate|]. intros H.
      now rewrite (H EmptyString EmptyString eq_refl) in E.
    + split; [|reflexivity]. intros _ pre s H.
      destruct pre; [|discriminate]. simpl in H. now subst s.
  - destruct (Re.match_here ic r pos (String c t)) as [m|] eqn:E.
    + split; [discriminate|]. intros H.
      now rewrite (H EmptyString (String c t) eq_refl) in E.
    + rewrite IH. split.
      * intros H [|c' pre] s Hs; simpl in Hs.
        -- now subst s.
        -- injection Hs as _ Hs.
           exact (match_here_pos _ _ _ _ _ (H pre s Hs)).
      * intros H pre s Hs.
        apply (match_here_pos ic r pos).
        apply (H (String c pre) s). simpl. now rewrite Hs.
Qed.

(** [re.search] returns the match at the first place where there is one. *)
Lemma search_at_some_iff (ic : bool) (r : Re.regex) (t : string)
  (m : Re.rmatch) :
  forall pos,
    Re.search_at ic r pos t = Some m
    <-> exists pre s,
        t = pre ++ s
        /\ Re.match_here ic r (pos + String.length pre) s = Some m
        /\ forall pre1 pre2,
            pre = pre1 ++ pre2 -> pre2 <> EmptyString ->
            Re.match_here ic r pos (pre2 ++ s) = None.
Proof.
  induction t as [|c t IH]; intros pos; simpl.
  - destruct (Re.match_here ic r pos EmptyString) as [m'|] eqn:E.
    + split.
      * intros [= ->]. exists EmptyString, EmptyString.
        simpl. rewrite Nat.add_0_r.
        repeat split; [exact E|]. intros [|] [|]; simpl; congruence.
      * intros (pre & s & Ht & Hm & _).
        destruct pre; [|discriminate]. simpl in Ht. subst s.
        simpl in Hm. rewrite Nat.add_0_r in Hm. congruence.
    + split; [discriminate|].
      intros (pre & s & Ht & Hm & _).
      destruct pre; [|discriminate]. simpl in Ht. subst s.
      simpl in Hm. rewrite Nat.add_0_r in Hm. congruence.
  - destruct (Re.match_here ic r pos (String c t)) as [m'|] eqn:E.
    + split.
      * intros [= ->]. exists EmptyString, (String c t).
        simpl. rewrite Nat.add_0_r.
        repeat split; [exact E|]. intros [|] [|]; simpl; congruence.
      * intros (pre & s & Ht & Hm & Hn).
        destruct pre as [|c' pre].
        -- simpl in Ht, Hm. subst s. rewrite Nat.add_0_r in Hm. congruence.
        -- rewrite Ht in E.
           rewrite (Hn EmptyString (String c' pre) eq_refl) in E;
             [discriminate | discriminate].
    + rewrite IH. split.
      * intros (pre & s & -> & Hm & Hn).
        exists (String c pre), s. simpl.
        rewrite Nat.add_succ_r. repeat split; [exact Hm|].
        intros [|c1 pre1] pre2 Hp Hne; simpl in Hp.
        -- subst pre2. exact E.
        -- injection Hp as _ Hp.
           exact (match_here_pos _ _ _ _ _ (Hn pre1 pre2 Hp Hne)).
      * intros (pre & s & Ht & Hm & Hn).
        destruct pre as [|c' pre].
        -- simpl in Ht, Hm. subst s. rewrite Nat.add_0_r in Hm. congruence.
        -- simpl in Ht. injection Ht as <- ->.
           exists pre, s. simpl in Hm. rewrite Nat.add_succ_r in Hm.
           repeat split; [exact Hm|].
           intros pre1 pre2 Hp Hne.
           apply (match_here_pos ic r pos).
           apply (Hn (String c pre1) pre2); [|exact Hne].
           simpl. now rewrite Hp.
Qed.

Lemma append_length_le (pre s pre' s' : string) :
  pre ++ s = pre' ++ s' -> String.length pre' < String.length pre ->
  exists pre2, pre = pre' ++ pre2 /\ pre2 <> EmptyString /\ s' = pre2 ++ s.
Proof.
  revert pre'. induction pre as [|c pre IH]; intros pre' H Hl; simpl in *.
  - lia.
  - destruct pre' as [|c' pre']; simpl in *.
    + exists (String c pre). subst s'. repeat split. discriminate.
    + injection H as -> H.
      destruct (IH pre' H ltac:(lia)) as (pre2 & -> & Hne & ->).
      now exists pre2.
Qed.

(** A pattern [r] and the phrase it reads: [begins s a] when a phrase
    that reads [a] stands at the head of [s], and the matcher finds it
    there. *)
Context {A : Type}.
Variables (r : Re.regex) (val : Re.rmatch -> A)
          (begins : string -> A -> Prop).
Hypothesis finds :
  forall pos s a,
    begins s a -> exists m, Re.match_here false r pos s = Some m /\ val m = a.
Hypothesis found :
  forall pos s m, Re.match_here false r pos s = Some m -> begins s (val m).

Lemma search_none_nowhere (text : string) :
  Re.search false r text = None <-> ~ somewhere begins text.
Proof.
  unfold Re.search. rewrite search_at_none_iff. split.
  - intros H (pre & s & a & Ht & Hb).
    destruct (finds 0 s a Hb) as (m & Hm & _).
    now rewrite (H pre s Ht) in Hm.
  - intros H pre s Ht.
    destruct (Re.match_here false r 0 s) as [m|] eqn:E; [|reflexivity].
    elim H. exists pre, s, (val m). split; [exact Ht|]. exact (found _ _ _ E).
Qed.

Lemma search_first_place (text : string) (a : A) :
  first_place begins text a ->
  exists m, Re.search false r text = Some m /\ val m = a.
Proof.
  intros (pre & s & Ht & Hb & Hmin).
  destruct (finds (0 + String.length pre) s a Hb) as (m & Hm & Hv).
  exists m. split; [|exact Hv].
  unfold Re.search. apply search_at_some_iff.
  exists pre, s. repeat split; [exact Ht | exact Hm |].
  intros pre1 pre2 Hp Hne.
  destruct (Re.match_here false r 0 (pre2 ++ s)) as [m'|] eqn:E;
    [|reflexivity].
  apply found in E.
  assert (Hl : String.length pre <= String.length pre1).
  { apply (Hmin pre1 (pre2 ++ s) (val m')); [|exact E].
    now rewrite Ht, Hp, append_assoc. }
  rewrite Hp, length_append in Hl.
  destruct pre2; [congruence | simpl in Hl; lia].
Qed.

Lemma search_some_first_place (text : string) (m : Re.rmatch) :
  Re.search false r text = Some m -> first_place begins text (val m).
Proof.
  unfold Re.search. intros H.
  apply search_at_some_iff in H as (pre & s & Ht & Hm & Hn).
  exists pre, s. repeat split; [exact Ht | exact (found _ _ _ Hm) |].
  intros pre' s' a' Ht' Hb.
  destruct (Nat.le_gt_cases (String.length pre) (String.length pre'))
    as [Hle|Hlt]; [exact Hle|].
  rewrite Ht in Ht'.
  destruct (append_length_le _ _ _ _ Ht' Hlt) as (pre2 & Hp & Hne & Hs').
  destruct (finds 0 s' a' Hb) as (m' & Hm' & _).
  rewrite Hs', (Hn pre' pre2 Hp Hne) in Hm'. discriminate.
Qed.

End Search.

(* ------------------------------------------------------------------ *)
(** ** The matcher finds the phrases of the program's patterns *)

Section Phrases.

Lemma digit_not_space (c : ascii) : is_digit c = true -> is_space c = false.
Proof.
  destruct c as [[] [] [] [] [] [] [] []]; vm_compute; congruence.
Qed.

Lemma space_not_digit (c : ascii) : is_space c = true -> is_digit c = false.
Proof.
  destruct c as [[] [] [] [] [] [] [] []]; vm_compute; congruence.
Qed.

Lemma all_chars_app (p : ascii -> bool) (a b : string) :
  all_chars p (a ++ b) = (all_chars p a && all_chars p b)%bool.
Proof.
  induction a as [|c a IH]; simpl; [reflexivity|].
  now rewrite IH, andb_assoc.
Qed.

(** The digits at the head of a text. *)
Lemma span_digits (s : string) :
  exists d r, s = d ++ r /\ all_chars is_digit d = true /\ no_digit_ahead r.
Proof.
  induction s as [|c s (d & r & -> & Hd & Hr)].
  - now exists EmptyString, EmptyString.
  - destruct (is_digit c) eqn:Ec.
    + exists (String c d), r. simpl. now rewrite Ec, Hd.
    + now exists EmptyString, (String c (d ++ r)).
Qed.

Lemma stops_number (n rest : string) : is_number n -> stops Re.Space (n ++ rest).
Proof.
  intros [Hne Hn]. destruct n as [|c n]; [congruence|].
  simpl in *. apply andb_true_iff in Hn as [Hc _].
  now apply digit_not_space.
Qed.

Lemma stops_blank (ws rest : string) : is_blank ws -> stops Re.Digit (ws ++ rest).
Proof.
  intros [Hne Hw]. destruct ws as [|c ws]; [congruence|].
  simpl in *. apply andb_true_iff in Hw as [Hc _].
  now apply space_not_digit.
Qed.

Lemma stops_word (w rest : string) : word w -> stops Re.Space (w ++ rest).
Proof. destruct w; [contradiction | exact (fun H => H)]. Qed.

Lemma run_lit (w s : string) (caps : list string) (kont : Re.cont) :
  Re.run false (Re.lit w) (w ++ s) caps kont = kont s caps.
Proof.
  induction w as [|c w IH]; simpl; [reflexivity|].
  unfold Re.chr_eq. now rewrite Ascii.eqb_refl.
Qed.

Lemma plus_greedy_stops (k : Re.cls) (s : string)
  (kont : string -> Re.outcome) :
  stops k s -> Re.plus_greedy k s kont = None.
Proof. destruct s as [|c s]; simpl; [reflexivity | now intros ->]. Qed.

(** A greedy repetition reads the whole run when what follows can then
    be read. *)
Lemma plus_greedy_all (k : Re.cls) (a s1 : string)
  (kont : string -> Re.outcome) (x : string * list string) :
  a <> EmptyString -> all_chars (Re.in_cls k) a = true -> stops k s1 ->
  kont s1 = Some x ->
  Re.plus_greedy k (a ++ s1) kont = Some x.
Proof.
  intros Hne Ha Hs Hk. induction a as [|c a IH]; [congruence|].
  simpl in *. apply andb_true_iff in Ha as [Hc Ha]. rewrite Hc.
  destruct a as [|c' a].
  - simpl. now rewrite (plus_greedy_stops _ _ _ Hs).
  - rewrite IH; [reflexivity | discriminate | exact Ha].
Qed.

Lemma match_here_shape (r : Re.regex) (pos : nat) (s : string)
  (m : Re.rmatch) :
  Re.match_here false r pos s = Some m ->
  exists a rest, s = a ++ rest /\ matches false r a rest (Re.m_groups m).
Proof.
  intros H. apply match_here_sound in H as (rest & Hs & Hm & _).
  now exists (Re.m_text m), rest.
Qed.

Ltac read_pattern :=
  repeat match goal with
         | H : matches false (Re.lit _) _ _ _ |- _ =>
             apply matches_lit in H; destruct H; subst
         | H : matches _ (Re.Cat _ _) _ _ _ |- _ => inversion H; subst; clear H
         | H : matches _ (Re.Grp _) _ _ _ |- _ => inversion H; subst; clear H
         | H : matches _ (Re.Plus _) _ _ _ |- _ => inversion H; subst; clear H
         | H : matches _ (Re.Any _) _ _ _ |- _ => inversion H; subst; clear H
         | H : matches _ (Re.Chr _) _ _ _ |- _ => inversion H; subst; clear H
         | H : matches _ Re.Eps _ _ _ |- _ => inversion H; subst; clear H
         | H : Re.chr_eq false _ _ = true |- _ =>
             unfold Re.chr_eq in H; apply Ascii.eqb_eq in H; subst
         end.

(** [w\s+(\d+)] *)
Lemma word_then_number_finds (w : string) (pos : nat) (s n : string) :
  begins_with (WordNumber w) s n ->
  exists m,
    Re.match_here false (word_then_number w) pos s = Some m
    /\ Re.group 1 m = n.
Proof.
  intros (ws & rest & -> & Hws & Hn & Hr).
  unfold Re.match_here, word_then_number, Re.seq.
  cbn [fold_right Re.run]. rewrite run_lit.
  rewrite (plus_greedy_all Re.Space ws (n ++ rest) _ (rest, [n]));
    [ eexists; split; [reflexivity | reflexivity]
    | exact (proj1 Hws) | exact (proj2 Hws) | now apply stops_number | ].
  apply plus_greedy_all; [exact (proj1 Hn) | exact (proj2 Hn) | exact Hr |].
  now rewrite consumed_app.
Qed.

Lemma word_then_number_found (w : string) (pos : nat) (s : string)
  (m : Re.rmatch) :
  Re.match_here false (word_then_number w) pos s = Some m ->
  begins_with (WordNumber w) s (Re.group 1 m).
Proof.
  intros H. pose proof H as Hm.
  apply match_here_shape in Hm as (a & rest & -> & Hm).
  unfold Re.group. destruct m as [st tx gs]. cbn [Re.m_groups] in *.
  unfold word_then_number, Re.seq in Hm. cbn [fold_right] in Hm.
  read_pattern. cbn [app nth Nat.sub].
  match goal with
  | Hs : all_chars (Re.in_cls Re.Space) ?ws = true,
    Hd : all_chars (Re.in_cls Re.Digit) ?n0 = true |- _ =>
      rename ws into blank; rename n0 into digits
  end.
  destruct (span_digits rest) as (d & r & -> & Hd & Hr).
  assert (Hb : begins_with (WordNumber w)
                 ((w ++ blank ++ digits ++ EmptyString) ++ d ++ r)
                 (digits ++ d)).
  { exists blank, r. repeat split; try assumption.
    - now rewrite append_empty_r, !append_assoc.
    - intros E. apply append_nonempty in E. contradiction.
    - rewrite all_chars_app. cbn [Re.in_cls] in *.
      apply andb_true_iff. now split. }
  destruct (word_then_number_finds w pos _ _ Hb) as (m' & Hm' & Hg).
  rewrite H in Hm'. injection Hm' as <-.
  unfold Re.group in Hg. cbn [Re.m_groups nth Nat.sub] in Hg.
  rewrite <- Hg in Hb. exact Hb.
Qed.

(** [(\d+)\s+w] *)
Lemma number_then_word_finds (w : string) (pos : nat) (s n : string) :
  word w ->
  begins_with (NumberWord w) s n ->
  exists m,
    Re.match_here false (number_then_word w) pos s = Some m
    /\ Re.group 1 m = n.
Proof.
  intros Hw (ws & rest & -> & Hn & Hws).
  unfold Re.match_here, number_then_word, Re.seq.
  cbn [fold_right Re.run].
  rewrite (plus_greedy_all Re.Digit n (ws ++ w ++ rest) _ (rest, [n]));
    [ eexists; split; [reflexivity | reflexivity]
    | exact (proj1 Hn) | exact (proj2 Hn) | now apply stops_blank | ].
  rewrite consumed_app.
  apply plus_greedy_all;
    [exact (proj1 Hws) | exact (proj2 Hws) | now apply stops_word |].
  now rewrite run_lit.
Qed.

Lemma number_then_word_found (w : string) (pos : nat) (s : string)
  (m : Re.rmatch) :
  Re.match_here false (number_then_word w) pos s = Some m ->
  begins_with (NumberWord w) s (Re.group 1 m).
Proof.
  intros H. apply match_here_shape in H as (a & rest & -> & Hm).
  unfold Re.group. destruct m as [st tx gs]. cbn [Re.m_groups] in *.
  unfold number_then_word, Re.seq in Hm. cbn [fold_right] in Hm.
  read_pattern. cbn [app nth Nat.sub].
  match goal with
  | Hs : all_chars (Re.in_cls Re.Space) ?ws = true |- _ => exists ws, rest
  end.
  repeat split; try assumption.
  now rewrite ?append_empty_r, !append_assoc.
Qed.

Lemma pattern_of_finds (f : limit_form) (pos : nat) (s n : string) :
  form_ok f ->
  begins_with f s n ->
  exists m,
    Re.match_here false (pattern_of f) pos s = Some m /\ Re.group 1 m = n.
Proof.
  destruct f as [w|w]; intros Hw.
  - apply word_then_number_finds.
  - now apply number_then_word_finds.
Qed.

Lemma pattern_of_found (f : limit_form) (pos : nat) (s : string)
  (m : Re.rmatch) :
  Re.match_here false (pattern_of f) pos s = Some m ->
  begins_with f s (Re.group 1 m).
Proof.
  destruct f as [w|w];
    [apply word_then_number_found | apply number_then_word_found].
Qed.

(** [between\s+(date)\s+and\s+(date)] *)
Lemma run_iso_date (d r : string) (caps : list string) (kont : Re.cont) :
  is_iso_date d = true ->
  Re.run false iso_date (d ++ r) caps kont = kont r (caps ++ [d])%list.
Proof.
  intros H. unfold is_iso_date in H.
  destruct d as [|y1 [|y2 [|y3 [|y4 [|h1 [|m1 [|m2 [|h2 [|d1 [|d2 [|x d]]]]]]]]]]];
    try discriminate H.
  cbn [list_ascii_of_string forallb] in H.
  rewrite !andb_true_iff in H.
  destruct H as [[(Y1 & Y2 & Y3 & Y4 & M1 & M2 & D1 & D2 & _) H1] H2].
  apply Ascii.eqb_eq in H1, H2. subst h1 h2.
  assert (Hc : Re.consumed
                 (String y1 (String y2 (String y3 (String y4 (String "-"
                    (String m1 (String m2 (String "-" (String d1
                       (String d2 EmptyString))))))))) ++ r) r
               = String y1 (String y2 (String y3 (String y4 (String "-"
                   (String m1 (String m2 (String "-" (String d1
                      (String d2 EmptyString))))))))))
    by apply consumed_app.
  unfold iso_date, Re.seq.
  cbn [fold_right Re.rep Re.run append Re.in_cls Re.chr_eq].
  rewrite Y1, Y2, Y3, Y4, M1, M2, D1, D2, !Ascii.eqb_refl.
  cbn [append] in Hc. now rewrite Hc.
Qed.

Lemma stops_date (d rest : string) :
  is_iso_date d = true -> stops Re.Space (d ++ rest).
Proof.
  intros H. unfold is_iso_date in H. destruct d as [|c d]; [discriminate|].
  simpl. apply digit_not_space.
  destruct d as [|y2 [|y3 [|y4 [|h1 [|m1 [|m2 [|h2 [|d1 [|d2 [|x d]]]]]]]]]];
    try discriminate H.
  cbn [list_ascii_of_string forallb] in H.
  rewrite !andb_true_iff in H. tauto.
Qed.

Lemma date_range_finds (pos : nat) (s : string) (dates : string * string) :
  begins_with_range s dates ->
  exists m,
    Re.match_here false date_range_pattern pos s = Some m
    /\ dates_of m = dates.
Proof.
  destruct dates as [d1 d2].
  intros (ws1 & ws2 & ws3 & rest & -> & H1 & H2 & H3 & Hd1 & Hd2).
  cbn [fst snd] in *.
  unfold Re.match_here, date_range_pattern, Re.seq.
  cbn [fold_right Re.run]. rewrite run_lit.
  rewrite (plus_greedy_all Re.Space ws1 _ _ (rest, [d1; d2]));
    [ eexists; split; [reflexivity | reflexivity]
    | exact (proj1 H1) | exact (proj2 H1) | now apply stops_date | ].
  rewrite run_iso_date by exact Hd1.
  apply plus_greedy_all;
    [exact (proj1 H2) | exact (proj2 H2) | now apply stops_word |].
  rewrite run_lit.
  apply plus_greedy_all;
    [exact (proj1 H3) | exact (proj2 H3) | now apply stops_date |].
  now rewrite run_iso_date by exact Hd2.
Qed.

Lemma date_range_found (pos : nat) (s : string) (m : Re.rmatch) :
  Re.match_here false date_range_pattern pos s = Some m ->
  begins_with_range s (dates_of m).
Proof.
  intros H. apply match_here_shape in H as (a & rest & -> & Hm).
  unfold dates_of, Re.group. destruct m as [st tx gs].
  cbn [Re.m_groups] in *.
  unfold date_range_pattern, iso_date, Re.seq in Hm.
  cbn [fold_right Re.rep] in Hm.
  read_pattern. unfold begins_with_range.
  cbn [app nth Nat.sub fst snd]. cbn [Re.in_cls] in *.
  rewrite ?append_empty_r, !append_assoc.
  eexists _, _, _, rest. split; [reflexivity|].
  repeat split; try assumption.
  - unfold is_iso_date. cbn [append list_ascii_of_string forallb].
    repeat match goal with
           | Hd : is_digit _ = true |- _ => rewrite Hd; clear Hd
           end.
    reflexivity.
  - unfold is_iso_date. cbn [append list_ascii_of_string forallb].
    repeat match goal with
           | Hd : is_digit _ = true |- _ => rewrite Hd; clear Hd
           end.
    reflexivity.
Qed.

Lemma first_place_somewhere {A : Type} (begins : string -> A -> Prop)
  (text : string) (a : A) :
  first_place begins text a -> somewhere begins text.
Proof. intros (pre & s & Ht & Hb & _). now exists pre, s, a. Qed.

(** The loop of [_extract_limit] over its patterns. *)
Lemma first_match_first_form (text : string) (before : list limit_form)
  (f : limit_form) (after : list limit_form) (n : string) :
  Forall form_ok (before ++ f :: after) ->
  Forall (fun f' => ~ somewhere (begins_with f') text) before ->
  first_place (begins_with f) text n ->
  exists m,
    first_match (map pattern_of (before ++ f :: after)) text = Some m
    /\ Re.group 1 m = n.
Proof.
  intros Hok Hb Hf. induction before as [|f' before IH]; cbn [app map first_match].
  - inversion Hok as [|? ? Hf0 _]; subst.
    destruct (search_first_place (pattern_of f) (Re.group 1) (begins_with f)
                (fun pos s a => pattern_of_finds f pos s a Hf0)
                (pattern_of_found f) text n Hf) as (m & -> & Hm).
    now exists m.
  - inversion Hok as [|? ? Hf0 Hok']; subst.
    inversion Hb as [|? ? Hn Hb']; subst.
    apply (search_none_nowhere (pattern_of f') (Re.group 1) (begins_with f')
             (fun pos s a => pattern_of_finds f' pos s a Hf0)
             (pattern_of_found f')) in Hn.
    rewrite Hn. now apply IH.
Qed.

Lemma first_match_no_form (text : string) (forms : list limit_form) :
  Forall form_ok forms ->
  Forall (fun f => ~ somewhere (begins_with f) text) forms ->
  first_match (map pattern_of forms) text = None.
Proof.
  induction 1 as [|f forms Hf _ IH]; intros Hn; [reflexivity|].
  inversion Hn as [|? ? Hn0 Hn']; subst. cbn [map first_match].
  apply (search_none_nowhere (pattern_of f) (Re.group 1) (begins_with f)
           (fun pos s a => pattern_of_finds f pos s a Hf)
           (pattern_of_found f)) in Hn0.
  rewrite Hn0. now apply IH.
Qed.

Lemma first_match_cases (text : string) (forms : list limit_form) :
  Forall form_ok forms ->
  match first_match (map pattern_of forms) text with
  | Some m =>
      exists before f after,
        forms = (before ++ f :: after)%list
        /\ Forall (fun f' => ~ somewhere (begins_with f') text) before
        /\ first_place (begins_with f) text (Re.group 1 m)
  | None => Forall (fun f => ~ somewhere (begins_with f) text) forms
  end.
Proof.
  induction 1 as [|f forms Hf _ IH]; cbn [map first_match]; [constructor|].
  destruct (Re.search false (pattern_of f) text) as [m|] eqn:E.
  - exists [], f, forms. repeat split; [constructor|].
    exact (search_some_first_place (pattern_of f) (Re.group 1) (begins_with f)
             (fun pos s a => pattern_of_finds f pos s a Hf)
             (pattern_of_found f) text m E).
  - apply (search_none_nowhere (pattern_of f) (Re.group 1) (begins_with f)
             (fun pos s a => pattern_of_finds f pos s a Hf)
             (pattern_of_found f)) in E.
    destruct (first_match (map pattern_of forms) text) as [m|].
    + destruct IH as (before & f0 & after & -> & Hb & Hp).
      exists (f :: before), f0, after. repeat split; [|exact Hp].
      now constructor.
    + now constructor.
Qed.

End Phrases.

(* ------------------------------------------------------------------ *)
(** ** Time condition *)

Lemma filtered_nonempty (text : string) (d : dict string) :
  Forall (fun kv => snd kv <> EmptyString) d ->
  Forall (fun x => x <> EmptyString)
         (map snd (filter (fun kv => contains (fst kv) text) d)).
Proof.
  induction 1 as [|kv d Hkv _ IH]; simpl; [constructor|].
  destruct (contains (fst kv) text); simpl; [constructor|]; assumption.
Qed.

(** C7: the time condition is the AND-join of the predicates of the named
    periods that occur in the lower-cased question, in the order of the
    dictionary, followed by a BETWEEN predicate on s.date when the
    question holds the word "between", a date YYYY-MM-DD, the word "and"
    and a date YYYY-MM-DD, separated by white space: the predicate is made
    of the two dates of the first such place.  Both parts can stand in one
    condition.  Without such a place the condition is the join of the
    named predicates alone, and it is empty exactly when no period occurs
    and there is no such place.  Every question falls under one of the
    two cases. *)
Theorem C7_time_condition (key : option string) (q : string) :
  let periods : dict string :=
    [("today", "date(s.date) = date('now')");
     ("yesterday", "date(s.date) = date('now', '-1 day')");
     ("this week", "strftime('%Y-%W', s.date) = strftime('%Y-%W', 'now')");
     ("last week",
      "strftime('%Y-%W', s.date) = strftime('%Y-%W', 'now', '-7 days')");
     ("this month", "strftime('%Y-%m', s.date) = strftime('%Y-%m', 'now')");
     ("last month",
      "strftime('%Y-%m', s.date) = strftime('%Y-%m', 'now', '-1 month')");
     ("this year", "strftime('%Y', s.date) = strftime('%Y', 'now')");
     ("last year",
      "strftime('%Y', s.date) = strftime('%Y', 'now', '-1 year')")] in
  let named :=
    map snd (filter (fun kv => contains (fst kv) (lower q)) periods) in
  let condition := _extract_time_condition (__init__ key) q in
  (forall d1 d2,
      first_place begins_with_range (lower q) (d1, d2) ->
      condition
      = join " AND "
          (named
           ++ [("s.date BETWEEN '" ++ d1 ++ "' AND '" ++ d2 ++ "'")%string])%list)
  /\ (~ somewhere begins_with_range (lower q) ->
      condition = join " AND " named)
  /\ (condition = EmptyString
      <-> named = [] /\ ~ somewhere begins_with_range (lower q))
  /\ ((exists d1 d2, first_place begins_with_range (lower q) (d1, d2))
      \/ ~ somewhere begins_with_range (lower q)).
Proof.
  intros periods named condition.
  pose proof (search_none_nowhere date_range_pattern dates_of
                begins_with_range date_range_finds date_range_found
                (lower q)) as Hnone.
  pose proof (search_first_place date_range_pattern dates_of
                begins_with_range date_range_finds date_range_found
                (lower q)) as Hfirst.
  pose proof (search_some_first_place date_range_pattern dates_of
                begins_with_range date_range_finds date_range_found
                (lower q)) as Hsome.
  assert (Heq : condition
                = join " AND "
                    (named
                     ++ match Re.search false date_range_pattern (lower q) with
                        | Some m => [("s.date BETWEEN '" ++ Re.group 1 m
                                      ++ "' AND '" ++ Re.group 2 m
                                      ++ "'")%string]
                        | None => []
                        end)%list).
  { unfold condition, _extract_time_condition. cbn [time_patterns __init__].
    rewrite all_in_filter. fold periods. fold named.
    destruct (Re.search false date_range_pattern (lower q)) as [m|].
    - now destruct (named ++ _)%list.
    - rewrite app_nil_r. now destruct named. }
  assert (Hnamed : Forall (fun x => x <> EmptyString) named).
  { apply filtered_nonempty. unfold periods.
    repeat constructor; discriminate. }
  destruct (Re.search false date_range_pattern (lower q)) as [m|] eqn:E.
  - assert (Hs : somewhere begins_with_range (lower q))
      by exact (first_place_somewhere _ _ _ (Hsome m eq_refl)).
    split; [|split; [|split]].
    + intros d1 d2 Hp. destruct (Hfirst _ Hp) as (m' & [= <-] & Hd).
      injection Hd as <- <-. exact Heq.
    + intros Hn. contradiction.
    + split.
      * intros H. rewrite Heq in H. apply join_empty in H.
        -- apply app_eq_nil in H as [_ H]. discriminate H.
        -- apply Forall_app. split; [exact Hnamed|].
           repeat constructor. discriminate.
      * intros [_ Hn]. contradiction.
    + left. exists (Re.group 1 m), (Re.group 2 m). exact (Hsome m eq_refl).
  - assert (Hn : ~ somewhere begins_with_range (lower q))
      by now apply Hnone.
    rewrite app_nil_r in Heq. split; [|split; [|split]].
    + intros d1 d2 Hp. elim Hn. exact (first_place_somewhere _ _ _ Hp).
    + intros _. exact Heq.
    + split.
      * intros H. rewrite Heq in H. apply join_empty in H; [|exact Hnamed].
        now split.
      * intros [Hnil _]. now rewrite Heq, Hnil.
    + now right.
Qed.

Lemma C7_time_condition_witness :
  first_place begins_with_range
    (lower "Sales today between 2024-01-01 and 2024-03-31")
    ("2024-01-01", "2024-03-31")
  /\ _extract_time_condition (__init__ None)
       "Sales today between 2024-01-01 and 2024-03-31"
     = "date(s.date) = date('now') AND s.date BETWEEN '2024-01-01' AND '2024-03-31'".
Proof.
  assert (H : first_place begins_with_range
                (lower "Sales today between 2024-01-01 and 2024-03-31")
                ("2024-01-01", "2024-03-31")).
  { exact (search_some_first_place date_range_pattern dates_of
             begins_with_range date_range_finds date_range_found
             (lower "Sales today between 2024-01-01 and 2024-03-31")
             {| Re.m_start := 12;
                Re.m_text := "between 2024-01-01 and 2024-03-31";
                Re.m_groups := ["2024-01-01"; "2024-03-31"] |}
             eq_refl). }
  split; [exact H|].
  exact (proj1 (C7_time_condition None
                  "Sales today between 2024-01-01 and 2024-03-31")
           "2024-01-01" "2024-03-31" H).
Defined.

(* ------------------------------------------------------------------ *)
(** ** Limit *)

Lemma first_match_some (patterns : list Re.regex) (text : string)
  (m : Re.rmatch) :
  first_match patterns text = Some m ->
  exists pre p post,
    patterns = (pre ++ p :: post)%list /\ Forall (silent text) pre
    /\ Re.search false p text = Some m.
Proof.
  induction patterns as [|p ps IH]; simpl; [discriminate|].
  destruct (Re.search false p text) as [m'|] eqn:E.
  - intros [= ->]. exists [], p, ps. repeat split; [constructor | exact E].
  - intros H. destruct (IH H) as (pre & p' & post & -> & Hpre & Hp).
    exists (p :: pre), p', post. repeat split; [|exact Hp].
    constructor; [exact E | exact Hpre].
Qed.

Lemma first_match_none (patterns : list Re.regex) (text : string) :
  first_match patterns text = None -> Forall (silent text) patterns.
Proof.
  induction patterns as [|p ps IH]; simpl; [constructor|].
  destruct (Re.search false p text) as [m'|] eqn:E; [discriminate|].
  intros H. constructor; [exact E | exact (IH H)].
Qed.

(** C6: the limit clause is LIMIT N for the first of the six phrases top N,
    first N, N best, N most, limit N, show N (in that order) that stands
    somewhere in the lower-cased question, N being the number of the first
    place where that phrase stands: the digits behind the word and white
    space, or the digits before white space and the word.  When none of the
    six stands in the question the clause is LIMIT 5 if one of the words
    top, best, highest, lowest occurs, and empty otherwise.  Every
    question falls under one of these cases. *)
Theorem C6_limit_extraction (key : option string) (q : string) :
  let limit := _extract_limit (__init__ key) q in
  let forms :=
    [WordNumber "top"; WordNumber "first"; NumberWord "best";
     NumberWord "most"; WordNumber "limit"; WordNumber "show"] in
  let words := ["top"; "best"; "highest"; "lowest"] in
  let missing (f : limit_form) := ~ somewhere (begins_with f) (lower q) in
  (forall before f after n,
      forms = (before ++ f :: after)%list ->
      Forall missing before ->
      first_place (begins_with f) (lower q) n ->
      limit = "LIMIT " ++ n)
  /\ (Forall missing forms ->
      (exists w, In w words /\ contains w (lower q) = true) ->
      limit = "LIMIT 5")
  /\ (Forall missing forms ->
      (forall w, In w words -> contains w (lower q) = false) ->
      limit = EmptyString)
  /\ ((exists before f after n,
          forms = (before ++ f :: after)%list
          /\ Forall missing before
          /\ first_place (begins_with f) (lower q) n)
      \/ Forall missing forms).
Proof.
  intros limit forms words missing.
  assert (Hok : Forall form_ok forms)
    by (repeat constructor; reflexivity).
  assert (Hl : limit =
               match first_match (map pattern_of forms) (lower q) with
               | Some m => "LIMIT " ++ Re.group 1 m
               | None =>
                   if existsb (fun w => contains w (lower q)) words
                   then "LIMIT 5" else EmptyString
               end) by reflexivity.
  split; [|split; [|split]].
  - intros before f after n Hf Hb Hp. rewrite Hf in Hok, Hl.
    destruct (first_match_first_form _ _ _ _ _ Hok Hb Hp) as (m & Hm & <-).
    now rewrite Hl, Hm.
  - intros Hn (w & Hw & Hc).
    rewrite Hl, (first_match_no_form _ _ Hok Hn).
    replace (existsb (fun w => contains w (lower q)) words) with true;
      [reflexivity|].
    symmetry. apply existsb_exists. now exists w.
  - intros Hn Hw.
    rewrite Hl, (first_match_no_form _ _ Hok Hn).
    destruct (existsb (fun w => contains w (lower q)) words) eqn:E;
      [|reflexivity].
    apply existsb_exists in E as (w & Hin & Hc).
    now rewrite (Hw w Hin) in Hc.
  - pose proof (first_match_cases (lower q) forms Hok) as H.
    destruct (first_match (map pattern_of forms) (lower q)) as [m|].
    + left. destruct H as (before & f & after & Hf & Hb & Hp).
      now exists before, f, after, (Re.group 1 m).
    + now right.
Qed.

Lemma C6_limit_extraction_witness :
  first_place (begins_with (WordNumber "top"))
    (lower "Show me the Top 3 products") "3"
  /\ _extract_limit (__init__ None) "Show me the Top 3 products" = "LIMIT 3".
Proof.
  assert (H : first_place (begins_with (WordNumber "top"))
                (lower "Show me the Top 3 products") "3").
  { exact (search_some_first_place (pattern_of (WordNumber "top"))
             (Re.group 1) (begins_with (WordNumber "top"))
             (fun pos s a => pattern_of_finds (WordNumber "top") pos s a I)
             (pattern_of_found (WordNumber "top"))
             (lower "Show me the Top 3 products")
             {| Re.m_start := 12; Re.m_text := "top 3";
                Re.m_groups := ["3"] |}
             eq_refl). }
  split; [exact H|].
  exact (proj1 (C6_limit_extraction None "Show me the Top 3 products")
           [] (WordNumber "top")
           [WordNumber "first"; NumberWord "best"; NumberWord "most";
            WordNumber "limit"; WordNumber "show"]
           "3" eq_refl (Forall_nil _) H).
Defined.

(* ------------------------------------------------------------------ *)
(** ** Validation *)

Lemma scan_unavailable_filter (text : string) (terms : list (string * string))
  (a b : list string) :
  scan_unavailable text terms (a, b)
  = ((a ++ map fst (filter (fun ts => contains (fst ts) text) terms))%list,
     (b ++ map snd (filter (fun ts => contains (fst ts) text) terms))%list).
Proof.
  unfold scan_unavailable. revert a b.
  induction terms as [|[t s] terms IH]; intros a b; simpl.
  - now rewrite !app_nil_r.
  - destruct (contains t text); simpl; rewrite IH; [|reflexivity].
    now rewrite <- !app_assoc.
Qed.

Lemma combine_fst_snd {A B : Type} (l : list (A * B)) :
  combine (map fst l) (map snd l) = l.
Proof. induction l as [|[a b] l IH]; simpl; [reflexivity | now rewrite IH]. Qed.

Lemma validate_invalid (self : QueryGenerator) (q : string) :
  matched_terms (lower q) <> [] ->
  _validate_query self q
  = Ok (false,
        "Cannot process query with "
        ++ join ", " (map fst (matched_terms (lower q))) ++ ". "
        ++ join " " (map snd (matched_terms (lower q))) ++ ". Try: '"
        ++ fold_left
             (fun alt ts =>
                replace (fst ts) (_get_alternative_term self (fst ts)) alt)
             (matched_terms (lower q)) (lower q)
        ++ "'",
        None).
Proof.
  intros Hne. unfold _validate_query.
  rewrite !scan_unavailable_filter. cbn [app].
  rewrite <- !map_app, <- filter_app.
  fold unavailable_terms. fold (matched_terms (lower q)).
  unfold rewrite_question. rewrite combine_fst_snd.
  destruct (matched_terms (lower q)) as [|ts l] eqn:E; [congruence|].
  reflexivity.
Qed.

Lemma validate_valid (self : QueryGenerator) (q : string) :
  matched_terms (lower q) = [] ->
  _validate_query self q
  = (metric <- _extract_metric self (lower q) ;;
     Ok (true, EmptyString,
         Some {| c_metric := metric;
                 c_dimension := _extract_dimension self (lower q);
                 c_time_period := _extract_time_condition self (lower q);
                 c_filters := _extract_comparison self (lower q);
                 c_grouping := _extract_grouping self (lower q);
                 c_sorting := _extract_sorting self (lower q);
                 c_limit := _extract_limit self (lower q) |})).
Proof.
  intros He. unfold _validate_query.
  rewrite !scan_unavailable_filter. cbn [app].
  rewrite <- !map_app, <- filter_app.
  fold unavailable_terms. fold (matched_terms (lower q)).
  now rewrite He.
Qed.

Lemma unavailable_terms_lower (term : string) :
  In term (map fst unavailable_terms) -> lower term = term.
Proof.
  intros H. vm_compute in H.
  repeat (destruct H as [<- | H]; [vm_compute; reflexivity|]).
  destruct H.
Qed.

Lemma contains_join_head (t sep x : string) (l : list string) :
  contains t x = true -> contains t (join sep (x :: l)) = true.
Proof.
  intros H. destruct l as [|y l]; [exact H|].
  rewrite join_cons by discriminate. now apply contains_app_l.
Qed.



(* ------------------------------------------------------------------ *)
(** ** SQL assembly *)

Lemma extract_metric_ok (key : option string) (text : string) :
  exists m, _extract_metric (__init__ key) text = Ok m.
Proof.
  unfold _extract_metric.
  destruct (first_in text (metrics (__init__ key))) as [m|];
    [now exists m | eexists; reflexivity].
Qed.

(** A question without unavailable term reaches line 515 and stops there. *)
Lemma rule_based_valid (key : option string) (q : string) :
  matched_terms (lower q) = [] ->
  _generate_sql_rule_based (__init__ key) q = Raise (NameError "metric").
Proof.
  intros H. unfold _generate_sql_rule_based.
  rewrite (validate_valid _ _ H).
  destruct (extract_metric_ok key (lower q)) as [m ->].
  cbn [bind negb].
  destruct (_extract_grouping (__init__ key) q) as [group_by joins].
  destruct (_extract_sorting (__init__ key) q) as [sort_field sort_direction].
  reflexivity.
Qed.

Lemma rule_based_invalid (key : option string) (q : string) :
  matched_terms (lower q) <> [] ->
  exists suggestion,
    _generate_sql_rule_based (__init__ key) q = Raise (ValueError suggestion).
Proof.
  intros H. unfold _generate_sql_rule_based.
  rewrite (validate_invalid _ _ H). cbn [bind negb].
  eexists; reflexivity.
Qed.

(** No question makes [_generate_sql_rule_based] return a text. *)
Lemma rule_based_never_returns (key : option string) (q sql : string) :
  _generate_sql_rule_based (__init__ key) q <> Ok sql.
Proof.
  destruct (matched_terms (lower q)) as [|ts l] eqn:E.
  - rewrite (rule_based_valid key q E). discriminate.
  - destruct (rule_based_invalid key q) as [s ->]; [|discriminate].
    rewrite E. discriminate.
Qed.

(** The WHERE clause as lines 506-511 build it. *)
Lemma where_clause_absent (time_condition : string) (comparisons : list string) :
  where_clause_of (where_conditions_of time_condition comparisons)
  = EmptyString
  <-> time_condition = EmptyString /\ comparisons = [].
Proof.
  unfold where_conditions_of.
  destruct time_condition as [|c t]; cbn [truthy app].
  - destruct comparisons; cbn [where_clause_of]; split;
      [auto | auto | discriminate | intros [_ H]; discriminate H].
  - cbn [where_clause_of]. split; [discriminate | intros [H _]; discriminate H].
Qed.

Lemma where_clause_present (time_condition : string)
  (comparisons : list string) :
  (time_condition <> EmptyString \/ comparisons <> []) ->
  where_clause_of (where_conditions_of time_condition comparisons)
  = "WHERE "
    ++ join " AND "
         (if truthy time_condition then time_condition :: comparisons
          else comparisons).
Proof.
  unfold where_conditions_of.
  destruct time_condition as [|c t]; cbn [truthy app].
  - destruct comparisons; [intros [H|H]; congruence | reflexivity].
  - reflexivity.
Qed.

(** C1: on the question "hello" (valid; no metric name, no time, filter,
    grouping, sort or limit keyword) validation succeeds with the default
    sales metric, yet [_generate_sql_rule_based] raises NameError for
    [metric] instead of returning the SQL text; no question at all makes it
    return a text.  Were [metric] bound to the field of the extracted
    metric, the template would give the text shown last, which writes
    [as total]. *)
Theorem C1_default_question_raises_name_error :
  _validate_query (__init__ None) "hello"
  = Ok (true, EmptyString,
        Some {| c_metric := {| field := "s.total_amount"; agg := "SUM";
                               description := "total sales amount" |};
                c_dimension := [];
                c_time_period := EmptyString;
                c_filters := [];
                c_grouping := (None, EmptyString);
                c_sorting := ("total", "DESC");
                c_limit := EmptyString |})
  /\ _generate_sql_rule_based (__init__ None) "hello"
     = Raise (NameError "metric")
  /\ (forall key q sql, _generate_sql_rule_based (__init__ key) q <> Ok sql)
  /\ sql_text "SELECT 'Total' as period" "SUM(s.total_amount)" EmptyString
       EmptyString None "DESC" EmptyString
     = "SELECT 'Total' as period, SUM(s.total_amount) as total FROM sales s ORDER BY total DESC".
Proof.
  split; [vm_compute; reflexivity|].
  split; [vm_compute; reflexivity|].
  split; [exact rule_based_never_returns|].
  vm_compute; reflexivity.
Qed.

(** C5: on the question "sales today more than 5" a time condition and a
    comparison filter are extracted, and lines 506-511 build the WHERE
    clause with the time condition first; the function then raises
    NameError for [metric], so no SQL text holds that clause. *)
Theorem C5_where_clause_not_assembled :
  let self := __init__ None in
  let q := "sales today more than 5" in
  _extract_time_condition self q = "date(s.date) = date('now')"
  /\ _extract_comparison self q = ["s.total_amount > 5"]
  /\ where_clause_of
       (where_conditions_of (_extract_time_condition self q)
                            (_extract_comparison self q))
     = "WHERE date(s.date) = date('now') AND s.total_amount > 5"
  /\ _generate_sql_rule_based self q = Raise (NameError "metric").
Proof. repeat split; vm_compute; reflexivity. Qed.

(* ------------------------------------------------------------------ *)
(** ** Explanation *)

Lemma headed_app (a b : list string) :
  headed a -> headed b -> headed (a ++ b)%list.
Proof. destruct a; simpl; auto. Qed.

Lemma explanation_parts_headed (sql_query : string) :
  headed (explanation_parts sql_query).
Proof.
  unfold explanation_parts. repeat apply headed_app.
  - unfold select_part.
    destruct (Re.search true select_pattern sql_query) as [m|]; [|exact I].
    repeat (match goal with
            | |- headed (if ?b then _ else _) => destruct b
            end; [reflexivity|]).
    exact I.
  - unfold group_part. destruct (contains "GROUP BY" sql_query); [|exact I].
    destruct (Re.search true group_pattern sql_query); [reflexivity | exact I].
  - unfold where_part. destruct (contains "WHERE" sql_query); [|exact I].
    destruct (Re.search true where_pattern sql_query); [reflexivity | exact I].
  - unfold order_part. destruct (contains "ORDER BY" sql_query); [|exact I].
    destruct (contains "DESC" sql_query); reflexivity.
  - unfold limit_part. destruct (contains "LIMIT" sql_query); [|exact I].
    destruct (Re.search true limit_pattern sql_query); [reflexivity | exact I].
Qed.

Lemma join_head (sep x : string) (l : list string) :
  exists y, join sep (x :: l) = x ++ y.
Proof.
  destruct l as [|z l].
  - exists EmptyString. simpl. now rewrite append_empty_r.
  - exists (sep ++ join sep (z :: l)). reflexivity.
Qed.

Lemma explain_query_text (self : QueryGenerator) (sql_query : string) :
  explain_query self sql_query
  = join " " (explanation_parts sql_query) ++ ".".
Proof. reflexivity. Qed.

(** On a text the [except] branch is never taken: the generic sentence is
    not a value of [explain_query]. *)
Lemma explain_query_never_generic (self : QueryGenerator) (sql_query : string) :
  explain_query self sql_query <> generic_sentence.
Proof.
  rewrite explain_query_text.
  pose proof (explanation_parts_headed sql_query) as H.
  destruct (explanation_parts sql_query) as [|x l]; [discriminate|].
  destruct (join_head " " x l) as [y ->].
  simpl in H. unfold starts_as_part in H.
  apply existsb_exists in H as (p & Hp & Hs).
  apply startswith_inv in Hs as [b ->].
  rewrite !append_assoc.
  unfold part_starts in Hp.
  repeat (destruct Hp as [<- | Hp]; [cbn [append]; discriminate|]).
  destruct Hp.
Qed.

Lemma explain_query_no_part (self : QueryGenerator) (sql_query : string) :
  explanation_parts sql_query = [] -> explain_query self sql_query = ".".
Proof. intros H. rewrite explain_query_text, H. reflexivity. Qed.

(** C2: from the text "SELECT name FROM products" no part is extracted
    (no aggregation function, no GROUP BY, WHERE, ORDER BY or LIMIT), and
    [explain_query] returns the lone full stop, not the generic sentence;
    indeed no text makes it return the generic sentence. *)
Theorem C2_no_part_gives_full_stop :
  explanation_parts "SELECT name FROM products" = []
  /\ explain_query (__init__ None) "SELECT name FROM products" = "."
  /\ explain_query (__init__ None) "SELECT name FROM products"
     <> "This query retrieves data from the database."
  /\ (forall sql_query,
        explain_query (__init__ None) sql_query
        <> "This query retrieves data from the database.").
Proof.
  repeat split; try (vm_compute; reflexivity).
  - apply explain_query_never_generic.
  - intros sql_query. apply explain_query_never_generic.
Qed.

(* ------------------------------------------------------------------ *)
(** ** Determinism *)

Section OnStore.

Lemma computes_ext {A : Type} (m : Stateful.St A)
  (f g : QueryGenerator -> result A) :
  computes m f -> (forall o, f o = g o) -> computes m g.
Proof.
  intros H Hfg st. destruct (H st) as (new & E).
  exists new. now rewrite E, Hfg.
Qed.

Lemma computes_ret {A : Type} (a : A) :
  computes (Stateful.ret a) (fun _ => Ok a).
Proof.
  intros [o l]. exists []. unfold Stateful.ret. cbn. now rewrite app_nil_r.
Qed.

Lemma computes_this : computes Stateful.this (fun o => Ok o).
Proof.
  intros [o l]. exists []. unfold Stateful.this. cbn. now rewrite app_nil_r.
Qed.

Lemma computes_bind {A B : Type} (m : Stateful.St A)
  (k : A -> Stateful.St B)
  (f : QueryGenerator -> result A) (g : A -> QueryGenerator -> result B) :
  computes m f -> (forall a, computes (k a) (g a)) ->
  computes (Stateful.bind_st m k) (fun o => bind (f o) (fun a => g a o)).
Proof.
  intros Hm Hk st. destruct (Hm st) as (new1 & E1).
  unfold Stateful.bind_st. rewrite E1.
  destruct (f (Stateful.object st)) as [a|e]; cbn [bind].
  - destruct (Hk a {| Stateful.object := Stateful.object st;
                      Stateful.records :=
                        (Stateful.records st ++ new1)%list |})
      as (new2 & E2).
    rewrite E2. cbn [Stateful.object Stateful.records].
    exists (new1 ++ new2)%list. now rewrite app_assoc.
  - now exists new1.
Qed.

Lemma computes_call {A : Type} (f : QueryGenerator -> A) :
  computes (Stateful.bind_st Stateful.this
              (fun self => Stateful.ret (f self)))
           (fun o => Ok (f o)).
Proof.
  apply (computes_ext _ (fun o => bind (Ok o) (fun self => Ok (f self)))).
  - apply computes_bind; [apply computes_this|].
    intros self. apply computes_ret.
  - reflexivity.
Qed.

Lemma rewrite_question_computes (pairs : list (string * string)) :
  forall alternative_query,
    computes (Stateful.rewrite_question alternative_query pairs)
      (fun o =>
         Ok (fold_left
               (fun (a : string) (ts : string * string) =>
                  replace (fst ts) (_get_alternative_term o (fst ts)) a)
               pairs alternative_query)).
Proof.
  induction pairs as [|[term suggestion] pairs IH]; intros alt;
    cbn [Stateful.rewrite_question fold_left fst].
  - apply computes_ret.
  - eapply computes_ext.
    + apply computes_bind.
      * apply (computes_call (fun o => _get_alternative_term o term)).
      * intros alternative. apply IH.
    + reflexivity.
Qed.

Ltac step_through :=
  unfold Stateful._extract_metric, Stateful._extract_dimension,
    Stateful._extract_aggregation, Stateful._extract_time_condition,
    Stateful._extract_comparison, Stateful._extract_grouping,
    Stateful._extract_sorting, Stateful._extract_limit,
    Stateful.bind_st, Stateful.this, Stateful.lift, Stateful.ret,
    Stateful.raise, Stateful.logger;
  cbn [Stateful.object Stateful.records].

(** On a store, validation computes what [_validate_query] says of the
    object it finds. *)
Lemma validate_computes (query : string) :
  computes (Stateful._validate_query query)
           (fun o => _validate_query o query).
Proof.
  intros [o l]. unfold Stateful._validate_query, _validate_query.
  cbv zeta. cbn [Stateful.object Stateful.records].
  destruct (scan_unavailable (lower query) unavailable_dimensions
              (scan_unavailable (lower query) unavailable_metrics ([], [])))
    as [invalid_terms suggestions].
  destruct invalid_terms as [|t ts].
  - step_through.
    destruct (_extract_metric o (lower query)); cbn [bind];
      exists []; now rewrite app_nil_r.
  - destruct (rewrite_question_computes (combine (t :: ts) suggestions)
                (lower query) {| Stateful.object := o; Stateful.records := l |})
      as (new & E).
    unfold Stateful.bind_st. rewrite E. exists new. reflexivity.
Qed.

Lemma generate_computes (q : string) :
  computes (Stateful._generate_sql_rule_based q)
           (fun o => _generate_sql_rule_based o q).
Proof.
  intros [o l]. unfold Stateful._generate_sql_rule_based.
  unfold Stateful.bind_st at 1.
  destruct (validate_computes q
              {| Stateful.object := o; Stateful.records := l |})
    as (new & ->).
  cbn [Stateful.object Stateful.records]. unfold _generate_sql_rule_based.
  destruct (_validate_query o q) as [[[is_valid suggestion] components]|e];
    cbn [bind]; [|now exists new].
  destruct (negb is_valid).
  - step_through. eexists. now rewrite <- app_assoc.
  - step_through.
    destruct (_extract_grouping o q) as [group_by joins].
    destruct (_extract_sorting o q) as [sort_field sort_direction].
    now exists new.
Qed.

Lemma explain_computes (sql_query : string) :
  computes (Stateful.explain_query sql_query)
           (fun o => Ok (explain_query o sql_query)).
Proof.
  intros [o l]. unfold Stateful.explain_query, explain_query.
  destruct (explain_body sql_query) as [explanation|e]; step_through;
    eexists; now rewrite <- app_assoc.
Qed.

Lemma pipeline_computes (q : string) :
  computes (Stateful.pipeline q)
    (fun o =>
       sql_query <- _generate_sql_rule_based o q ;;
       Ok (sql_query, explain_query o sql_query)).
Proof.
  unfold Stateful.pipeline. eapply computes_ext.
  - apply computes_bind; [apply generate_computes|]. intros sql_query.
    apply computes_bind; [apply explain_computes|]. intros explanation.
    apply computes_ret.
  - intros o. cbv beta.
    destruct (_generate_sql_rule_based o q); reflexivity.
Qed.

Lemma computes_repeatable {A : Type} (m : Stateful.St A)
  (f : QueryGenerator -> result A) :
  computes m f -> repeatable m.
Proof.
  intros H st. destruct (H st) as (new1 & E1). rewrite E1.
  destruct (H {| Stateful.object := Stateful.object st;
                 Stateful.records := (Stateful.records st ++ new1)%list |})
    as (new2 & E2).
  rewrite E2. cbn [Stateful.object Stateful.records]. repeat split.
  intros st' Hst'. destruct (H st') as (new & E).
  rewrite E. cbn [fst]. now rewrite Hst'.
Qed.

End OnStore.


(** Two requests with the same question, one after the other: the same
    answer, although the log has grown in between. *)
Example two_requests_in_a_row :
  let st := {| Stateful.object := __init__ None; Stateful.records := [] |} in
  let q := "Show me sales with tax by region" in
  let (first, st1) := Stateful._generate_sql_rule_based q st in
  let (second, st2) := Stateful._generate_sql_rule_based q st1 in
  first = second
  /\ first = Raise (ValueError
       "Cannot process query with tax. Tax information is not available, but you can query total sales. Try: 'show me sales with total sales by region'")
  /\ length (Stateful.records st1) = 1
  /\ length (Stateful.records st2) = 2.
Proof. vm_compute. repeat split. Qed.

(* ------------------------------------------------------------------ *)
(** ** The scenarios of the specification, run on the embedding *)

Section Scenarios.

Let self : QueryGenerator := __init__ None.

(** "Show me total sales by region": grouped by c.region with the join on
    customers, the sales metric, no limit. *)
Example scenario_sales_by_region :
  _validate_query self "Show me total sales by region"
  = Ok (true, EmptyString,
        Some {| c_metric := {| field := "s.total_amount"; agg := "SUM";
                               description := "total sales amount" |};
                c_dimension := [{| dim_field := "c.region";
                                   dim_join := Some "customers c" |}];
                c_time_period := EmptyString;
                c_filters := [];
                c_grouping :=
                  (Some "c.region", "JOIN customers c ON s.customer_id = c.id");
                c_sorting := ("total", "DESC");
                c_limit := EmptyString |}).
Proof. vm_compute. reflexivity. Qed.

(** "top 5 products by revenue last month": LIMIT 5, grouped by p.name with
    the join on products, the predicate of "last month", the revenue
    metric. *)
Example scenario_top_products :
  _validate_query self "top 5 products by revenue last month"
  = Ok (true, EmptyString,
        Some {| c_metric := {| field := "s.total_amount"; agg := "SUM";
                               description := "total revenue" |};
                c_dimension := [{| dim_field := "p.name";
                                   dim_join := Some "products p" |}];
                c_time_period :=
                  "strftime('%Y-%m', s.date) = strftime('%Y-%m', 'now', '-1 month')";
                c_filters := [];
                c_grouping :=
                  (Some "p.name", "JOIN products p ON s.product_id = p.id");
                c_sorting := ("total", "DESC");
                c_limit := "LIMIT 5" |}).
Proof. vm_compute. reflexivity. Qed.

(** "what's our profit by country": rejected, both terms named and both
    replaced. *)
Example scenario_profit_by_country :
  _generate_sql_rule_based self "what's our profit by country"
  = Raise (ValueError
      "Cannot process query with profit, country. We don't have profit data, but you can query sales or revenue Country data is not available, but you can query by region. Try: 'what's our revenue by region'").
Proof. vm_compute. reflexivity. Qed.

(** The explanation of a text as the template writes it. *)
Example scenario_explanation :
  explain_query self
    "SELECT c.region, SUM(s.total_amount) as total FROM sales s JOIN customers c ON s.customer_id = c.id WHERE s.total_amount > 5 GROUP BY c.region ORDER BY total DESC LIMIT 5"
  = "This query calculates the total grouped by region filtered by s.total_amount > 5 sorted in descending order showing top 5 results.".
Proof. vm_compute. reflexivity. Qed.

(** The first pattern of the list decides, not the first match in the
    text: "show 3" comes first in the question, "top 7" first in the list. *)
Example limit_pattern_order :
  _extract_limit self "show 3 of the top 7" = "LIMIT 7".
Proof. vm_compute. reflexivity. Qed.

(** "average" holds the unavailable term "age": the question of C10 is
    turned away by validation before any metric is extracted. *)
Example average_is_unavailable :
  _generate_sql_rule_based self "average sale amount"
  = Raise (ValueError
      "Cannot process query with age. Customer age data is not available. Try: 'avercustomer sale amount'").
Proof. vm_compute. reflexivity. Qed.

End Scenarios.

(* ------------------------------------------------------------------ *)
(** ** Further properties of the extractors *)

Section Extractors.

Lemma contains_trans (t w s : string) :
  contains t w = true -> contains w s = true -> contains t s = true.
Proof.
  intros Ht Hw.
  destruct (contains_inv _ _ Ht) as (a & b & ->).
  destruct (contains_inv _ _ Hw) as (x & y & ->).
  replace (x ++ (a ++ t ++ b) ++ y) with ((x ++ a) ++ t ++ (b ++ y))
    by (rewrite !append_assoc; reflexivity).
  apply contains_intro.
Qed.

Lemma contains_absent (t w s : string) :
  contains t w = true -> contains t s = false -> contains w s = false.
Proof.
  intros Ht Hs. destruct (contains w s) eqn:E; [|reflexivity].
  rewrite (contains_trans _ _ _ Ht E) in Hs. discriminate.
Qed.

Lemma matched_terms_none (text term : string) :
  matched_terms text = [] ->
  In term (map fst unavailable_terms) -> contains term text = false.
Proof.
  intros Hm Hin. destruct (contains term text) eqn:E; [|reflexivity].
  apply in_map_iff in Hin as ([t s] & <- & Hts).
  assert (H : In (t, s) (matched_terms text))
    by (apply filter_In; split; [exact Hts | exact E]).
  rewrite Hm in H. destruct H.
Qed.

(** X1: every extractor that lower-cases its argument gives the same result on
    the raw and on the lower-cased question, so the components that
    validation returns are those that [_generate_sql_rule_based] extracts
    again from the raw question. *)
Theorem validated_components_agree (self : QueryGenerator) (q : string)
  (c : components) :
  _validate_query self q = Ok (true, EmptyString, Some c) ->
  c_time_period c = _extract_time_condition self q
  /\ c_filters c = _extract_comparison self q
  /\ c_grouping c = _extract_grouping self q
  /\ c_sorting c = _extract_sorting self q
  /\ c_limit c = _extract_limit self q.
Proof.
  intros H.
  destruct (matched_terms (lower q)) as [|ts l] eqn:E.
  - rewrite (validate_valid _ _ E) in H.
    destruct (_extract_metric self (lower q)) as [m|e]; [|discriminate].
    cbn [bind] in H. injection H as <-. cbn.
    unfold _extract_time_condition, _extract_comparison, _extract_grouping,
      _extract_sorting, _extract_limit.
    rewrite !lower_idem. repeat split; reflexivity.
  - rewrite validate_invalid in H by (rewrite E; discriminate).
    discriminate.
Qed.

Lemma validated_components_agree_witness :
  exists c,
    _validate_query (__init__ None) "Top 3 Products last month more than 5"
    = Ok (true, EmptyString, Some c)
    /\ c_limit c = "LIMIT 3"
    /\ c_limit c
       = _extract_limit (__init__ None) "Top 3 Products last month more than 5".
Proof.
  eexists. split; [vm_compute; reflexivity|].
  split; [reflexivity|].
  eapply (validated_components_agree (__init__ None)
            "Top 3 Products last month more than 5").
  vm_compute. reflexivity.
Defined.

(** X2: the outcome of validation and of the rule-based generator depends only
    on the lower-cased question. *)
Theorem rule_based_case_insensitive (self : QueryGenerator) (q1 q2 : string) :
  lower q1 = lower q2 ->
  _validate_query self q1 = _validate_query self q2
  /\ _generate_sql_rule_based self q1 = _generate_sql_rule_based self q2.
Proof.
  intros H.
  assert (Hv : _validate_query self q1 = _validate_query self q2)
    by (unfold _validate_query; now rewrite H).
  split; [exact Hv|].
  unfold _generate_sql_rule_based. rewrite Hv.
  unfold _extract_aggregation, _extract_grouping, _extract_time_condition,
    _extract_comparison, _extract_sorting, _extract_limit.
  now rewrite H.
Qed.

Lemma rule_based_case_insensitive_witness :
  lower "SALES by Region" = lower "sales BY region"
  /\ _validate_query (__init__ None) "SALES by Region"
     = _validate_query (__init__ None) "sales BY region".
Proof.
  split; [vm_compute; reflexivity|].
  apply (rule_based_case_insensitive (__init__ None)
           "SALES by Region" "sales BY region").
  vm_compute. reflexivity.
Defined.

(** X3: the rule-based generator raises ValueError, with the suggestion of
    validation, exactly when one of the eleven unavailable terms occurs in
    the lower-cased question, and NameError otherwise. *)
Theorem rule_based_outcome (key : option string) (q : string) :
  let terms := ["profit"; "tax"; "discount"; "returns"; "shipping"; "cost";
                "country"; "city"; "state"; "age"; "gender"] in
  ((forall t, In t terms -> contains t (lower q) = false)
   /\ _generate_sql_rule_based (__init__ key) q = Raise (NameError "metric"))
  \/ ((exists t, In t terms /\ contains t (lower q) = true)
      /\ exists suggestion,
          _validate_query (__init__ key) q = Ok (false, suggestion, None)
          /\ _generate_sql_rule_based (__init__ key) q
             = Raise (ValueError suggestion)).
Proof.
  intros terms.
  destruct (matched_terms (lower q)) as [|[t s] l] eqn:E.
  - left. split; [|now apply rule_based_valid].
    intros t Ht. now apply matched_terms_none.
  - right. split.
    + exists t. assert (H : In (t, s) (matched_terms (lower q)))
        by (rewrite E; now left).
      apply filter_In in H as [Hin Hc]. split; [|exact Hc].
      change terms with (map fst unavailable_terms).
      apply in_map_iff. now exists (t, s).
    + assert (Hne : matched_terms (lower q) <> [])
        by (rewrite E; discriminate).
      eexists. split; [apply (validate_invalid _ _ Hne)|].
      unfold _generate_sql_rule_based.
      rewrite (validate_invalid _ _ Hne). reflexivity.
Qed.

(** X4: for a question that passes validation the word "average" cannot occur
    (it holds the unavailable term "age"): the aggregation AVG and the sort
    field "average" can only come from the key "avg". *)
Theorem average_only_from_avg (key : option string) (q : string)
  (c : components) :
  _validate_query (__init__ key) q = Ok (true, EmptyString, Some c) ->
  contains "average" (lower q) = false
  /\ (_extract_aggregation (__init__ key) q = "AVG" ->
      contains "avg" (lower q) = true)
  /\ (fst (_extract_sorting (__init__ key) q) = "average" ->
      contains "avg" (lower q) = true).
Proof.
  intros H.
  assert (E : matched_terms (lower q) = []).
  { destruct (matched_terms (lower q)) as [|ts l] eqn:E; [reflexivity|].
    rewrite validate_invalid in H by (rewrite E; discriminate).
    discriminate. }
  assert (Hage : contains "age" (lower q) = false).
  { apply matched_terms_none; [exact E|]. vm_compute. tauto. }
  assert (Hav : contains "average" (lower q) = false).
  { apply (contains_absent "age"); [vm_compute; reflexivity | exact Hage]. }
  split; [exact Hav|]. split.
  - unfold _extract_aggregation. cbn [aggregations __init__ first_in].
    rewrite Hav.
    destruct (contains "total" (lower q)); [discriminate|].
    destruct (contains "count" (lower q)); [discriminate|].
    destruct (contains "minimum" (lower q)); [discriminate|].
    destruct (contains "maximum" (lower q)); [discriminate|].
    destruct (contains "sum" (lower q)); [discriminate|].
    destruct (contains "avg" (lower q)); [reflexivity|].
    destruct (contains "min" (lower q)); [discriminate|].
    destruct (contains "max" (lower q)); discriminate.
  - unfold _extract_sorting. cbn [fst]. rewrite Hav.
    destruct (contains "quantity" (lower q) || contains "units" (lower q))%bool;
      [discriminate|].
    cbn [orb]. destruct (contains "avg" (lower q)); [reflexivity | discriminate].
Qed.

Lemma average_only_from_avg_witness :
  exists c,
    _validate_query (__init__ None) "avg sales by region"
    = Ok (true, EmptyString, Some c)
    /\ contains "average" (lower "avg sales by region") = false.
Proof.
  eexists. split; [vm_compute; reflexivity|].
  eapply (average_only_from_avg None "avg sales by region").
  vm_compute. reflexivity.
Defined.

End Extractors.

(* ------------------------------------------------------------------ *)
(** ** Grouping and joins *)

Section Grouping.

Ltac split_ifs :=
  repeat match goal with
         | |- context [if ?b then _ else _] =>
             let E := fresh "E" in destruct b eqn:E; cbn [falsy truthy negb app]
         end.

(** X5: the grouping field is [None] or one of seven expressions, and the join
    clause is the one join that the alias of the field needs: the join on
    customers for c.region and c.name, the join on products for p.name and
    p.category, and none for the groupings by date and for no grouping. *)
Theorem grouping_join_invariant (self : QueryGenerator) (q : string) :
  In (_extract_grouping self q)
     [(None, EmptyString);
      (Some "c.region", "JOIN customers c ON s.customer_id = c.id");
      (Some "p.name", "JOIN products p ON s.product_id = p.id");
      (Some "p.category", "JOIN products p ON s.product_id = p.id");
      (Some "c.name", "JOIN customers c ON s.customer_id = c.id");
      (Some "date(s.date)", EmptyString);
      (Some "strftime('%Y-%m', s.date)", EmptyString);
      (Some "strftime('%Y', s.date)", EmptyString)].
Proof.
  unfold _extract_grouping. split_ifs; cbn; tauto.
Qed.

(** When no grouping is selected, none of the words occurs. *)
Lemma grouping_none_absent (self : QueryGenerator) (q : string) :
  fst (_extract_grouping self q) = None ->
  Forall (fun w => contains w (lower q) = false)
         ["region"; "product"; "item"; "category"; "customer";
          "by date"; "per date"; "by month"; "per month";
          "by year"; "per year"].
Proof.
  unfold _extract_grouping. split_ifs; cbn [fst]; try discriminate.
  intros _.
  repeat match goal with
         | H : (_ || _)%bool = false |- _ =>
             apply orb_false_iff in H; destruct H
         end.
  repeat constructor; assumption.
Qed.

(** X6: no grouping is selected exactly when none of the words region,
    product, item, category, customer occurs in the lower-cased question
    and none of the phrases by/per date, month, year occurs. *)
Theorem grouping_none_iff (self : QueryGenerator) (q : string) :
  fst (_extract_grouping self q) = None
  <-> Forall (fun w => contains w (lower q) = false)
        ["region"; "product"; "item"; "category"; "customer";
         "by date"; "per date"; "by month"; "per month";
         "by year"; "per year"].
Proof.
  split.
  - apply grouping_none_absent.
  - intros H.
    repeat match goal with
           | H : Forall _ (_ :: _) |- _ =>
               let a := fresh "A" in
               apply Forall_cons_iff in H; destruct H as [a H]
           end.
    assert (R1 : contains "by region" (lower q) = false)
      by (apply (contains_absent "region"); [vm_compute; reflexivity | assumption]).
    assert (R2 : contains "per region" (lower q) = false)
      by (apply (contains_absent "region"); [vm_compute; reflexivity | assumption]).
    assert (P1 : contains "by product" (lower q) = false)
      by (apply (contains_absent "product"); [vm_compute; reflexivity | assumption]).
    assert (P2 : contains "per product" (lower q) = false)
      by (apply (contains_absent "product"); [vm_compute; reflexivity | assumption]).
    assert (P3 : contains "by item" (lower q) = false)
      by (apply (contains_absent "item"); [vm_compute; reflexivity | assumption]).
    assert (C1 : contains "by category" (lower q) = false)
      by (apply (contains_absent "category"); [vm_compute; reflexivity | assumption]).
    assert (C2 : contains "per category" (lower q) = false)
      by (apply (contains_absent "category"); [vm_compute; reflexivity | assumption]).
    assert (U1 : contains "by customer" (lower q) = false)
      by (apply (contains_absent "customer"); [vm_compute; reflexivity | assumption]).
    assert (U2 : contains "per customer" (lower q) = false)
      by (apply (contains_absent "customer"); [vm_compute; reflexivity | assumption]).
    unfold _extract_grouping.
    repeat match goal with
           | Hc : contains _ (lower q) = false |- _ => rewrite Hc; clear Hc
           end.
    reflexivity.
Qed.

(** X7: without grouping, the only dimension that [_extract_dimension] can
    have found in the lower-cased question is the date. *)
Theorem no_grouping_only_date_dimension (self : QueryGenerator) (q : string) :
  fst (_extract_grouping self q) = None ->
  _extract_dimension self (lower q) = []
  \/ _extract_dimension self (lower q)
     = [{| dim_field := "s.date"; dim_join := None |}].
Proof.
  intros H. apply grouping_none_absent in H.
  repeat match goal with
         | H : Forall _ (_ :: _) |- _ =>
             let a := fresh "A" in
             apply Forall_cons_iff in H; destruct H as [a H]
         end.
  unfold _extract_dimension, dimension_keywords. cbn [all_in].
  repeat match goal with
         | Hc : contains _ (lower q) = false |- _ => rewrite ?Hc; clear Hc
         end.
  destruct (contains "date" (lower q)); [right | left]; reflexivity.
Qed.

Lemma no_grouping_only_date_dimension_witness :
  fst (_extract_grouping (__init__ None) "sales on each date") = None
  /\ (_extract_dimension (__init__ None) (lower "sales on each date") = []
      \/ _extract_dimension (__init__ None) (lower "sales on each date")
         = [{| dim_field := "s.date"; dim_join := None |}]).
Proof.
  split; [vm_compute; reflexivity|].
  apply (no_grouping_only_date_dimension (__init__ None) "sales on each date").
  vm_compute. reflexivity.
Defined.

End Grouping.

(* ------------------------------------------------------------------ *)
(** ** Comparison filters and the limit clause *)

Section Filters.

Lemma finditer_at_sound (ic : bool) (r : Re.regex) (s : string) :
  forall (skip pos : nat) (m : Re.rmatch),
    In m (Re.finditer_at ic r skip pos s) ->
    exists rest, matches ic r (Re.m_text m) rest (Re.m_groups m).
Proof.
  induction s as [|c s IH]; intros skip pos m; destruct skip as [|n]; simpl.
  - destruct (Re.match_here ic r pos EmptyString) as [m'|] eqn:E;
      [|intros []].
    intros [<-|[]]. apply match_here_sound in E as (rest & _ & H & _).
    now exists rest.
  - intros [].
  - destruct (Re.match_here ic r pos (String c s)) as [m'|] eqn:E.
    + intros [<-|H]; [|exact (IH _ _ _ H)].
      apply match_here_sound in E as (rest & _ & H & _). now exists rest.
    + apply IH.
  - apply IH.
Qed.

Lemma comparison_pattern_shape (comp_key a rest : string) (g : list string) :
  matches false (comparison_pattern comp_key) a rest g ->
  exists v, g = [v] /\ is_decimal v.
Proof.
  intros H. unfold comparison_pattern, Re.seq in H. cbn [fold_right] in H.
  repeat match goal with
         | H : matches false (Re.lit _) _ _ _ |- _ =>
             apply matches_lit in H; destruct H; subst
         | H : matches _ (Re.Cat _ _) _ _ _ |- _ => inversion H; subst; clear H
         | H : matches _ (Re.Grp _) _ _ _ |- _ => inversion H; subst; clear H
         | H : matches _ (Re.Plus _) _ _ _ |- _ => inversion H; subst; clear H
         | H : matches _ (Re.Opt _) _ _ _ |- _ => inversion H; subst; clear H
         | H : matches _ (Re.Chr _) _ _ _ |- _ => inversion H; subst; clear H
         | H : matches _ Re.Eps _ _ _ |- _ => inversion H; subst; clear H
         | H : Re.chr_eq false _ _ = true |- _ =>
             unfold Re.chr_eq in H; apply Ascii.eqb_eq in H; subst
         end; cbn [app]; eexists; (split; [reflexivity|]).
  - right. do 2 eexists. repeat split; eauto.
  - left. rewrite append_empty_r. now split.
Qed.

(** Every filter starts with the field of the question. *)
Lemma comparison_filter_field (self : QueryGenerator) (q f : string) :
  In f (_extract_comparison self q) ->
  startswith (comparison_field (lower q) ++ " ") f = true.
Proof.
  intros H. unfold _extract_comparison in H.
  apply in_flat_map in H as ([k op] & _ & H).
  apply in_map_iff in H as (m & <- & _).
  rewrite <- append_assoc. apply startswith_app.
Qed.

(** X8: every filter that [_extract_comparison] returns is made of one of the
    four fields (the same for all filters of a question: s.quantity when
    "quantity" or "units" occurs, else p.price for "price", else p.stock
    for "stock", else s.total_amount), one of the six operators, and a
    numeric literal of the question: digits, possibly a dot and digits. *)
Theorem comparison_filters_wellformed (key : option string) (q f : string) :
  In f (_extract_comparison (__init__ key) q) ->
  let field :=
    if (contains "quantity" (lower q) || contains "units" (lower q))%bool
    then "s.quantity"
    else if contains "price" (lower q) then "p.price"
    else if contains "stock" (lower q) then "p.stock"
    else "s.total_amount" in
  exists op v,
    In op [">"; "<"; "="; "!="; ">="; "<="]
    /\ is_decimal v
    /\ f = field ++ " " ++ op ++ " " ++ v.
Proof.
  intros H field. unfold _extract_comparison in H.
  apply in_flat_map in H as ([k op] & Hk & H).
  apply in_map_iff in H as (m & <- & Hm).
  apply finditer_at_sound in Hm as (rest & Hm).
  apply comparison_pattern_shape in Hm as (v & Hg & Hv).
  exists op, v. split; [|split; [exact Hv|]].
  - cbn [comparisons __init__ In] in Hk.
    repeat (destruct Hk as [[= <- <-]|Hk]; [cbn; tauto|]). destruct Hk.
  - unfold Re.group. rewrite Hg. reflexivity.
Qed.

Lemma comparison_filters_wellformed_witness :
  In "s.quantity >= 2.5"
     (_extract_comparison (__init__ None) "Quantity at least 2.5")
  /\ exists op v,
      In op [">"; "<"; "="; "!="; ">="; "<="] /\ is_decimal v
      /\ "s.quantity >= 2.5" = "s.quantity" ++ " " ++ op ++ " " ++ v.
Proof.
  assert (H : In "s.quantity >= 2.5"
                (_extract_comparison (__init__ None) "Quantity at least 2.5"))
    by (vm_compute; tauto).
  split; [exact H|].
  exact (comparison_filters_wellformed None "Quantity at least 2.5" _ H).
Defined.

(** X9: a question that mentions "price" (and neither "quantity" nor "units")
    but none of "product", "item", "category" gets filters on the alias p
    while grouping adds no join on products: the filters name a table that
    the assembled FROM clause would not hold. *)
Theorem price_filter_without_join (key : option string) (q : string) :
  contains "price" (lower q) = true ->
  Forall (fun w => contains w (lower q) = false)
         ["quantity"; "units"; "product"; "item"; "category"] ->
  (forall f, In f (_extract_comparison (__init__ key) q) ->
             startswith "p.price " f = true)
  /\ contains "products p" (snd (_extract_grouping (__init__ key) q)) = false.
Proof.
  intros Hp H.
  repeat match goal with
         | H : Forall _ (_ :: _) |- _ =>
             let a := fresh "A" in
             apply Forall_cons_iff in H; destruct H as [a H]
         end.
  split.
  - intros f Hf. apply comparison_filter_field in Hf.
    unfold comparison_field in Hf. rewrite A, A0, Hp in Hf. exact Hf.
  - assert (P1 : contains "by product" (lower q) = false)
      by (apply (contains_absent "product"); [vm_compute; reflexivity | assumption]).
    assert (P2 : contains "per product" (lower q) = false)
      by (apply (contains_absent "product"); [vm_compute; reflexivity | assumption]).
    assert (P3 : contains "by item" (lower q) = false)
      by (apply (contains_absent "item"); [vm_compute; reflexivity | assumption]).
    assert (C1 : contains "by category" (lower q) = false)
      by (apply (contains_absent "category"); [vm_compute; reflexivity | assumption]).
    assert (C2 : contains "per category" (lower q) = false)
      by (apply (contains_absent "category"); [vm_compute; reflexivity | assumption]).
    unfold _extract_grouping.
    rewrite P1, P2, P3, C1, C2, A1, A2, A3.
    repeat match goal with
           | |- context [if ?b then _ else _] =>
               destruct b; cbn [falsy truthy negb app orb]
           end; vm_compute; reflexivity.
Qed.

Lemma price_filter_without_join_witness :
  _extract_comparison (__init__ None) "sales with price more than 100"
  = ["p.price > 100"]
  /\ contains "products p"
       (snd (_extract_grouping (__init__ None)
               "sales with price more than 100")) = false.
Proof.
  split; [vm_compute; reflexivity|].
  apply (price_filter_without_join None "sales with price more than 100").
  - vm_compute. reflexivity.
  - repeat constructor.
Defined.

(** X10: the limit clause is empty or the word LIMIT followed by a run of
    digits, and it is not empty when one of the words top, best, highest,
    lowest occurs in the lower-cased question. *)
Theorem limit_clause_format (self : QueryGenerator) (q : string) :
  (_extract_limit self q = EmptyString
   \/ exists n, is_number n /\ _extract_limit self q = "LIMIT " ++ n)
  /\ ((exists w, In w ["top"; "best"; "highest"; "lowest"]
                 /\ contains w (lower q) = true) ->
      _extract_limit self q <> EmptyString).
Proof.
  unfold _extract_limit.
  destruct (first_match limit_patterns (lower q)) as [m|] eqn:E.
  - split; [|discriminate].
    right. exists (Re.group 1 m). split; [|reflexivity].
    destruct (first_match_some _ _ _ E) as (pre & p & post & H1 & _ & H3).
    assert (Hp : In p limit_patterns) by (rewrite H1; apply in_elt).
    unfold limit_patterns in Hp. cbn [In] in Hp.
    destruct Hp as [<-|[<-|[<-|[<-|[<-|[<-|[]]]]]]];
      first [ now apply word_then_number_shape in H3
            | now apply number_then_word_shape in H3 ].
  - destruct (existsb (fun word => contains word (lower q))
                      ["top"; "best"; "highest"; "lowest"]) eqn:Ew.
    + split; [|discriminate].
      right. exists "5". split; [|reflexivity].
      split; [discriminate | reflexivity].
    + split; [now left|].
      intros (w & Hw & Hc). exfalso.
      assert (Ht : existsb (fun word => contains word (lower q))
                     ["top"; "best"; "highest"; "lowest"] = true)
        by (apply existsb_exists; now exists w).
      congruence.
Qed.

Lemma limit_clause_format_witness :
  _extract_limit (__init__ None) "Which region has the HIGHEST sales"
  <> EmptyString.
Proof.
  apply (proj2 (limit_clause_format (__init__ None)
                  "Which region has the HIGHEST sales")).
  exists "highest". split; [cbn; tauto | vm_compute; reflexivity].
Defined.

End Filters.

(* ------------------------------------------------------------------ *)
(** ** Seeding the database *)

Section Seeding.
Import Seed.

Lemma get_setitem {V : Type} (k : string) (v : V) (d : dict V) :
  get k (setitem k v d) = Some v.
Proof.
  induction d as [|[k' v'] d IH]; simpl.
  - now rewrite String.eqb_refl.
  - destruct (String.eqb k k') eqn:E; simpl.
    + now rewrite String.eqb_refl.
    + now rewrite E.
Qed.

Lemma setitem_keys {V : Type} (k : string) (v : V) (d : dict V) :
  get k d <> None -> map fst (setitem k v d) = map fst d.
Proof.
  induction d as [|[k' v'] d IH]; simpl; [congruence|].
  destruct (String.eqb k k') eqn:E; simpl.
  - apply String.eqb_eq in E. now subst.
  - intros H. now rewrite IH.
Qed.

Lemma setitem_other {V : Type} (k k0 : string) (v : V) (d : dict V) :
  k0 <> k -> get k0 (setitem k v d) = get k0 d.
Proof.
  intros Hk. induction d as [|[k' v'] d IH]; simpl.
  - destruct (String.eqb k0 k) eqn:E; [|reflexivity].
    apply String.eqb_eq in E. contradiction.
  - destruct (String.eqb k k') eqn:E; simpl.
    + apply String.eqb_eq in E. subst k'.
      destruct (String.eqb k0 k) eqn:E0; [|reflexivity].
      apply String.eqb_eq in E0. contradiction.
    + now rewrite IH.
Qed.

Lemma to_date_date (e : env) (v w : pyval) :
  to_date e v = Done w -> exists y m d, w = VDate y m d.
Proof.
  destruct v as [s| | |]; simpl; try discriminate.
  destruct (strptime e s) as [[[y m] d]|x]; [|discriminate].
  intros [= <-]. now exists y, m, d.
Qed.

(** What the loop over [sample_sales] does to the store. *)
Lemma add_sales_store (e : env) (sales : list (dict pyval)) :
  let '(after, added, x) := add_sales e sales in
  Forall2 (fun d d' =>
             d' = d
             \/ (dated d' /\ map fst d' = map fst d
                 /\ forall k, k <> "date" -> get k d' = get k d))
          sales after
  /\ (x = None -> Forall dated after /\ length added = length sales).
Proof.
  induction sales as [|d sales IH]; simpl.
  - split; [constructor | intros _; split; [constructor | reflexivity]].
  - assert (Hsame : Forall2
              (fun d d' =>
                 d' = d
                 \/ (dated d' /\ map fst d' = map fst d
                     /\ forall k, k <> "date" -> get k d' = get k d))
              (d :: sales) (d :: sales)).
    { clear. induction (d :: sales); constructor; auto. }
    destruct (get "date" d) as [v|] eqn:Eg; [|split; [exact Hsame | discriminate]].
    destruct (to_date e v) as [w|x] eqn:Et; [|split; [exact Hsame | discriminate]].
    destruct (add_sales e sales) as [[after added] x].
    destruct IH as [IH1 IH2].
    destruct (to_date_date _ _ _ Et) as (y & m & dd & ->).
    assert (Hd : dated (setitem "date" (VDate y m dd) d))
      by (exists y, m, dd; apply get_setitem).
    split.
    + constructor; [|exact IH1]. right. split; [exact Hd|]. split.
      * apply setitem_keys. congruence.
      * intros k Hk. now apply setitem_other.
    + intros Hx. destruct (IH2 Hx) as [Ha Hl]. split.
      * constructor; assumption.
      * simpl. now rewrite Hl.
Qed.

Ltac no_commit H :=
  rewrite !in_app_iff in H; unfold say in H;
  repeat match goal with
         | H : _ \/ _ |- _ => destruct H as [H|H]
         | H : In _ (if ?b then _ else _) |- _ => destruct b
         | H : In _ (map Add _) |- _ =>
             apply in_map_iff in H; destruct H as (? & ? & _); discriminate
         | H : In _ (_ :: _) |- _ => destruct H as [H|H]; try discriminate
         | H : In _ [] |- _ => destruct H
         end.

(** The store keeps its length. *)
Lemma run_store_length (progress : bool) (e : env)
  (sales : list (dict pyval)) :
  length (store (run_init_db progress e sales)) = length sales.
Proof.
  unfold run_init_db. destruct (create_all e); [reflexivity|].
  pose proof (add_sales_store e sales) as H.
  destruct (add_sales e sales) as [[after added] x]. cbn [store].
  symmetry. exact (Forall2_length (proj1 H)).
Qed.

(** No commit when the first sale is dated. *)
Lemma blocked_no_commit (progress : bool) (e : env)
  (first : dict pyval) (rest : list (dict pyval)) :
  dated first ->
  ~ In Commit (trace (run_init_db progress e (first :: rest))).
Proof.
  intros (y & m & d & Hg). unfold run_init_db.
  destruct (create_all e).
  - cbn [trace]. unfold say.
    destruct progress; simpl; [intros [H|[]]; discriminate | tauto].
  - cbn [add_sales]. rewrite Hg. cbn [to_date type_name trace is_exception].
    intros H. no_commit H.
Qed.

(** The loop adds one object for each sale, made from the dict as the
    loop leaves it. *)
Lemma add_sales_added (e : env) (sales : list (dict pyval)) :
  let '(after, added, x) := add_sales e sales in
  x = None -> added = add_all "sales" after.
Proof.
  induction sales as [|d sales IH]; simpl; [reflexivity|].
  destruct (get "date" d) as [v|]; [|discriminate].
  destruct (to_date e v) as [w|x]; [|discriminate].
  destruct (add_sales e sales) as [[after added] x].
  intros Hx. simpl. now rewrite (IH Hx).
Qed.

Lemma added_objects_app (t1 t2 : list event) :
  added_objects (t1 ++ t2) = (added_objects t1 ++ added_objects t2)%list.
Proof. apply flat_map_app. Qed.

Lemma added_objects_adds (l : list row) : added_objects (map Add l) = l.
Proof. induction l as [|r l IH]; simpl; [reflexivity | now rewrite IH]. Qed.

Lemma added_objects_say (progress : bool) (s : string) :
  added_objects (say progress s) = [].
Proof. now destruct progress. Qed.

(** A commit means that every sale is dated. *)
Lemma commit_dated (progress : bool) (e : env) (sales : list (dict pyval)) :
  In Commit (trace (run_init_db progress e sales)) ->
  Forall dated (store (run_init_db progress e sales)).
Proof.
  unfold run_init_db. destruct (create_all e).
  - cbn [trace]. unfold say. destruct progress; simpl; intros H; [|destruct H].
    destruct H as [H|[]]. discriminate.
  - pose proof (add_sales_store e sales) as H.
    destruct (add_sales e sales) as [[after added] x].
    destruct H as [_ H]. cbn [store trace].
    destruct x as [x|].
    + intros Hin. exfalso. no_commit Hin.
    + intros _. exact (proj1 (H eq_refl)).
Qed.

(** X15: a run changes nothing in [sample_sales] but values under 'date': the
    list keeps its length, every dict its keys in their order and the
    values of the other keys, and a changed dict holds a date object. *)
Theorem init_db_store_frame (progress : bool) (e : env)
  (sales : list (dict pyval)) :
  Forall2 (fun d d' =>
             d' = d
             \/ (dated d' /\ map fst d' = map fst d
                 /\ forall k, k <> "date" -> get k d' = get k d))
          sales (store (run_init_db progress e sales)).
Proof.
  unfold run_init_db. destruct (create_all e).
  - cbn [store]. induction sales; constructor; auto.
  - pose proof (add_sales_store e sales) as H.
    destruct (add_sales e sales) as [[after added] x]. cbn [store].
    exact (proj1 H).
Qed.

(** X16: when the first sale already holds a date object, a run commits
    nothing: it stops at that sale with the TypeError of [strptime], prints
    the error, rolls back, closes the session, returns without raising and
    leaves the store as it was. *)
Theorem init_db_blocked_by_date (progress : bool) (e : env)
  (first : dict pyval) (rest : list (dict pyval)) :
  dated first ->
  create_all e = None ->
  let r := run_init_db progress e (first :: rest) in
  ~ In Commit (trace r)
  /\ In (Print "Error initializing database: strptime() argument 1 must be str, not datetime.date")
        (trace r)
  /\ In Rollback (trace r)
  /\ last (trace r) Close = Close
  /\ store r = first :: rest
  /\ raised r = None.
Proof.
  intros Hd Hc r. split; [now apply blocked_no_commit|].
  destruct Hd as (y & m & d & Hg).
  unfold r, run_init_db. rewrite Hc.
  cbn [add_sales]. rewrite Hg.
  cbn [to_date type_name store trace raised is_exception].
  repeat split.
  - rewrite !in_app_iff. do 7 right. left. now left.
  - rewrite !in_app_iff. do 7 right. left. right. now left.
  - rewrite !app_assoc. apply last_last.
Qed.

(** X17: a run that commits has turned the date of every sale into a date
    object, and the objects it gave to [db.add] are, in this order, the
    five products and the four customers of the sample data and one sale
    for each dict of [sample_sales], made from the dict as the run leaves
    it; the commit of these objects raised nothing. *)
Theorem init_db_commit_converts (progress : bool) (e : env)
  (sales : list (dict pyval)) :
  let r := run_init_db progress e sales in
  let session :=
    (add_all "products" sample_products
     ++ add_all "customers" sample_customers
     ++ add_all "sales" (store r))%list in
  In Commit (trace r) ->
  Forall dated (store r)
  /\ added_objects (trace r) = session
  /\ commit e session = None
  /\ length session = 9 + length sales.
Proof.
  intros r session Hc. split; [now apply commit_dated|].
  subst session r. revert Hc. unfold run_init_db. destruct (create_all e).
  - cbn [trace]. unfold say. destruct progress; simpl; intros H; [|destruct H].
    destruct H as [H|[]]. discriminate.
  - pose proof (add_sales_store e sales) as H.
    pose proof (add_sales_added e sales) as Ha.
    destruct (add_sales e sales) as [[after added] x].
    destruct H as [H0 _]. cbn [trace store].
    destruct x as [x|].
    + intros Hin. exfalso. no_commit Hin.
    + rewrite (Ha eq_refl).
      destruct (commit e _) as [x|] eqn:Ex.
      * intros Hin. exfalso. no_commit Hin.
      * intros _. repeat split.
        -- rewrite !added_objects_app, !added_objects_say,
             !added_objects_adds.
           cbn [app added_objects flat_map]. now rewrite !app_nil_r.
        -- rewrite !length_app. unfold add_all. rewrite !length_map.
           rewrite <- (Forall2_length H0). reflexivity.
Qed.

(** X18: two runs in one process: once a run has committed a non-empty list of
    sales, no later run commits, whatever the database layer and
    [strptime] do in it. *)
Theorem init_db_commits_once (progress1 progress2 : bool) (e1 e2 : env)
  (sales : list (dict pyval)) :
  sales <> [] ->
  In Commit (trace (run_init_db progress1 e1 sales)) ->
  ~ In Commit
      (trace (run_init_db progress2 e2
                (store (run_init_db progress1 e1 sales)))).
Proof.
  intros Hne Hc.
  pose proof (run_store_length progress1 e1 sales) as Hl.
  pose proof (commit_dated _ _ _ Hc) as Hd.
  destruct (store (run_init_db progress1 e1 sales)) as [|first rest].
  - destruct sales; [congruence | discriminate Hl].
  - inversion Hd as [|? ? Hfirst _]; subst.
    now apply blocked_no_commit.
Qed.

(* Witnesses of the three statements above, on the module's own data. *)

Lemma init_db_commit_converts_witness :
  let r := InitDatabase.init_db SeedExample.quiet Seed.sample_sales in
  In Seed.Commit (Seed.trace r)
  /\ Forall dated (Seed.store r)
  /\ added_objects (Seed.trace r)
     = (Seed.add_all "products" Seed.sample_products
        ++ Seed.add_all "customers" Seed.sample_customers
        ++ Seed.add_all "sales" (Seed.store r))%list.
Proof.
  intros r.
  assert (H : In Seed.Commit
                (Seed.trace (Seed.run_init_db true SeedExample.quiet
                               Seed.sample_sales)))
    by (vm_compute; repeat (try (left; reflexivity); right)).
  split; [exact H|].
  destruct (init_db_commit_converts true SeedExample.quiet
              Seed.sample_sales H) as (Hd & Ha & _).
  split; [exact Hd | exact Ha].
Defined.

Lemma init_db_blocked_by_date_witness :
  let first := [("date", Seed.VDate 2024 1 1); ("product_id", Seed.VInt 1);
                ("customer_id", Seed.VInt 1); ("quantity", Seed.VInt 2);
                ("total_amount", Seed.VFloat "1999.98")] in
  dated first
  /\ ~ In Seed.Commit
       (Seed.trace (AppInitDb.init_db SeedExample.quiet [first])).
Proof.
  intros first.
  assert (H : dated first) by (exists 2024%Z, 1%Z, 1%Z; reflexivity).
  split; [exact H|].
  exact (proj1 (init_db_blocked_by_date false SeedExample.quiet first []
                  H eq_refl)).
Defined.

Lemma init_db_commits_once_witness :
  Seed.sample_sales <> []
  /\ In Seed.Commit
       (Seed.trace (AppInitDb.init_db SeedExample.quiet Seed.sample_sales))
  /\ ~ In Seed.Commit
       (Seed.trace
          (AppInitDb.init_db SeedExample.quiet
             (Seed.store
                (AppInitDb.init_db SeedExample.quiet Seed.sample_sales)))).
Proof.
  assert (Hne : Seed.sample_sales <> []) by discriminate.
  assert (H : In Seed.Commit
                (Seed.trace (Seed.run_init_db false SeedExample.quiet
                               Seed.sample_sales)))
    by (vm_compute; repeat (try (left; reflexivity); right)).
  split; [exact Hne|]. split; [exact H|].
  exact (init_db_commits_once false false SeedExample.quiet SeedExample.quiet
           Seed.sample_sales Hne H).
Defined.

(** The first run of [init_database.py] on the module's data, when nothing
    raises: the store afterwards, what is printed, and the end of what is
    observed (after the four lines of progress and the fourteen calls of
    [db.add]).  [app/init_db.py] prints the last line only. *)
Example first_run_on_sample_data :
  let r := InitDatabase.init_db SeedExample.quiet Seed.sample_sales in
  let printed (t : list Seed.event) :=
    flat_map (fun ev => match ev with Seed.Print s => [s] | _ => [] end) t in
  map (get "date") (Seed.store r)
  = [Some (Seed.VDate 2024 1 1); Some (Seed.VDate 2024 1 2);
     Some (Seed.VDate 2024 1 3); Some (Seed.VDate 2024 1 4);
     Some (Seed.VDate 2024 1 5)]
  /\ printed (Seed.trace r)
     = ["Creating database tables..."; "Adding sample products...";
        "Adding sample customers..."; "Adding sample sales...";
        "Database initialized successfully!"]
  /\ skipn 18 (Seed.trace r)
     = [Seed.Commit; Seed.Print "Database initialized successfully!";
        Seed.Close]
  /\ Seed.raised r = None
  /\ printed (Seed.trace
                (AppInitDb.init_db SeedExample.quiet Seed.sample_sales))
     = ["Database initialized successfully!"].
Proof. vm_compute. repeat split. Qed.

(** A commit that is interrupted: nothing is printed or rolled back, the
    session is closed and the interrupt leaves [init_db]. *)
Example interrupted_commit :
  let e := {| Seed.create_all := None;
              Seed.strptime := SeedExample.read_date;
              Seed.commit := fun _ => Some (Interrupt "KeyboardInterrupt") |} in
  let r := AppInitDb.init_db e Seed.sample_sales in
  skipn 14 (Seed.trace r) = [Seed.Close]
  /\ Seed.raised r = Some (Interrupt "KeyboardInterrupt").
Proof. vm_compute. split; reflexivity. Qed.

End Seeding.

(* ------------------------------------------------------------------ *)
(** ** The path through the external service *)

Section Service.

Lemma star_greedy_inv (p : ascii -> bool) (s : string) :
  forall (prev : option ascii) (kont : option ascii -> string -> Re.outcome)
         (x : string * list string),
    ReX.star_greedy p prev s kont = Some x ->
    exists a s1 prev1,
      s = a ++ s1 /\ all_chars p a = true /\ kont prev1 s1 = Some x.
Proof.
  induction s as [|c s IH]; intros prev kont x; simpl.
  - intros H. now exists EmptyString, EmptyString, prev.
  - destruct (p c) eqn:Ec.
    + destruct (ReX.star_greedy p (Some c) s kont) as [y|] eqn:E.
      * intros [= ->]. apply IH in E as (a & s1 & prev1 & -> & Ha & Hk).
        exists (String c a), s1, prev1. repeat split; [|exact Hk].
        simpl. now rewrite Ec, Ha.
      * intros H. now exists EmptyString, (String c s), prev.
    + intros H. now exists EmptyString, (String c s), prev.
Qed.

Lemma xstar_lazy_inv (p : ascii -> bool) (s : string) :
  forall (prev : option ascii) (kont : option ascii -> string -> Re.outcome)
         (x : string * list string),
    ReX.star_lazy p prev s kont = Some x ->
    exists a s1 prev1,
      s = a ++ s1 /\ all_chars p a = true /\ kont prev1 s1 = Some x.
Proof.
  induction s as [|c s IH]; intros prev kont x; simpl.
  - destruct (kont prev EmptyString) as [y|] eqn:E; [|discriminate].
    intros [= ->]. now exists EmptyString, EmptyString, prev.
  - destruct (kont prev (String c s)) as [y|] eqn:E.
    + intros [= ->]. now exists EmptyString, (String c s), prev.
    + destruct (p c) eqn:Ec; [|discriminate].
      intros H. apply IH in H as (a & s1 & prev1 & -> & Ha & Hk).
      exists (String c a), s1, prev1. repeat split; [|exact Hk].
      simpl. now rewrite Ec, Ha.
Qed.

(** Soundness of the matcher of [ReX]. *)
Lemma xrun_sound (ic dotall : bool) (r : ReX.regex) :
  forall (prev : option ascii) (s : string) (caps : list string)
         (kont : ReX.cont) (x : string * list string),
    ReX.run ic dotall r prev s caps kont = Some x ->
    exists a s1 g prev1,
      s = a ++ s1 /\ xmatches ic dotall r a g
      /\ kont prev1 s1 (caps ++ g)%list = Some x.
Proof.
  induction r as [ | c | r1 IH1 r2 IH2 | r1 IH1 r2 IH2 | r1 IH1 | greedy k
                 | | r1 IH1 | ]; intros prev s caps kont x H; simpl in H.
  - exists EmptyString, s, [], prev. rewrite app_nil_r.
    repeat split; [constructor | exact H].
  - destruct s as [|c' s]; [discriminate|].
    destruct (Re.chr_eq ic c c') eqn:E; [|discriminate].
    exists (String c' EmptyString), s, [], (Some c'). rewrite app_nil_r.
    repeat split; [now constructor | exact H].
  - apply IH1 in H as (a & s1 & g1 & prev1 & -> & Ha & H).
    apply IH2 in H as (b & s2 & g2 & prev2 & -> & Hb & H).
    exists (a ++ b), s2, (g1 ++ g2)%list, prev2.
    rewrite append_assoc, app_assoc.
    repeat split; [now constructor | exact H].
  - destruct (ReX.run ic dotall r1 prev s caps kont) as [y|] eqn:E.
    + injection H as ->.
      apply IH1 in E as (a & s1 & g & prev1 & -> & Ha & Hk).
      exists a, s1, g, prev1. repeat split; [now apply X_Alt_l | exact Hk].
    + apply IH2 in H as (a & s1 & g & prev1 & -> & Ha & Hk).
      exists a, s1, g, prev1. repeat split; [now apply X_Alt_r | exact Hk].
  - apply IH1 in H as (a & s1 & g & prev1 & -> & Ha & H).
    rewrite consumed_app, <- app_assoc in H.
    exists a, s1, (g ++ [a])%list, prev1.
    repeat split; [now constructor | exact H].
  - destruct greedy.
    + apply star_greedy_inv in H as (a & s1 & prev1 & -> & Ha & H).
      exists a, s1, [], prev1. rewrite app_nil_r.
      repeat split; [now constructor | exact H].
    + apply xstar_lazy_inv in H as (a & s1 & prev1 & -> & Ha & H).
      exists a, s1, [], prev1. rewrite app_nil_r.
      repeat split; [now constructor | exact H].
  - destruct (ReX.at_boundary prev s); [|discriminate].
    exists EmptyString, s, [], prev. rewrite app_nil_r.
    repeat split; [constructor | exact H].
  - destruct (ReX.run ic dotall r1 prev s caps (fun _ _ caps1 => Some (s, caps1)))
      as [[s' caps1]|] eqn:E; [|discriminate].
    apply IH1 in E as (b & s2 & g & prev1 & -> & Hb & [= _ <-]).
    exists EmptyString, (b ++ s2), g, prev.
    repeat split; [now apply (X_Ahead _ _ _ b) | exact H].
  - destruct (Re.at_end s); [|discriminate].
    exists EmptyString, s, [], prev. rewrite app_nil_r.
    repeat split; [constructor | exact H].
Qed.

Lemma xsearch_sound (ic dotall : bool) (r : ReX.regex) (s : string)
  (m : Re.rmatch) :
  ReX.search ic dotall r s = Some m ->
  exists pre rest,
    s = pre ++ Re.m_text m ++ rest
    /\ xmatches ic dotall r (Re.m_text m) (Re.m_groups m).
Proof.
  unfold ReX.search. generalize 0 (@None ascii).
  induction s as [|c s IH]; intros pos prev; simpl;
    unfold ReX.match_here at 1;
    destruct (ReX.run ic dotall r prev _ [] (fun _ s1 caps => Some (s1, caps)))
      as [[s1 caps]|] eqn:E.
  - intros [= <-]. apply xrun_sound in E as (a & s2 & g & _ & Hs & Ha & [= <- <-]).
    cbn [Re.m_text Re.m_groups]. rewrite Hs, consumed_app.
    now exists EmptyString, s2.
  - discriminate.
  - intros [= <-]. apply xrun_sound in E as (a & s2 & g & _ & Hs & Ha & [= <- <-]).
    cbn [Re.m_text Re.m_groups]. rewrite Hs, consumed_app.
    now exists EmptyString, s2.
  - intros H. apply IH in H as (pre & rest & -> & Hm).
    now exists (String c pre), rest.
Qed.

(** A literal under IGNORECASE reads a text equal to it up to case. *)
Lemma xmatches_lit (dotall : bool) (w a : string) (g : list string) :
  xmatches true dotall (ReX.lit w) a g -> lower a = lower w /\ g = [].
Proof.
  revert a g. induction w as [|c w IH]; intros a g H; simpl in H.
  - inversion H; subst. now split.
  - inversion H as [ | | r1 r2 a1 b1 g1 g2 H1 H2 | | | | | | | ]; subst.
    inversion H1 as [ | c0 c' Hc | | | | | | | | ]; subst.
    apply IH in H2 as [Hb ->].
    unfold Re.chr_eq in Hc. apply Ascii.eqb_eq in Hc.
    simpl. rewrite Hb, Hc. now split.
Qed.

Lemma contains_lower_lit (w pre a rest : string) :
  lower a = w -> contains w (lower (pre ++ a ++ rest)) = true.
Proof.
  intros <-. rewrite !lower_app. apply contains_intro.
Qed.

Lemma xmatches_lit_exact (dotall : bool) (w a : string) (g : list string) :
  xmatches false dotall (ReX.lit w) a g -> a = w /\ g = [].
Proof.
  revert a g. induction w as [|c w IH]; intros a g H; simpl in H.
  - inversion H; subst. now split.
  - inversion H as [ | | r1 r2 a1 b1 g1 g2 H1 H2 | | | | | | | ]; subst.
    inversion H1 as [ | c0 c' Hc | | | | | | | | ]; subst.
    apply IH in H2 as [-> ->].
    unfold Re.chr_eq in Hc. apply Ascii.eqb_eq in Hc. subst c'.
    now split.
Qed.

Lemma newline_lower_char (c : ascii) :
  Ascii.eqb (lower_char c) newline = Ascii.eqb c newline.
Proof.
  destruct c as [[] [] [] [] [] [] [] []]; vm_compute; reflexivity.
Qed.

Lemma one_line_lower (a : string) :
  all_chars (ReX.in_cls false ReX.Dot) a = true ->
  contains nl (lower a) = false.
Proof.
  induction a as [|c a IH]; [reflexivity|].
  cbn [all_chars ReX.in_cls orb]. intros H.
  apply andb_true_iff in H as [Hc Ha].
  cbn [lower]. rewrite contains_unfold. unfold nl at 1.
  cbn [startswith]. rewrite Ascii.eqb_sym, newline_lower_char.
  apply negb_true_iff in Hc. rewrite Hc. cbn [andb]. now apply IH.
Qed.

Lemma xmatches_cat (ic dotall : bool) (r1 r2 : ReX.regex) (a : string)
  (g : list string) :
  xmatches ic dotall (ReX.Cat r1 r2) a g ->
  exists a1 a2 g1 g2,
    a = a1 ++ a2 /\ g = (g1 ++ g2)%list
    /\ xmatches ic dotall r1 a1 g1 /\ xmatches ic dotall r2 a2 g2.
Proof. inversion 1; subst. now do 4 eexists. Qed.

Lemma xmatches_alt (ic dotall : bool) (r1 r2 : ReX.regex) (a : string)
  (g : list string) :
  xmatches ic dotall (ReX.Alt r1 r2) a g ->
  xmatches ic dotall r1 a g \/ xmatches ic dotall r2 a g.
Proof. inversion 1; subst; auto. Qed.

Lemma xmatches_grp (ic dotall : bool) (r : ReX.regex) (a : string)
  (g : list string) :
  xmatches ic dotall (ReX.Grp r) a g ->
  exists g1, g = (g1 ++ [a])%list /\ xmatches ic dotall r a g1.
Proof. inversion 1; subst. now eexists. Qed.

Lemma xmatches_star (ic dotall greedy : bool) (k : ReX.cls) (a : string)
  (g : list string) :
  xmatches ic dotall (ReX.Star greedy k) a g ->
  g = [] /\ all_chars (ReX.in_cls dotall k) a = true.
Proof. inversion 1; subst. now split. Qed.

Lemma xmatches_empty (ic dotall : bool) (r : ReX.regex) (a : string)
  (g : list string) :
  r = ReX.Bound \/ r = ReX.Eps \/ r = ReX.Eos ->
  xmatches ic dotall r a g -> a = EmptyString /\ g = [].
Proof. intros [->|[->| ->]]; inversion 1; subst; now split. Qed.

Ltac invert_xmatches :=
  repeat match goal with
         | H : xmatches true _ (ReX.lit _) _ _ |- _ =>
             apply xmatches_lit in H; destruct H; subst
         | H : xmatches false _ (ReX.lit _) _ _ |- _ =>
             apply xmatches_lit_exact in H; destruct H; subst
         | H : xmatches _ _ (ReX.Cat _ _) _ _ |- _ =>
             apply xmatches_cat in H; destruct H as (? & ? & ? & ? & ? & ? & ? & ?);
             subst
         | H : xmatches _ _ (ReX.Alt _ _) _ _ |- _ =>
             apply xmatches_alt in H; destruct H
         | H : xmatches _ _ (ReX.Grp _) _ _ |- _ =>
             apply xmatches_grp in H; destruct H as (? & ? & ?); subst
         | H : xmatches _ _ (ReX.Star _ _) _ _ |- _ =>
             apply xmatches_star in H; destruct H; subst
         | H : xmatches _ _ ReX.Bound _ _ |- _ =>
             apply xmatches_empty in H; [destruct H; subst | tauto]
         | H : xmatches _ _ ReX.Eps _ _ |- _ =>
             apply xmatches_empty in H; [destruct H; subst | tauto]
         | H : xmatches _ _ ReX.Eos _ _ |- _ =>
             apply xmatches_empty in H; [destruct H; subst | tauto]
         end.

Lemma check_patterns_cons (p : ReX.regex) (msg : string)
  (rest : list (ReX.regex * string)) (sql_query : string) :
  check_patterns ((p, msg) :: rest) sql_query = Ok tt ->
  (exists m, ReX.search true false p sql_query = Some m)
  /\ check_patterns rest sql_query = Ok tt.
Proof.
  simpl. destruct (ReX.search true false p sql_query) as [m|]; [|discriminate].
  intros H. split; [now exists m | exact H].
Qed.

(** X11: a text that [_validate_generated_sql] accepts holds, up to case,
    "from" and later on the same line "sales"; "join" and later on the
    same line "products" or "customers"; and one of "where", "group by",
    "order by". *)
Theorem validated_sql_mentions (self : QueryGenerator) (sql_query : string) :
  _validate_generated_sql self sql_query = Ok tt ->
  (exists a b c,
      lower sql_query = a ++ "from" ++ b ++ "sales" ++ c
      /\ contains nl b = false)
  /\ (exists a b t c,
         In t ["products"; "customers"]
         /\ lower sql_query = a ++ "join" ++ b ++ t ++ c
         /\ contains nl b = false)
  /\ (exists w, In w ["where"; "group by"; "order by"]
                /\ contains w (lower sql_query) = true).
Proof.
  unfold _validate_generated_sql, required_patterns. intros H.
  apply check_patterns_cons in H as [[m1 H1] H].
  apply check_patterns_cons in H as [[m2 H2] H].
  apply check_patterns_cons in H as [[m3 H3] _].
  apply xsearch_sound in H1 as (pre1 & rest1 & E1 & X1).
  apply xsearch_sound in H2 as (pre2 & rest2 & E2 & X2).
  apply xsearch_sound in H3 as (pre3 & rest3 & E3 & X3).
  unfold ReX.seq in X1, X2, X3. cbn [fold_right] in X1, X2, X3.
  split; [|split].
  - rewrite E1. clear X2 X3 E1 E2 E3. invert_xmatches.
    match goal with
    | Ht : Re.m_text m1 = _, Hm : all_chars _ ?mid = true,
      Hf : lower ?f = lower "FROM", Hs : lower ?s = lower "sales" |- _ =>
        exists (lower pre1), (lower mid), (lower rest1); split;
        [ rewrite Ht; cbn [append]; rewrite ?append_empty_r, !lower_app, Hf, Hs;
          rewrite !append_assoc; reflexivity
        | now apply one_line_lower ]
    end.
  - rewrite E2. clear X1 X3 E1 E2 E3. invert_xmatches;
    match goal with
    | Ht : Re.m_text m2 = _, Hm : all_chars _ ?mid = true,
      Hf : lower ?f = lower "JOIN", Hs : lower ?s = lower ?t |- _ =>
        exists (lower pre2), (lower mid), (lower t), (lower rest2);
        split; [vm_compute; tauto|]; split;
        [ rewrite Ht; cbn [append]; rewrite ?append_empty_r, !lower_app, Hf, Hs;
          rewrite !append_assoc; reflexivity
        | now apply one_line_lower ]
    end.
  - rewrite E3. clear X1 X2 E1 E2 E3.
    invert_xmatches;
      match goal with
      | Ht : Re.m_text m3 = _, Hs : lower ?s = lower ?t |- _ =>
          exists (lower t); split; [vm_compute; tauto|];
          rewrite Ht; cbn [append]; rewrite ?append_empty_r;
          now apply contains_lower_lit
      end.
Qed.

Lemma validated_sql_mentions_witness :
  _validate_generated_sql (__init__ None)
    "SELECT c.region FROM sales s JOIN customers c ON s.customer_id = c.id GROUP BY c.region"
  = Ok tt
  /\ exists w, In w ["where"; "group by"; "order by"]
       /\ contains w
            (lower "SELECT c.region FROM sales s JOIN customers c ON s.customer_id = c.id GROUP BY c.region")
          = true.
Proof.
  assert (H : _validate_generated_sql (__init__ None)
    "SELECT c.region FROM sales s JOIN customers c ON s.customer_id = c.id GROUP BY c.region"
    = Ok tt) by (vm_compute; reflexivity).
  split; [exact H|].
  exact (proj2 (proj2 (validated_sql_mentions _ _ H))).
Defined.

Lemma stripped_group_marker (content : string) :
  contains "SQL:" content = false ->
  stripped_group sql_pattern content = EmptyString.
Proof.
  intros Hc. unfold stripped_group.
  destruct (ReX.search false true sql_pattern content) as [m|] eqn:E;
    [|reflexivity].
  exfalso. apply xsearch_sound in E as (pre & rest & -> & X).
  unfold sql_pattern, ReX.seq in X. cbn [fold_right] in X.
  apply xmatches_cat in X as (a1 & a2 & g1 & g2 & Ht & _ & X1 & _).
  apply xmatches_lit_exact in X1 as [-> _].
  rewrite Ht, append_assoc, contains_intro in Hc. discriminate.
Qed.

(** X12: a response in which the marker "SQL:" (in capitals) does not occur is
    discarded, whatever the generator's key: [generate_sql_with_ai] gives
    [(None, None)]. *)
Theorem response_without_marker (self : QueryGenerator) (content q : string) :
  contains "SQL:" content = false ->
  generate_sql_with_ai self (Done (Some content)) q = Done (None, None).
Proof.
  intros H. unfold generate_sql_with_ai, ai_body.
  destruct (falsy (openai_api_key self)); [reflexivity|].
  rewrite (stripped_group_marker _ H). reflexivity.
Qed.

Lemma response_without_marker_witness :
  contains "SQL:" "sql: SELECT 1 FROM sales" = false
  /\ generate_sql_with_ai (__init__ (Some "key"))
       (Done (Some "sql: SELECT 1 FROM sales")) "sales by region"
     = Done (None, None).
Proof.
  split; [vm_compute; reflexivity|].
  apply response_without_marker. vm_compute. reflexivity.
Defined.

Lemma validated_truthy (self : QueryGenerator) (sql_query : string) :
  _validate_generated_sql self sql_query = Ok tt -> truthy sql_query = true.
Proof.
  destruct sql_query; [vm_compute; discriminate | reflexivity].
Qed.

(** X13: [generate_sql] has three outcomes.  It returns a text exactly when
    the generator has a key, the service answered with a content, and the
    stripped text after "SQL:" in it passed [_validate_generated_sql]; it
    then returns that text.  When the generator has a key and the request
    ended in an exception outside the class Exception (a cancellation, an
    interrupt), that exception leaves [generate_sql] as it is.  In every
    other case (no key, an answer without content, a text that fails the
    validation, an Exception raised by the request) it raises Exception,
    with the message of the rule-based generator behind
    "Error generating SQL query: " (the NameError of [metric], or the
    suggestion of validation). *)
Theorem generate_sql_outcome (key : option string)
  (completion : xresult (option string)) (q : string) :
  let self := __init__ key in
  (exists content sql,
      falsy key = false
      /\ completion = Done (Some content)
      /\ sql = stripped_group sql_pattern content
      /\ _validate_generated_sql self sql = Ok tt
      /\ generate_sql self completion q = Done sql)
  \/ (exists e,
         falsy key = false
         /\ completion = Fail e
         /\ is_exception e = false
         /\ generate_sql self completion q = Fail e)
  \/ ((falsy key = true
       \/ completion = Done None
       \/ (exists content e,
              completion = Done (Some content)
              /\ _validate_generated_sql self
                   (stripped_group sql_pattern content) = Raise e)
       \/ (exists e, completion = Fail e /\ is_exception e = true))
      /\ exists msg,
          generate_sql self completion q
          = Fail (Exception ("Error generating SQL query: " ++ msg))
          /\ (msg = "name 'metric' is not defined"
              \/ _validate_query self q = Ok (false, msg, None))).
Proof.
  intros self. subst self.
  assert (Hrule : exists msg,
             (match
                 match _generate_sql_rule_based (__init__ key) q with
                 | Ok sql => Done sql
                 | Raise e => Fail (Builtin e)
                 end
               with
               | Done sql => Done sql
               | Fail e =>
                   if is_exception e
                   then Fail (Exception ("Error generating SQL query: "
                                         ++ str_exn e))
                   else Fail e
               end
               = Fail (Exception ("Error generating SQL query: " ++ msg)))
             /\ (msg = "name 'metric' is not defined"
                 \/ _validate_query (__init__ key) q = Ok (false, msg, None))).
  { destruct (matched_terms (lower q)) as [|ts l] eqn:E.
    - exists "name 'metric' is not defined". split; [|now left].
      now rewrite (rule_based_valid key q E).
    - assert (Hne : matched_terms (lower q) <> [])
        by (rewrite E; discriminate).
      eexists. split.
      + unfold _generate_sql_rule_based.
        rewrite (validate_invalid _ _ Hne).
        cbn [bind negb str_exn is_exception]. reflexivity.
      + right. apply (validate_invalid _ _ Hne). }
  unfold generate_sql, generate_sql_with_ai, ai_body.
  cbn [openai_api_key __init__].
  destruct (falsy key) eqn:Ek.
  { right. right. split; [now left|]. cbn [is_exception]. exact Hrule. }
  destruct completion as [[content|]|e].
  - destruct (_validate_generated_sql (__init__ key)
                (stripped_group sql_pattern content)) as [[]|e] eqn:Ev.
    + left. exists content, (stripped_group sql_pattern content).
      rewrite (validated_truthy _ _ Ev). now repeat split.
    + right. right. split.
      * right. right. left. now exists content, e.
      * cbn [is_exception]. exact Hrule.
  - right. right. split; [right; now left|].
    cbn [is_exception]. exact Hrule.
  - destruct (is_exception e) eqn:Ee.
    + right. right. split; [right; right; right; now exists e|].
      exact Hrule.
    + right. left. exists e. rewrite Ee. now repeat split.
Qed.

(* The matcher on the two patterns that read a response. *)

Lemma xrun_lit (dotall : bool) (w s1 : string) (caps : list string)
  (kont : ReX.cont) :
  forall prev, exists prev',
    ReX.run false dotall (ReX.lit w) prev (w ++ s1) caps kont
    = kont prev' s1 caps.
Proof.
  induction w as [|c w IH]; intros prev; simpl.
  - now exists prev.
  - unfold Re.chr_eq. rewrite Ascii.eqb_refl. apply IH.
Qed.

Lemma xrun_lit_fail (dotall : bool) (w s : string) (prev : option ascii)
  (caps : list string) (kont : ReX.cont) :
  startswith w s = false ->
  ReX.run false dotall (ReX.lit w) prev s caps kont = None.
Proof.
  revert prev s. induction w as [|c w IH]; intros prev s; simpl.
  - discriminate.
  - destruct s as [|c' s]; [reflexivity|].
    unfold Re.chr_eq. destruct (Ascii.eqb c c'); [|reflexivity].
    cbn [andb]. apply IH.
Qed.

Lemma star_greedy_all (p : ascii -> bool) (ws s1 : string)
  (kont : option ascii -> string -> Re.outcome) (x : string * list string) :
  all_chars p ws = true ->
  (forall prev', kont prev' s1 = Some x) ->
  match s1 with String c _ => p c = false | EmptyString => True end ->
  forall prev, ReX.star_greedy p prev (ws ++ s1) kont = Some x.
Proof.
  intros Hws Hx Hs1.
  induction ws as [|c ws IH]; intros prev.
  - cbn [append]. destruct s1 as [|c s1]; simpl.
    + apply Hx.
    + rewrite Hs1. apply Hx.
  - cbn [all_chars] in Hws. apply andb_true_iff in Hws as [Hc Hws].
    cbn [append ReX.star_greedy]. rewrite Hc. now rewrite IH.
Qed.

Lemma star_lazy_first (p : ascii -> bool) (a s1 : string)
  (kont : option ascii -> string -> Re.outcome) (x : string * list string) :
  all_chars p a = true ->
  (forall u v prev', a = u ++ v -> v <> EmptyString ->
                     kont prev' (v ++ s1) = None) ->
  (forall prev', kont prev' s1 = Some x) ->
  forall prev, ReX.star_lazy p prev (a ++ s1) kont = Some x.
Proof.
  intros Ha Hfail Hx.
  induction a as [|c a IH]; intros prev.
  - cbn [append]. destruct s1; simpl; now rewrite Hx.
  - cbn [all_chars] in Ha. apply andb_true_iff in Ha as [Hc Ha].
    cbn [append ReX.star_lazy].
    assert (Hf : kont prev (String c (a ++ s1)) = None)
      by (apply (Hfail EmptyString (String c a) prev eq_refl); discriminate).
    rewrite Hf, Hc. apply IH; [exact Ha|].
    intros u v prev' -> Hv.
    apply (Hfail (String c u) v); [reflexivity | exact Hv].
Qed.

Lemma search_at_skip (ic dotall : bool) (r : ReX.regex) (rest : string)
  (m : Re.rmatch) :
  forall (head : string) (pos : nat) (prev : option ascii),
    (forall u v pos' prev', head = u ++ v -> v <> EmptyString ->
                            ReX.match_here ic dotall r pos' prev' (v ++ rest)
                            = None) ->
    (forall pos' prev',
        exists m', ReX.match_here ic dotall r pos' prev' rest = Some m'
                   /\ Re.m_groups m' = Re.m_groups m) ->
    exists m', ReX.search_at ic dotall r pos prev (head ++ rest) = Some m'
               /\ Re.m_groups m' = Re.m_groups m.
Proof.
  induction head as [|c head IH]; intros pos prev Hfail Hrest.
  - cbn [append]. destruct (Hrest pos prev) as (m' & Hm & Hg).
    exists m'. split; [|exact Hg].
    destruct rest; simpl; now rewrite Hm.
  - cbn [append ReX.search_at].
    assert (Hf : ReX.match_here ic dotall r pos prev (String c (head ++ rest))
                 = None)
      by (apply (Hfail EmptyString (String c head)); [reflexivity | discriminate]).
    rewrite Hf. apply IH; [|exact Hrest].
    intros u v pos' prev' -> Hv.
    apply (Hfail (String c u) v); [reflexivity | exact Hv].
Qed.

Lemma startswith_fits (m v x y : string) :
  startswith m (v ++ x ++ y) = true ->
  String.length m <= String.length v + String.length x ->
  startswith m (v ++ x) = true.
Proof.
  rewrite <- length_append, <- append_assoc.
  generalize (v ++ x). clear v x.
  induction m as [|c m IH]; intros s H Hl; [reflexivity|].
  destruct s as [|c' s]; simpl in *; [lia|].
  apply andb_true_iff in H as [Hc H]. rewrite Hc. cbn [andb].
  apply IH; [exact H | lia].
Qed.

Lemma startswith_contains (m u v : string) :
  startswith m v = true -> contains m (u ++ v) = true.
Proof.
  intros H. apply startswith_inv in H as [b ->]. apply contains_intro.
Qed.

Lemma at_end_long (c c' : ascii) (s : string) :
  Re.at_end (String c (String c' s)) = false.
Proof. reflexivity. Qed.

Lemma all_chars_dotall (a : string) :
  all_chars (ReX.in_cls true ReX.Dot) a = true.
Proof. induction a; simpl; auto. Qed.

Lemma append_split (x y a b : string) :
  x ++ y = a ++ b ->
  (exists z, a = x ++ z /\ y = z ++ b) \/ (exists z, x = a ++ z /\ b = z ++ y).
Proof.
  revert a. induction x as [|c x IH]; intros a H.
  - left. exists a. now split.
  - destruct a as [|c' a].
    + right. exists (String c x). now split.
    + simpl in H. injection H as <- H.
      destruct (IH _ H) as [(z & -> & ->)|(z & -> & ->)];
        [left | right]; now exists z.
Qed.

(* White space at the ends of a text. *)

Lemma list_of_append (a b : string) :
  list_ascii_of_string (a ++ b)
  = (list_ascii_of_string a ++ list_ascii_of_string b)%list.
Proof. induction a as [|c a IH]; simpl; [reflexivity | now rewrite IH]. Qed.

Lemma rev_string_snoc (a : string) (c : ascii) :
  rev_string (a ++ String c EmptyString) = String c (rev_string a).
Proof.
  unfold rev_string. rewrite list_of_append. cbn [list_ascii_of_string].
  rewrite rev_app_distr. reflexivity.
Qed.

Lemma rev_string_involutive (s : string) : rev_string (rev_string s) = s.
Proof.
  unfold rev_string.
  rewrite list_ascii_of_string_of_list_ascii, rev_involutive.
  apply string_of_list_ascii_of_string.
Qed.

Lemma string_last (s : string) :
  s <> EmptyString -> exists a c, s = a ++ String c EmptyString.
Proof.
  induction s as [|c s IH]; [congruence|]. intros _.
  destruct s as [|c' s].
  - now exists EmptyString, c.
  - destruct IH as (a & d & E); [discriminate|].
    exists (String c a), d. simpl. now rewrite <- E.
Qed.

Lemma lstrip_tidy (s : string) :
  (forall c b, s = String c b -> is_space c = false) -> lstrip s = s.
Proof.
  destruct s as [|c s]; [reflexivity|]. intros H. simpl.
  now rewrite (H c s eq_refl).
Qed.

Lemma strip_tidy (s : string) : tidy s -> strip s = s.
Proof.
  intros [Hf Hl]. unfold strip. rewrite (lstrip_tidy s Hf).
  destruct s as [|c s]; [reflexivity|].
  destruct (string_last (String c s)) as (a & d & E); [discriminate|].
  rewrite E, rev_string_snoc. cbn [lstrip]. rewrite (Hl a d E).
  rewrite <- rev_string_snoc. apply rev_string_involutive.
Qed.

Lemma strip_tidy_line (s : string) :
  tidy s -> s <> EmptyString -> strip (s ++ nl) = s.
Proof.
  intros Ht Hne. rewrite <- (strip_tidy s Ht) at 2.
  unfold strip. destruct Ht as [Hf Hl].
  destruct s as [|c s]; [congruence|].
  cbn [append lstrip]. rewrite (Hf c s eq_refl).
  change (String c (s ++ nl)) with (String c s ++ String newline EmptyString).
  rewrite rev_string_snoc. cbn [lstrip].
  replace (is_space newline) with true by reflexivity.
  reflexivity.
Qed.

(* The marker of the explanation. *)

Lemma marker_not_straddling (sql : string) :
  contains "Explanation:" sql = false ->
  contains "Explanation:" (sql ++ nl ++ "Explanation") = false.
Proof.
  intros H. destruct (contains "Explanation:" (sql ++ nl ++ "Explanation"))
    eqn:E; [exfalso | reflexivity].
  apply contains_inv in E as (a & b & E).
  apply append_split in E as [(z & -> & E)|(z & -> & E)].
  - assert (Hl := f_equal String.length E).
    rewrite !length_append in Hl. cbn in Hl.
    destruct z; [|cbn in Hl; lia]. cbn in E. discriminate E.
  - apply append_split in E as [(z' & -> & _)|(z' & E1 & E2)].
    + rewrite contains_intro in H. discriminate.
    + destruct z' as [|c z'].
      * rewrite append_empty_r in E1. subst z.
        pose proof (contains_intro "Explanation:" a EmptyString) as Hc.
        rewrite append_empty_r in Hc. congruence.
      * cbn in E2. injection E2 as <- _.
        assert (Hn : contains nl "Explanation:" = true)
          by (rewrite E1; apply (contains_intro nl z z')).
        vm_compute in Hn. discriminate.
Qed.

Lemma marker_after_prefix (x : string) :
  contains "Explanation:" ("SQL: " ++ x) = contains "Explanation:" x.
Proof.
  cbn [append]. do 5 (rewrite contains_unfold; cbn [startswith Ascii.eqb Bool.eqb andb]).
  reflexivity.
Qed.

(* Reading a response of the form that the prompt asks for. *)

Lemma xrun_cat (ic dotall : bool) (r1 r2 : ReX.regex) (prev : option ascii)
  (s : string) (caps : list string) (kont : ReX.cont) :
  ReX.run ic dotall (ReX.Cat r1 r2) prev s caps kont
  = ReX.run ic dotall r1 prev s caps
      (fun prev1 s1 caps1 => ReX.run ic dotall r2 prev1 s1 caps1 kont).
Proof. reflexivity. Qed.

Lemma xrun_grp (ic dotall : bool) (r : ReX.regex) (prev : option ascii)
  (s : string) (caps : list string) (kont : ReX.cont) :
  ReX.run ic dotall (ReX.Grp r) prev s caps kont
  = ReX.run ic dotall r prev s caps
      (fun prev1 s1 caps1 => kont prev1 s1 (caps1 ++ [Re.consumed s s1])%list).
Proof. reflexivity. Qed.

Lemma xrun_star (ic dotall greedy : bool) (k : ReX.cls) (prev : option ascii)
  (s : string) (caps : list string) (kont : ReX.cont) :
  ReX.run ic dotall (ReX.Star greedy k) prev s caps kont
  = (if greedy then ReX.star_greedy else ReX.star_lazy)
      (ReX.in_cls dotall k) prev s (fun prev1 s1 => kont prev1 s1 caps).
Proof. destruct greedy; reflexivity. Qed.

Lemma ahead_marker (s : string) (prev : option ascii) (caps : list string)
  (kont : ReX.cont) :
  ReX.run false true
    (ReX.Ahead (ReX.Alt (ReX.lit "Explanation:") ReX.Eos)) prev s caps kont
  = if (startswith "Explanation:" s || Re.at_end s)%bool
    then kont prev s caps else None.
Proof.
  cbn [ReX.run].
  destruct (startswith "Explanation:" s) eqn:E.
  - destruct (startswith_inv _ _ E) as [b ->].
    destruct (xrun_lit true "Explanation:" b caps
                (fun _ _ caps1 => Some ("Explanation:" ++ b, caps1)) prev)
      as [prev' ->].
    reflexivity.
  - rewrite (xrun_lit_fail true _ _ _ _ _ E). cbn [orb].
    now destruct (Re.at_end s).
Qed.

Lemma at_end_inside (v w : string) :
  v <> EmptyString -> w <> EmptyString -> Re.at_end (v ++ w) = false.
Proof.
  destruct v as [|c v]; [congruence|]. intros _ Hw.
  destruct v as [|c' v]; cbn [append]; [|reflexivity].
  destruct w; [congruence | reflexivity].
Qed.

Lemma no_marker_inside (head u v tail : string) :
  contains "Explanation:" (head ++ "Explanation") = false ->
  head = u ++ v -> v <> EmptyString ->
  startswith "Explanation:" (v ++ "Explanation: " ++ tail) = false.
Proof.
  intros H -> Hv.
  destruct (startswith "Explanation:" (v ++ "Explanation: " ++ tail)) eqn:E;
    [exfalso | reflexivity].
  change ("Explanation: " ++ tail) with ("Explanation" ++ (": " ++ tail)) in E.
  apply startswith_fits in E.
  - rewrite append_assoc in H.
    rewrite (startswith_contains _ u _ E) in H. discriminate.
  - destruct v; [congruence | cbn; lia].
Qed.

Lemma search_at_here (ic dotall : bool) (r : ReX.regex) (pos : nat)
  (prev : option ascii) (s : string) (m : Re.rmatch) :
  ReX.match_here ic dotall r pos prev s = Some m ->
  ReX.search_at ic dotall r pos prev s = Some m.
Proof. intros H. destruct s; simpl; now rewrite H. Qed.

(** The text captured by [sql_pattern] in a formatted response. *)
Lemma sql_group (sql explanation : string) :
  tidy sql -> sql <> EmptyString ->
  contains "Explanation:" sql = false ->
  exists m,
    ReX.search false true sql_pattern (formatted_response sql explanation)
    = Some m
    /\ Re.m_groups m = [sql ++ nl].
Proof.
  intros [Hfirst _] Hne Hc.
  apply marker_not_straddling in Hc.
  unfold ReX.search, formatted_response.
  destruct sql as [|c0 sql0] eqn:Esql; [congruence|]. rewrite <- Esql in *.
  assert (Hsp : is_space c0 = false) by (apply (Hfirst c0 sql0); exact Esql).
  set (tail := "Explanation: " ++ explanation).
  set (final := fun (_ : option ascii) (s1 : string) (caps : list string) =>
                  Some (s1, caps)).
  assert (Hrun :
    ReX.run false true sql_pattern None ("SQL: " ++ sql ++ nl ++ tail) [] final
    = Some (tail, [sql ++ nl])).
  { unfold sql_pattern, ReX.seq. cbn [fold_right].
    change ("SQL: " ++ sql ++ nl ++ tail)
      with ("SQL:" ++ (" " ++ (sql ++ nl ++ tail))).
    rewrite xrun_cat.
    match goal with
    | |- ReX.run _ _ (ReX.lit "SQL:") ?prev _ ?caps ?k = _ =>
        destruct (xrun_lit true "SQL:" (" " ++ (sql ++ nl ++ tail)) caps k prev)
          as [prev' ->]
    end.
    rewrite xrun_cat, xrun_star.
    apply star_greedy_all.
    - reflexivity.
    - intros prev1. rewrite xrun_cat, xrun_grp, xrun_star.
      rewrite <- append_assoc.
      apply star_lazy_first.
      + apply all_chars_dotall.
      + intros u v prev2 Huv Hv. rewrite xrun_cat, ahead_marker.
        unfold tail.
        rewrite (no_marker_inside (sql ++ nl) u v explanation); auto.
        * rewrite at_end_inside; [reflexivity | exact Hv | discriminate].
        * now rewrite append_assoc.
      + intros prev2. rewrite xrun_cat, ahead_marker.
        replace (startswith "Explanation:" tail) with true by reflexivity.
        cbn [orb ReX.run app]. unfold final.
        rewrite consumed_app. reflexivity.
    - rewrite Esql. cbn [append]. exact Hsp. }
  eexists. split.
  - apply search_at_here. unfold ReX.match_here. fold final.
    rewrite Hrun. reflexivity.
  - reflexivity.
Qed.

(** The text captured by [explanation_pattern] in a formatted response. *)
Lemma explanation_group (sql explanation : string) :
  tidy explanation ->
  contains "Explanation:" sql = false ->
  exists m,
    ReX.search false true explanation_pattern
      (formatted_response sql explanation) = Some m
    /\ Re.m_groups m = [explanation].
Proof.
  intros [Hfirst Hlast] Hc.
  apply marker_not_straddling in Hc.
  rewrite <- (marker_after_prefix (sql ++ nl ++ "Explanation")) in Hc.
  unfold ReX.search, formatted_response.
  set (final := fun (_ : option ascii) (s1 : string) (caps : list string) =>
                  Some (s1, caps)).
  replace ("SQL: " ++ sql ++ nl ++ "Explanation: " ++ explanation)
    with (("SQL: " ++ sql ++ nl) ++ "Explanation: " ++ explanation)
    by (rewrite !append_assoc; reflexivity).
  apply (search_at_skip false true explanation_pattern
           ("Explanation: " ++ explanation)
           {| Re.m_start := 0; Re.m_text := EmptyString;
              Re.m_groups := [explanation] |}).
  - intros u v pos' prev' Huv Hv. unfold ReX.match_here.
    unfold explanation_pattern, ReX.seq. cbn [fold_right].
    rewrite xrun_cat, xrun_lit_fail; [reflexivity|].
    apply (no_marker_inside ("SQL: " ++ sql ++ nl) u v); auto.
    now rewrite !append_assoc.
  - intros pos' prev'. unfold ReX.match_here. fold final.
    assert (Hrun :
      ReX.run false true explanation_pattern prev'
        ("Explanation: " ++ explanation) [] final
      = Some (EmptyString, [explanation])).
    { unfold explanation_pattern, ReX.seq. cbn [fold_right].
      change ("Explanation: " ++ explanation)
        with ("Explanation:" ++ (" " ++ explanation)).
      rewrite xrun_cat.
      match goal with
      | |- ReX.run _ _ (ReX.lit "Explanation:") ?prev _ ?caps ?k = _ =>
          destruct (xrun_lit true "Explanation:" (" " ++ explanation) caps k prev)
            as [prev1 ->]
      end.
      rewrite xrun_cat, xrun_star.
      apply star_greedy_all.
      - reflexivity.
      - intros prev2. rewrite xrun_cat, xrun_grp, xrun_star.
        rewrite <- (append_empty_r explanation) at 1.
        apply star_lazy_first.
        + apply all_chars_dotall.
        + intros u v prev3 Huv Hv. rewrite append_empty_r.
          rewrite xrun_cat. cbn [ReX.run].
          replace (Re.at_end v) with false; [reflexivity|].
          destruct v as [|c [|c' v]]; [congruence | | reflexivity].
          cbn [Re.at_end]. destruct (Ascii.eqb c newline) eqn:E; [|reflexivity].
          apply Ascii.eqb_eq in E. subst c.
          pose proof (Hlast u newline Huv) as Hx. vm_compute in Hx.
          discriminate Hx.
        + intros prev3. cbn [ReX.run Re.at_end app]. unfold final.
          rewrite <- (append_empty_r explanation) at 1.
          rewrite consumed_app. reflexivity.
      - destruct explanation as [|c e]; [exact I|].
        apply (Hfirst c e eq_refl). }
    rewrite Hrun. eexists. split; reflexivity.
Qed.

(** X14: a response written as the prompt asks ("SQL: ", the query, a new
    line, "Explanation: ", the explanation) is read back as it was
    written: when the generator has a key and the query passes
    [_validate_generated_sql], [generate_sql_with_ai] returns the query
    and the explanation, and [generate_sql] returns the query. *)
Theorem response_round_trip (self : QueryGenerator) (sql explanation q : string) :
  tidy sql -> sql <> EmptyString -> tidy explanation ->
  contains "Explanation:" sql = false ->
  falsy (openai_api_key self) = false ->
  _validate_generated_sql self sql = Ok tt ->
  generate_sql_with_ai self
    (Done (Some ("SQL: " ++ sql ++ nl ++ "Explanation: " ++ explanation))) q
  = Done (Some sql, Some explanation)
  /\ generate_sql self
       (Done (Some ("SQL: " ++ sql ++ nl ++ "Explanation: " ++ explanation))) q
     = Done sql.
Proof.
  intros Hs Hne He Hc Hk Hv.
  assert (Hsql : stripped_group sql_pattern (formatted_response sql explanation)
                 = sql).
  { unfold stripped_group.
    destruct (sql_group sql explanation Hs Hne Hc) as (m & -> & Hg).
    unfold Re.group. rewrite Hg. cbn [nth Nat.sub].
    now apply strip_tidy_line. }
  assert (Hex : stripped_group explanation_pattern
                  (formatted_response sql explanation) = explanation).
  { unfold stripped_group.
    destruct (explanation_group sql explanation He Hc) as (m & -> & Hg).
    unfold Re.group. rewrite Hg. cbn [nth Nat.sub].
    now apply strip_tidy. }
  unfold formatted_response in Hsql, Hex.
  assert (Hai : generate_sql_with_ai self
                  (Done (Some ("SQL: " ++ sql ++ nl ++ "Explanation: "
                               ++ explanation))) q
                = Done (Some sql, Some explanation)).
  { unfold generate_sql_with_ai, ai_body. rewrite Hk, Hsql, Hex, Hv.
    reflexivity. }
  split; [exact Hai|].
  unfold generate_sql. rewrite Hai.
  destruct sql; [congruence | reflexivity].
Qed.

Lemma response_round_trip_witness :
  generate_sql (__init__ (Some "key"))
    (Done (Some ("SQL: " ++ "SELECT c.region FROM sales s JOIN customers c ON s.customer_id = c.id GROUP BY c.region"
                 ++ nl ++ "Explanation: " ++ "Sales per region.")))
    "sales by region"
  = Done "SELECT c.region FROM sales s JOIN customers c ON s.customer_id = c.id GROUP BY c.region".
Proof.
  apply (response_round_trip (__init__ (Some "key"))
           "SELECT c.region FROM sales s JOIN customers c ON s.customer_id = c.id GROUP BY c.region"
           "Sales per region." "sales by region").
  - split.
    + intros c b [= <- _]. reflexivity.
    + intros a c E. apply (f_equal rev_string) in E.
      rewrite rev_string_snoc in E. vm_compute in E.
      injection E as <- _. reflexivity.
  - discriminate.
  - split.
    + intros c b [= <- _]. reflexivity.
    + intros a c E. apply (f_equal rev_string) in E.
      rewrite rev_string_snoc in E. vm_compute in E.
      injection E as <- _. reflexivity.
  - vm_compute. reflexivity.
  - reflexivity.
  - vm_compute. reflexivity.
Defined.

(** A request that is cancelled, and a request that fails with an
    Exception. *)
Example cancelled_request :
  generate_sql (__init__ (Some "key")) (Fail (Interrupt "cancelled"))
    "sales by region"
  = Fail (Interrupt "cancelled")
  /\ generate_sql (__init__ (Some "key")) (Fail (Foreign "timed out"))
       "sales by region"
     = Fail (Exception
               "Error generating SQL query: name 'metric' is not defined").
Proof. vm_compute. split; reflexivity. Qed.

End Service.

(* ------------------------------------------------------------------ *)
(** ** Capitals in the explanation, and a filter phrase in the sorting *)

Section Quirks.

Lemma lower_length (s : string) : String.length (lower s) = String.length s.
Proof. induction s as [|c s IH]; simpl; [reflexivity | now rewrite IH]. Qed.

Lemma append_same_length (x x' y y' : string) :
  String.length x = String.length x' ->
  x ++ y = x' ++ y' -> x = x' /\ y = y'.
Proof.
  revert x'. induction x as [|c x IH]; intros [|c' x'] Hl H;
    simpl in *; try discriminate.
  - now split.
  - injection H as -> H. injection Hl as Hl.
    destruct (IH _ Hl H) as [-> ->]. now split.
Qed.

Lemma lower_app_fixed (x y : string) :
  lower (x ++ y) = x ++ y -> lower x = x /\ lower y = y.
Proof.
  rewrite lower_app. apply append_same_length, lower_length.
Qed.

(** A text without capitals has no part with capitals. *)
Lemma lower_part (t s : string) :
  lower s = s -> contains t s = true -> lower t = t.
Proof.
  intros Hs Hc. apply contains_inv in Hc as (a & b & ->).
  apply lower_app_fixed in Hs as [_ Hs].
  now apply lower_app_fixed in Hs as [Hs _].
Qed.

Lemma lower_list (s : string) :
  list_ascii_of_string (lower s) = map lower_char (list_ascii_of_string s).
Proof. induction s as [|c s IH]; simpl; [reflexivity | now rewrite IH]. Qed.

Lemma lower_of_list (l : list ascii) :
  lower (string_of_list_ascii l) = string_of_list_ascii (map lower_char l).
Proof. induction l as [|c l IH]; simpl; [reflexivity | now rewrite IH]. Qed.

Lemma lower_rev_string (s : string) :
  lower (rev_string s) = rev_string (lower s).
Proof.
  unfold rev_string. now rewrite lower_of_list, lower_list, map_rev.
Qed.

Lemma lower_lstrip (s : string) : lower s = s -> lower (lstrip s) = lstrip s.
Proof.
  induction s as [|c s IH]; [reflexivity|]. intros H. simpl.
  destruct (is_space c); [|exact H].
  simpl in H. injection H as _ H. now apply IH.
Qed.

Lemma lower_strip (s : string) : lower s = s -> lower (strip s) = strip s.
Proof.
  intros H. unfold strip. rewrite lower_rev_string. f_equal.
  apply lower_lstrip. rewrite lower_rev_string. f_equal.
  now apply lower_lstrip.
Qed.

Lemma matches_cat (ic : bool) (r1 r2 : Re.regex) (a rest : string)
  (g : list string) :
  matches ic (Re.Cat r1 r2) a rest g ->
  exists a1 a2 g1 g2,
    a = a1 ++ a2 /\ g = (g1 ++ g2)%list
    /\ matches ic r1 a1 (a2 ++ rest) g1 /\ matches ic r2 a2 rest g2.
Proof. inversion 1; subst. now do 4 eexists. Qed.

Lemma matches_lit_groups (ic : bool) (w a rest : string) (g : list string) :
  matches ic (Re.lit w) a rest g -> g = [].
Proof.
  revert a rest g. induction w as [|c w IH]; intros a rest g H; simpl in H.
  - now inversion H.
  - apply matches_cat in H as (a1 & a2 & g1 & g2 & -> & -> & H1 & H2).
    inversion H1; subst. now apply IH in H2 as ->.
Qed.

(** The columns that [select_pattern] captures are a part of the text. *)
Lemma select_group_part (sql_query : string) (m : Re.rmatch) :
  Re.search true select_pattern sql_query = Some m ->
  exists u v, sql_query = u ++ Re.group 1 m ++ v.
Proof.
  intros H. apply search_sound in H as (pre & rest & -> & Hm & _).
  unfold Re.group. destruct m as [st tx gs]. cbn [Re.m_text Re.m_groups] in *.
  unfold select_pattern, Re.seq in Hm. cbn [fold_right] in Hm.
  apply matches_cat in Hm as (a1 & b1 & g1 & h1 & -> & -> & L1 & Hm).
  apply matches_cat in Hm as (a2 & b2 & g2 & h2 & -> & -> & P1 & Hm).
  apply matches_cat in Hm as (a3 & b3 & g3 & h3 & -> & -> & G & Hm).
  apply matches_lit_groups in L1 as ->.
  inversion P1; subst. inversion G as [ | | | | | | r a0 rest0 g0 S | | | | | | ]; subst.
  inversion S; subst. cbn [app nth Nat.sub].
  exists (pre ++ a1 ++ a2), (b3 ++ rest).
  rewrite !append_assoc. reflexivity.
Qed.

(** X19: the explanation looks for SUM, AVG, COUNT, MIN, MAX, GROUP BY, WHERE,
    ORDER BY and LIMIT in capitals only: for a SQL text without capital
    letters [explain_query] returns the lone full stop. *)
Theorem explain_query_needs_capitals (self : QueryGenerator)
  (sql_query : string) :
  lower sql_query = sql_query ->
  explain_query self sql_query = ".".
Proof.
  intros Hl. apply explain_query_no_part.
  assert (Hcap : forall t, lower t <> t -> contains t sql_query = false).
  { intros t Ht. destruct (contains t sql_query) eqn:E; [|reflexivity].
    elim Ht. exact (lower_part _ _ Hl E). }
  unfold explanation_parts, group_part, where_part, order_part, limit_part.
  rewrite !Hcap by (vm_compute; discriminate).
  rewrite !app_nil_r. unfold select_part.
  destruct (Re.search true select_pattern sql_query) as [m|] eqn:E;
    [|reflexivity].
  apply select_group_part in E as (u & v & E).
  assert (Hg : lower (strip (Re.group 1 m)) = strip (Re.group 1 m)).
  { apply lower_strip. rewrite E in Hl.
    apply lower_app_fixed in Hl as [_ Hl].
    now apply lower_app_fixed in Hl as [Hl _]. }
  assert (Hno : forall t, lower t <> t ->
                          contains t (strip (Re.group 1 m)) = false).
  { intros t Ht. destruct (contains t (strip (Re.group 1 m))) eqn:Ec;
      [|reflexivity].
    elim Ht. exact (lower_part _ _ Hg Ec). }
  rewrite !Hno by (vm_compute; discriminate). reflexivity.
Qed.

Lemma explain_query_needs_capitals_witness :
  lower "select c.region, sum(s.total_amount) from sales s join customers c on s.customer_id = c.id group by c.region order by 2 desc limit 5"
  = "select c.region, sum(s.total_amount) from sales s join customers c on s.customer_id = c.id group by c.region order by 2 desc limit 5"
  /\ explain_query (__init__ None)
       "select c.region, sum(s.total_amount) from sales s join customers c on s.customer_id = c.id group by c.region order by 2 desc limit 5"
     = ".".
Proof.
  split; [vm_compute; reflexivity|].
  apply explain_query_needs_capitals. vm_compute. reflexivity.
Defined.

(** X20: the filter phrase "at least" holds the direction keyword "least": a
    question with that phrase and with none of the seven keywords that
    come before "least" in [sort_patterns] is sorted in ascending order. *)
Theorem at_least_sorts_ascending (key : option string) (q : string) :
  contains "at least" (lower q) = true ->
  Forall (fun w => contains w (lower q) = false)
         ["ascending"; "descending"; "increasing"; "decreasing";
          "highest"; "lowest"; "most"] ->
  snd (_extract_sorting (__init__ key) q) = "ASC".
Proof.
  intros Hat H.
  assert (Hleast : contains "least" (lower q) = true)
    by (apply (contains_trans "least" "at least");
        [vm_compute; reflexivity | exact Hat]).
  repeat match goal with
         | H : Forall _ (_ :: _) |- _ =>
             let a := fresh "A" in
             apply Forall_cons_iff in H; destruct H as [a H]
         end.
  unfold _extract_sorting. cbn [snd sort_patterns __init__ first_in].
  repeat match goal with
         | Hc : contains _ (lower q) = false |- _ => rewrite Hc; clear Hc
         end.
  now rewrite Hleast.
Qed.

Lemma at_least_sorts_ascending_witness :
  _extract_comparison (__init__ None) "Sales at least 100 by region"
  = ["s.total_amount >= 100"]
  /\ snd (_extract_sorting (__init__ None) "Sales at least 100 by region")
     = "ASC".
Proof.
  split; [vm_compute; reflexivity|].
  apply (at_least_sorts_ascending None "Sales at least 100 by region").
  - vm_compute. reflexivity.
  - repeat constructor.
Defined.

End Quirks.
